(** * Reconcilers of cloud-run-events: GCS notifications and PubSubSource

    A shallow embedding of [pkg/reconciler/gcs/gcs.go] and of the
    PubSubSource reconciler (package [pubsubsource]), with the properties
    of the reconcile loop, the finalizer handling and the life cycle of the
    external resources stated over it. *)

From Stdlib Require Import Ascii.
From stdpp Require Import base strings gmap sets list sorting pretty.

Open Scope string_scope.
Open Scope list_scope.

(** ** Go errors

    An [error] value of the Go code is never inspected beyond the three
    tests the reconcilers make: [err != nil], [apierrs.IsNotFound(err)] and
    [gstatus.FromError(err)] followed by [st.Code()].  [option error] is a
    Go [error] that may be [nil]. *)

Module codes.
(** google.golang.org/grpc/codes, without [OK] (an error is never [OK]). *)
Inductive Code :=
| Canceled | Unknown | InvalidArgument | DeadlineExceeded | NotFound
| AlreadyExists | PermissionDenied | ResourceExhausted | FailedPrecondition
| Aborted | OutOfRange | Unimplemented | Internal | Unavailable | DataLoss
| Unauthenticated.

#[global] Instance Code_eq_dec : EqDecision Code.
Proof. solve_decision. Defined.
End codes.

Module metav1.
(** k8s.io/apimachinery: the reason carried by an API status error. *)
Inductive StatusReason :=
| StatusReasonNotFound | StatusReasonAlreadyExists | StatusReasonConflict
| StatusReasonInvalid | StatusReasonForbidden | StatusReasonInternalError.

#[global] Instance StatusReason_eq_dec : EqDecision StatusReason.
Proof. solve_decision. Defined.

(** The part of [ObjectMeta] the reconcilers read or write.  Times are
    opaque integers. *)
Record ObjectMeta := mkObjectMeta {
  Name : string;
  Namespace : string;
  UID : string;
  ResourceVersion : string;
  Generation : Z;
  CreationTimestamp : Z;
  DeletionTimestamp : option Z;
  Finalizers : list string
}.

#[global] Instance ObjectMeta_eq_dec : EqDecision ObjectMeta.
Proof. solve_decision. Defined.

Definition withFinalizers (f : list string) (m : ObjectMeta) : ObjectMeta :=
  {| Name := Name m; Namespace := Namespace m; UID := UID m;
     ResourceVersion := ResourceVersion m; Generation := Generation m;
     CreationTimestamp := CreationTimestamp m;
     DeletionTimestamp := DeletionTimestamp m; Finalizers := f |}.
End metav1.

Inductive error :=
| StatusError (c : codes.Code) (msg : string)       (* a gRPC status error *)
| APIStatus (r : metav1.StatusReason) (msg : string) (* a Kubernetes API error *)
| errorString (msg : string).                       (* errors.New, fmt.Errorf *)

#[global] Instance error_eq_dec : EqDecision error.
Proof. solve_decision. Defined.

(** [err.Error()]. *)
Definition Error (e : error) : string :=
  match e with
  | StatusError _ msg | APIStatus _ msg | errorString msg => msg
  end.

(** [gstatus.FromError(err)] for a non-nil [err]: [Some code] when [ok],
    [None] when the error is not a gRPC status. *)
Definition gstatus_FromError (e : error) : option codes.Code :=
  match e with
  | StatusError c _ => Some c
  | _ => None
  end.

(** [apierrs.IsNotFound(err)]; [false] on [nil]. *)
Definition IsNotFound (e : option error) : bool :=
  match e with
  | Some (APIStatus metav1.StatusReasonNotFound _) => true
  | _ => false
  end.

Definition isNil (e : option error) : bool :=
  match e with None => true | Some _ => false end.

(** ** k8s.io/apimachinery/pkg/util/sets: [sets.String]

    A Go [map[string]Empty]; [List] returns the members sorted. *)
Module sets.
Definition NewString (items : list string) : gset string := list_to_set items.
Definition Insert (s : gset string) (item : string) : gset string := s ∪ {[ item ]}.
Definition Delete (s : gset string) (item : string) : gset string := s ∖ {[ item ]}.
Definition Has (s : gset string) (item : string) : bool := bool_decide (item ∈ s).
Definition List (s : gset string) : list string := merge_sort String.le (elements s).
End sets.

(** ** [cache.SplitMetaNamespaceKey]

    [strings.Split(key, "/")]: one part is a name with no namespace, two
    parts are namespace and name, anything else is an error. *)
Fixpoint split_slash (cur : string) (s : string) : list string :=
  match s with
  | EmptyString => [String.rev cur]
  | String c s' =>
      if Ascii.eqb c "/"%char then String.rev cur :: split_slash "" s'
      else split_slash (String c cur) s'
  end.

Definition SplitMetaNamespaceKey (key : string) : error + (string * string) :=
  match split_slash "" key with
  | [name] => inr ("", name)
  | [namespace; name] => inr (namespace, name)
  | _ => inl (errorString ("unexpected key format: " +:+ key))
  end.

(** ** Conditions *)

Inductive ConditionStatus := ConditionTrue | ConditionFalse | ConditionUnknown.

#[global] Instance ConditionStatus_eq_dec : EqDecision ConditionStatus.
Proof. solve_decision. Defined.

(** The condition types are named after the [Mark...] methods the
    reconcilers call. *)
Inductive ConditionType :=
| SinkProvided | PubSubTopicReady | PubSubSourceReady | GCSReady
| Subscribed | Deployed.

#[global] Instance ConditionType_eq_dec : EqDecision ConditionType.
Proof. solve_decision. Defined.

Record Condition := mkCondition {
  Type_ : ConditionType;
  Status_ : ConditionStatus;
  Reason : string;
  Message : string
}.

#[global] Instance Condition_eq_dec : EqDecision Condition.
Proof. solve_decision. Defined.

(** Modelled from the spec: the condition manager of the API types
    (package [v1alpha1]) is not under src.  Spec 3 and 4.1: conditions are
    "monotonically overwritten by type, never appended duplicated";
    [mark(type, True|False, reason, message)].  The transition time is left
    out. *)
Fixpoint setCondition (c : Condition) (cs : list Condition) : list Condition :=
  match cs with
  | [] => [c]
  | c' :: cs' =>
      if decide (Type_ c' = Type_ c) then c :: cs' else c' :: setCondition c cs'
  end.

Definition getCondition (t : ConditionType) (cs : list Condition) : option Condition :=
  List.find (fun c => bool_decide (Type_ c = t)) cs.

(** Modelled from the spec: [InitializeConditions] is not under src.
    Spec 4.5 step 4: "initialize/normalize conditions to Unknown if
    absent". *)
Definition initCondition (t : ConditionType) (cs : list Condition) : list Condition :=
  match getCondition t cs with
  | Some _ => cs
  | None => cs ++ [mkCondition t ConditionUnknown "" ""]
  end.

Definition initConditions (ts : list ConditionType) (cs : list Condition) : list Condition :=
  foldl (fun acc t => initCondition t acc) cs ts.

(** Modelled from the spec: [IsReady] is not under src.  Spec 4.1: "a
    resource is Ready iff all of [the dependent conditions] are True". *)
Definition allTrue (ts : list ConditionType) (cs : list Condition) : bool :=
  forallb (fun t =>
    match getCondition t cs with
    | Some c => bool_decide (Status_ c = ConditionTrue)
    | None => false
    end) ts.

(** A condition of status [False] is recorded for type [t]. *)
Definition markedFalse (t : ConditionType) (cs : list Condition) : bool :=
  match getCondition t cs with
  | Some c => bool_decide (Status_ c = ConditionFalse)
  | None => false
  end.


(** ** Go maps

    A Go map is a reference: two variables may hold the same map, and a
    write through one shows through the other.  A function that writes to
    maps is run on a heap of maps, addressed by number. *)
Definition heap_make (h : gmap nat (gmap string string)) : nat * gmap nat (gmap string string) :=
  let a := fresh (dom h) in (a, <[a := ∅]> h).

(** [m[k] = v] for the map at address [a]. *)
Definition heap_store (a : nat) (k v : string)
    (h : gmap nat (gmap string string)) : gmap nat (gmap string string) :=
  alter (fun m => <[k := v]> m) a h.

Definition heap_load (a : nat) (h : gmap nat (gmap string string)) : gmap string string :=
  default ∅ (h !! a).

(** ** The monad of a reconcile pass

    A pass runs against a world [W] (the provider, the API server, the
    informer cache) and mutates one in-memory record [R] through a pointer.
    Every call that leaves the process is appended to [trace], together with
    the in-memory record as it is at the moment of the call. *)
Section Pass.
Context {W R C : Type}.

Record St := mkSt { world : W; obj : R; trace : list (C * R) }.

Definition M (A : Type) : Type := St -> A * St.

Definition ret {A} (a : A) : M A := fun s => (a, s).
Definition bind {A B} (m : M A) (k : A -> M B) : M B :=
  fun s => let '(a, s') := m s in k a s'.

Definition getObj : M R := fun s => (obj s, s).
Definition modifyObj (f : R -> R) : M unit :=
  fun s => (tt, mkSt (world s) (f (obj s)) (trace s)).
Definition getWorld : M W := fun s => (world s, s).
Definition modifyWorld (f : W -> W) : M unit :=
  fun s => (tt, mkSt (f (world s)) (obj s) (trace s)).
Definition emit (c : C) : M unit :=
  fun s => (tt, mkSt (world s) (obj s) (trace s ++ [(c, obj s)])).

(** The calls of a trace, without the snapshots. *)
Definition calls (s : St) : list C := (trace s).*1.
End Pass.

Arguments St : clear implicits.
Arguments M : clear implicits.

Declare Scope pass_scope.
Delimit Scope pass_scope with pass.
Notation "x <- c ;; k" := (bind c (fun x => k))
  (at level 100, c at next level, right associativity) : pass_scope.
Notation "c ;; k" := (bind c (fun _ => k))
  (at level 100, right associativity) : pass_scope.

(** * The GCS reconciler: [pkg/reconciler/gcs/gcs.go] *)
Module GCS.

Import metav1.

(** ** The record ([v1alpha1.GCS]) *)

Record GCSSpec := mkGCSSpec {
  GoogleCloudProject : string;
  Bucket : string;
  EventTypes : list string;
  ObjectNamePrefix : string;
  CustomAttributes : gmap string string;
  Sink : string                      (* the reference to the sink, opaque *)
}.

Record GCSStatus := mkGCSStatus {
  Conditions : list Condition;
  SinkURI : string;
  Topic : string;
  NotificationID : string
}.

Record GCS := mkGCS {
  ObjectMeta : metav1.ObjectMeta;
  Spec : GCSSpec;
  Status : GCSStatus
}.

#[global] Instance GCSSpec_eq_dec : EqDecision GCSSpec.
Proof. solve_decision. Defined.
#[global] Instance GCSStatus_eq_dec : EqDecision GCSStatus.
Proof. solve_decision. Defined.
#[global] Instance GCS_eq_dec : EqDecision GCS.
Proof. solve_decision. Defined.

Definition withStatus (f : GCSStatus -> GCSStatus) (o : GCS) : GCS :=
  mkGCS (ObjectMeta o) (Spec o) (f (Status o)).
Definition withMeta (f : metav1.ObjectMeta -> metav1.ObjectMeta) (o : GCS) : GCS :=
  mkGCS (f (ObjectMeta o)) (Spec o) (Status o).
Definition withSpec (f : GCSSpec -> GCSSpec) (o : GCS) : GCS :=
  mkGCS (ObjectMeta o) (f (Spec o)) (Status o).
Definition setCustomAttributes (m : gmap string string) (s : GCSSpec) : GCSSpec :=
  mkGCSSpec (GoogleCloudProject s) (Bucket s) (EventTypes s) (ObjectNamePrefix s) m (Sink s).

Definition setConditions (cs : list Condition) (s : GCSStatus) : GCSStatus :=
  mkGCSStatus cs (SinkURI s) (Topic s) (NotificationID s).
Definition setSinkURI (u : string) (s : GCSStatus) : GCSStatus :=
  mkGCSStatus (Conditions s) u (Topic s) (NotificationID s).
Definition setTopic (t : string) (s : GCSStatus) : GCSStatus :=
  mkGCSStatus (Conditions s) (SinkURI s) t (NotificationID s).
Definition setNotificationID (n : string) (s : GCSStatus) : GCSStatus :=
  mkGCSStatus (Conditions s) (SinkURI s) (Topic s) n.

(** Modelled from the spec: the [Mark...] methods of [GCSStatus] are not
    under src.  Each is [mark(type, status, reason, message)] of spec 4.1
    on the condition type it names. *)
Definition gcsConditionSet : list ConditionType :=
  [PubSubTopicReady; PubSubSourceReady; GCSReady].
Definition InitializeConditions (s : GCSStatus) : GCSStatus :=
  setConditions (initConditions gcsConditionSet (Conditions s)) s.
Definition mark (t : ConditionType) (st : ConditionStatus) (reason message : string)
    (s : GCSStatus) : GCSStatus :=
  setConditions (setCondition (mkCondition t st reason message) (Conditions s)) s.
Definition MarkPubSubTopicNotReady (reason message : string) :=
  mark PubSubTopicReady ConditionFalse reason message.
Definition MarkPubSubTopicReady := mark PubSubTopicReady ConditionTrue "" "".
Definition MarkPubSubSourceNotReady (reason message : string) :=
  mark PubSubSourceReady ConditionFalse reason message.
Definition MarkPubSubSourceReady := mark PubSubSourceReady ConditionTrue "" "".
Definition MarkGCSNotReady (reason message : string) :=
  mark GCSReady ConditionFalse reason message.
Definition MarkGCSReady := mark GCSReady ConditionTrue "" "".
Definition IsReady (s : GCSStatus) : bool := allTrue gcsConditionSet (Conditions s).

(** ** The collaborators *)

(** [storage.Notification]. *)
Record Notification := mkNotification {
  ID : string;
  TopicProjectID : string;
  TopicID : string;
  PayloadFormat : string;
  NEventTypes : list string;
  NObjectNamePrefix : string;
  NCustomAttributes : gmap string string
}.

#[global] Instance Notification_eq_dec : EqDecision Notification.
Proof. solve_decision. Defined.

Definition JSONPayload : string := "JSON_API_V1".

Definition withID (id : string) (n : Notification) : Notification :=
  mkNotification id (TopicProjectID n) (TopicID n) (PayloadFormat n)
    (NEventTypes n) (NObjectNamePrefix n) (NCustomAttributes n).

(** The part of a [PullSubscription] the reconciler reads. *)
Record PullSubscription := mkPullSubscription {
  psNamespace : string;
  psName : string;
  psTopic : string;
  psSink : string;
  psReady : bool;          (* [Status.IsReady()] *)
  psSinkURI : string       (* [Status.SinkURI] *)
}.

#[global] Instance PullSubscription_eq_dec : EqDecision PullSubscription.
Proof. solve_decision. Defined.

(** Every call that leaves the process. *)
Inductive Call :=
| GetSinkURI (sink namespace : string)
| PubsubNewClient (project : string)
| TopicExists (project topic : string)
| CreateTopic (project topic : string)
| TopicDelete (project topic : string)
| StorageNewClient
| BucketNotifications (bucket : string)
| AddNotification (bucket : string) (n : Notification)
| DeleteNotification (bucket id : string)
| PullSubscriptionsGet (namespace name : string)
| PullSubscriptionsCreate (namespace : string) (ps : PullSubscription)
| UpdateStatus (o : GCS)
| ReportReady (namespace name : string).

#[global] Instance Call_eq_dec : EqDecision Call.
Proof. solve_decision. Defined.

(** The calls that create an external resource, the calls that delete a
    notification, and the calls that write to the API server. *)
Definition isCreate (c : Call) : bool :=
  match c with
  | CreateTopic _ _ | AddNotification _ _ | PullSubscriptionsCreate _ _ => true
  | _ => false
  end.

Definition isDeleteNotification (c : Call) : bool :=
  match c with DeleteNotification _ _ => true | _ => false end.

Definition isPersist (c : Call) : bool :=
  match c with UpdateStatus _ => true | _ => false end.

(** The world a pass runs against.  [fault] is the failure, if any, that a
    call meets before it has any effect (a network error, a quota, a
    refusal); the other fields are the state of the collaborators. *)
Record World := mkWorld {
  fault : Call -> option error;
  lister : string -> string -> error + GCS;       (* the informer cache: a read
                                                     inside the process, not logged *)
  sinks : gmap (string * string) string;          (* (namespace, sink) to URI *)
  uuids : nat -> string;                          (* what [uuid.New()] returns *)
  uuidsDrawn : nat;
  topics : gset (string * string);                (* (project, topic) *)
  notifications : gmap string (gmap string Notification);   (* per bucket *)
  newNotificationID : gmap string Notification -> string;
  pullSubscriptions : gmap (string * string) PullSubscription;
  persisted : gmap (string * string) GCS          (* the API server *)
}.

Definition setUuidsDrawn (n : nat) (w : World) : World :=
  mkWorld (fault w) (lister w) (sinks w) (uuids w) n (topics w)
    (notifications w) (newNotificationID w) (pullSubscriptions w) (persisted w).
Definition setTopics (t : gset (string * string)) (w : World) : World :=
  mkWorld (fault w) (lister w) (sinks w) (uuids w) (uuidsDrawn w) t
    (notifications w) (newNotificationID w) (pullSubscriptions w) (persisted w).
Definition setNotifications (n : gmap string (gmap string Notification)) (w : World) : World :=
  mkWorld (fault w) (lister w) (sinks w) (uuids w) (uuidsDrawn w) (topics w)
    n (newNotificationID w) (pullSubscriptions w) (persisted w).
Definition setPullSubscriptions (p : gmap (string * string) PullSubscription) (w : World) : World :=
  mkWorld (fault w) (lister w) (sinks w) (uuids w) (uuidsDrawn w) (topics w)
    (notifications w) (newNotificationID w) p (persisted w).
Definition setPersisted (p : gmap (string * string) GCS) (w : World) : World :=
  mkWorld (fault w) (lister w) (sinks w) (uuids w) (uuidsDrawn w) (topics w)
    (notifications w) (newNotificationID w) (pullSubscriptions w) p.

Definition bucketNotifications (w : World) (bucket : string) : gmap string Notification :=
  default ∅ (notifications w !! bucket).

Abbreviation Pass := (M World GCS Call).
Abbreviation State := (St World GCS Call).

Open Scope pass_scope.

(** [call c k]: log [c]; if the world makes it fail, return the failure,
    else run [k] on the world. *)
Definition call {A} (c : Call) (k : World -> Pass A) : Pass (error + A) :=
  emit c ;;
  w <- getWorld ;;
  match fault w c with
  | Some e => ret (inl e)
  | None => a <- k w ;; ret (inr a)
  end.

Definition errOf {A} (r : error + A) : option error :=
  match r with inl e => Some e | inr _ => None end.

Definition notFound (what : string) : error :=
  APIStatus StatusReasonNotFound (what +:+ " not found").

Definition duck_GetSinkURI (sink namespace : string) : Pass (error + string) :=
  r <- call (GetSinkURI sink namespace)
         (fun w => ret (sinks w !! (namespace, sink))) ;;
  ret (match r with
       | inl e => inl e
       | inr (Some u) => inr u
       | inr None => inl (notFound sink)
       end).

Definition uuid_New : Pass string :=
  w <- getWorld ;;
  modifyWorld (setUuidsDrawn (S (uuidsDrawn w))) ;;
  ret (uuids w (uuidsDrawn w)).

Definition pubsub_NewClient (project : string) : Pass (option error) :=
  r <- call (PubsubNewClient project) (fun _ => ret tt) ;; ret (errOf r).

Definition topic_Exists (project topic : string) : Pass (error + bool) :=
  call (TopicExists project topic)
    (fun w => ret (bool_decide ((project, topic) ∈ topics w))).

Definition psc_CreateTopic (project topic : string) : Pass (option error) :=
  r <- call (CreateTopic project topic) (fun w =>
         if decide ((project, topic) ∈ topics w)
         then ret (Some (StatusError codes.AlreadyExists "topic already exists"))
         else modifyWorld (setTopics (topics w ∪ {[ (project, topic) ]})) ;; ret None) ;;
  ret (match r with inl e => Some e | inr e => e end).

Definition topic_Delete (project topic : string) : Pass (option error) :=
  r <- call (TopicDelete project topic) (fun w =>
         if decide ((project, topic) ∈ topics w)
         then modifyWorld (setTopics (topics w ∖ {[ (project, topic) ]})) ;; ret None
         else ret (Some (StatusError codes.NotFound "topic not found"))) ;;
  ret (match r with inl e => Some e | inr e => e end).

Definition storage_NewClient : Pass (option error) :=
  r <- call StorageNewClient (fun _ => ret tt) ;; ret (errOf r).

Definition bucket_Notifications (bucket : string)
    : Pass (error + gmap string Notification) :=
  call (BucketNotifications bucket) (fun w => ret (bucketNotifications w bucket)).

Definition bucket_AddNotification (bucket : string) (n : Notification)
    : Pass (error + Notification) :=
  call (AddNotification bucket n) (fun w =>
    let existing := bucketNotifications w bucket in
    let created := withID (newNotificationID w existing) n in
    modifyWorld (setNotifications
      (<[bucket := <[ID created := created]> existing]> (notifications w))) ;;
    ret created).

Definition bucket_DeleteNotification (bucket id : string) : Pass (option error) :=
  r <- call (DeleteNotification bucket id) (fun w =>
         let existing := bucketNotifications w bucket in
         match existing !! id with
         | Some _ =>
             modifyWorld (setNotifications
               (<[bucket := delete id existing]> (notifications w))) ;;
             ret None
         | None => ret (Some (StatusError codes.NotFound "notification not found"))
         end) ;;
  ret (match r with inl e => Some e | inr e => e end).

Definition pullSubscriptions_Get (namespace name : string)
    : Pass (error + PullSubscription) :=
  r <- call (PullSubscriptionsGet namespace name)
         (fun w => ret (pullSubscriptions w !! (namespace, name))) ;;
  ret (match r with
       | inl e => inl e
       | inr (Some ps) => inr ps
       | inr None => inl (notFound name)
       end).

Definition pullSubscriptions_Create (namespace : string) (ps : PullSubscription)
    : Pass (error + PullSubscription) :=
  r <- call (PullSubscriptionsCreate namespace ps) (fun w =>
         let key := (namespace, psName ps) in
         match pullSubscriptions w !! key with
         | Some _ =>
             ret (inl (APIStatus StatusReasonAlreadyExists "pullsubscription exists"))
         | None =>
             modifyWorld (setPullSubscriptions (<[key := ps]> (pullSubscriptions w))) ;;
             ret (inr ps)
         end) ;;
  ret (match r with inl e => inl e | inr r' => r' end).

(** [UpdateStatus] writes the status subresource: of the stored record only
    the status changes. *)
Definition gcss_UpdateStatus (o : GCS) : Pass (error + GCS) :=
  call (UpdateStatus o) (fun w =>
    let key := (Namespace (ObjectMeta o), Name (ObjectMeta o)) in
    let src := match persisted w !! key with
               | Some cur => withStatus (fun _ => Status o) cur
               | None => o
               end in
    modifyWorld (setPersisted (<[key := src]> (persisted w))) ;;
    ret src).

Definition statsReporter_ReportReady (namespace name : string) : Pass (option error) :=
  r <- call (ReportReady namespace name) (fun _ => ret tt) ;; ret (errOf r).


(** ** The reconciler *)
Section Reconciler.

(** [controllerAgentName] is declared in the package's [controller.go] and
    [resources.MakePullSubscription] in the package [resources]; neither is
    under src, both are parameters here. *)
Variable controllerAgentName : string.
Variable MakePullSubscription : GCS -> string -> PullSubscription.

Definition finalizerName : string := controllerAgentName.

Definition addFinalizer (csr : GCS) : GCS :=
  let finalizers := sets.NewString (Finalizers (ObjectMeta csr)) in
  let finalizers := sets.Insert finalizers finalizerName in
  withMeta (withFinalizers (sets.List finalizers)) csr.

Definition removeFinalizer (csr : GCS) : GCS :=
  let finalizers := sets.NewString (Finalizers (ObjectMeta csr)) in
  let finalizers := sets.Delete finalizers finalizerName in
  withMeta (withFinalizers (sets.List finalizers)) csr.

Definition reconcileTopic : Pass (option error) :=
  csr <- getObj ;;
  (if decide (Topic (Status csr) = "") then
     (* Create a UUID for the topic. prefix with gcs- to make it conformant. *)
     u <- uuid_New ;;
     modifyObj (withStatus (setTopic ("gcs-" +:+ u)))
   else ret tt) ;;
  csr <- getObj ;;
  err <- pubsub_NewClient (GoogleCloudProject (Spec csr)) ;;
  match err with
  | Some err => ret (Some err)
  | None =>
      r <- topic_Exists (GoogleCloudProject (Spec csr)) (Topic (Status csr)) ;;
      match r with
      | inl err => ret (Some err)
      | inr true => ret None
      | inr false =>
          err <- psc_CreateTopic (GoogleCloudProject (Spec csr)) (Topic (Status csr)) ;;
          match err with
          | Some err => ret (Some err)
          | None => ret None
          end
      end
  end.

Definition deleteTopic (project topic : string) : Pass (option error) :=
  (* No topic, no delete... *)
  if decide (topic = "") then ret None
  else
    err <- pubsub_NewClient project ;;
    match err with
    | Some err => ret (Some err)
    | None =>
        err <- topic_Delete project topic ;;
        match err with
        | None => ret None
        | Some err =>
            match gstatus_FromError err with
            | None => ret (Some err)
            | Some code =>
                if decide (code <> codes.NotFound) then ret (Some err) else ret None
            end
        end
    end.

Definition deleteNotification : Pass (option error) :=
  gcs <- getObj ;;
  if decide (NotificationID (Status gcs) = "") then ret None
  else
    err <- storage_NewClient ;;
    match err with
    | Some err => ret (Some err)
    | None =>
        err <- bucket_DeleteNotification (Bucket (Spec gcs)) (NotificationID (Status gcs)) ;;
        match err with
        | None => ret None
        | Some err =>
            match gstatus_FromError err with
            | None => ret (Some err)
            | Some code =>
                if decide (code <> codes.NotFound) then ret (Some err) else ret None
            end
        end
    end.

(** The maps of [reconcileNotification]: [gcs.Spec.CustomAttributes] is at
    address [specAttributes] of the heap the function starts on. *)
Definition specAttributes : nat := 0.

(** [customAttributes := make(map[string]string)] followed by
    [for k, v := range gcs.Spec.CustomAttributes { customAttributes[k] = v }]
    and [customAttributes["ce-type"] = "google.gcs"]: the address of
    [customAttributes] and the heap left. *)
Definition buildCustomAttributes (h : gmap nat (gmap string string))
    : nat * gmap nat (gmap string string) :=
  let '(customAttributes, h) := heap_make h in
  let h := map_fold (fun k v h => heap_store customAttributes k v h) h
             (heap_load specAttributes h) in
  (* Add our own event type here... *)
  let h := heap_store customAttributes "ce-type" "google.gcs" h in
  (customAttributes, h).

(** The spec's map, as the heap leaves it, is put back on the record: a
    write through an alias of [gcs.Spec.CustomAttributes] would show there. *)
Definition reconcileNotification : Pass (error + Notification) :=
  gcs <- getObj ;;
  err <- storage_NewClient ;;
  match err with
  | Some err => ret (inl err)
  | None =>
      r <- bucket_Notifications (Bucket (Spec gcs)) ;;
      match r with
      | inl err => ret (inl err)
      | inr notifications =>
          match (if decide (NotificationID (Status gcs) <> "")
                 then notifications !! NotificationID (Status gcs) else None) with
          | Some existing => ret (inr existing)
          | None =>
              let h := {[ specAttributes := CustomAttributes (Spec gcs) ]} in
              let '(customAttributes, h) := buildCustomAttributes h in
              modifyObj (withSpec (setCustomAttributes (heap_load specAttributes h))) ;;
              r <- bucket_AddNotification (Bucket (Spec gcs))
                     {| ID := "";
                        TopicProjectID := GoogleCloudProject (Spec gcs);
                        TopicID := Topic (Status gcs);
                        PayloadFormat := JSONPayload;
                        NEventTypes := EventTypes (Spec gcs);
                        NObjectNamePrefix := ObjectNamePrefix (Spec gcs);
                        NCustomAttributes := heap_load customAttributes h |} ;;
              match r with
              | inl err => ret (inl err)
              | inr notification => ret (inr notification)
              end
          end
      end
  end.

Definition reconcilePubSub : Pass (error + PullSubscription) :=
  csr <- getObj ;;
  r <- pullSubscriptions_Get (Namespace (ObjectMeta csr)) (Name (ObjectMeta csr)) ;;
  match r with
  | inr existing => ret (inr existing)
  | inl err =>
      if IsNotFound (Some err) then
        let pubsub := MakePullSubscription csr "testing" in
        pullSubscriptions_Create (Namespace (ObjectMeta csr)) pubsub
      else ret (inl err)
  end.

Definition reconcileGCSSource : Pass (option error) :=
  csr <- getObj ;;
  (* See if the source has been deleted. *)
  let deletionTimestamp := DeletionTimestamp (ObjectMeta csr) in
  (* First try to resolve the sink, and if not found mark as not resolved. *)
  r <- duck_GetSinkURI (Sink (Spec csr)) (Namespace (ObjectMeta csr)) ;;
  match (match r with
         | inl err =>
             (* TODO: Update status appropriately (MarkNoSink is commented out) *)
             if decide (deletionTimestamp = None) then inl err
             else inr ""   (* we don't care about the URI if we're deleting *)
         | inr uri => inr uri
         end) with
  | inl err => ret (Some err)
  | inr uri =>
      if decide (deletionTimestamp <> None) then
        err <- deleteNotification ;;
        match err with
        | Some err => ret (Some err)
        | None =>
            csr <- getObj ;;
            err <- deleteTopic (GoogleCloudProject (Spec csr)) (Topic (Status csr)) ;;
            match err with
            | Some err => ret (Some err)
            | None =>
                modifyObj (withStatus (setTopic "")) ;;
                modifyObj removeFinalizer ;;
                ret None
            end
        end
      else
        modifyObj (withStatus InitializeConditions) ;;
        err <- reconcileTopic ;;
        match err with
        | Some err =>
            modifyObj (withStatus (MarkPubSubTopicNotReady
              ("Failed to create GCP PubSub Topic: " +:+ Error err) "")) ;;
            ret (Some err)
        | None =>
            modifyObj (withStatus MarkPubSubTopicReady) ;;
            modifyObj addFinalizer ;;
            modifyObj (withStatus (setSinkURI uri)) ;;
            (* Make sure PubSubSource is in the state we expect it to be in. *)
            r <- reconcilePubSub ;;
            match r with
            | inl err =>
                modifyObj (withStatus (MarkPubSubSourceNotReady
                  ("Failed to create GCP PubSub Source: " +:+ Error err) "")) ;;
                ret (Some err)
            | inr pubsub =>
                (* Check to see if pubsub source is ready *)
                (if negb (psReady pubsub) then
                   modifyObj (withStatus (MarkPubSubSourceNotReady
                     "underlying GCP PubSub Source is not ready" ""))
                 else modifyObj (withStatus MarkPubSubSourceReady)) ;;
                r <- reconcileNotification ;;
                match r with
                | inl err =>
                    modifyObj (withStatus (MarkGCSNotReady
                      ("Failed to create GCS notification: " +:+ Error err) "")) ;;
                    ret (Some err)
                | inr notification =>
                    modifyObj (withStatus MarkGCSReady) ;;
                    modifyObj (withStatus (setNotificationID (ID notification))) ;;
                    ret None
                end
            end
        end
  end.

Definition updateStatus (desired : GCS) : Pass (error + GCS) :=
  w <- getWorld ;;
  match lister w (Namespace (ObjectMeta desired)) (Name (ObjectMeta desired)) with
  | inl err => ret (inl err)
  | inr source =>
      (* Check if there is anything to update. *)
      if decide (Status source = Status desired) then ret (inr source)
      else
        let becomesReady := IsReady (Status desired) && negb (IsReady (Status source)) in
        (* Don't modify the informers copy. *)
        let existing := source in
        let existing := withStatus (fun _ => Status desired) existing in
        r <- gcss_UpdateStatus existing ;;
        (if isNil (errOf r) && becomesReady then
           _ <- statsReporter_ReportReady (Namespace (ObjectMeta source))
                  (Name (ObjectMeta source)) ;;
           ret tt
         else ret tt) ;;
        ret r
  end.

(** [Reconcile] once the record is loaded and copied: [original] is the
    informer's copy, the state's record is [csr]. *)
Definition reconcileLoaded (original : GCS) : Pass (option error) :=
  err <- reconcileGCSSource ;;
  csr <- getObj ;;
  if decide (Status original = Status csr /\ ObjectMeta original = ObjectMeta csr)
  then
    (* If we didn't change anything (status or finalizers) then don't call update. *)
    ret err
  else
    r <- updateStatus csr ;;
    match r with
    | inl err => ret (Some err)
    | inr _ => ret err
    end.

(** The outcome of a whole [Reconcile]: the error returned, the world left
    behind and the calls made. *)
Definition Reconcile (key : string) (w : World)
    : option error * World * list (Call * GCS) :=
  (* Convert the namespace/name string into a distinct namespace and name *)
  match SplitMetaNamespaceKey key with
  | inl _ => (None, w, [])
  | inr (namespace, name) =>
      (* Get the Gcs resource with this namespace/name *)
      match lister w namespace name with
      | inl err =>
          if IsNotFound (Some err) then
            (* The Gcs resource may no longer exist, in which case we stop processing. *)
            (None, w, [])
          else (Some err, w, [])
      | inr original =>
          (* Don't modify the informers copy *)
          let csr := original in
          let '(err, s) := reconcileLoaded original (mkSt w csr []) in
          (err, world s, trace s)
      end
  end.

End Reconciler.

End GCS.

(** * The PubSubSource reconciler (package [pubsubsource]) *)
Module PubSubSource.

Import metav1.

(** ** The record ([v1alpha1.PubSubSource]) *)

Record PubSubSourceSpec := mkPubSubSourceSpec {
  Project : string;
  Topic : string;
  Sink : string;                       (* the reference to the sink, opaque *)
  Transformer : option string          (* nil or a reference *)
}.

Record PubSubSourceStatus := mkPubSubSourceStatus {
  Conditions : list Condition;
  SinkURI : string;
  ProjectID : string;
  ObservedGeneration : Z
}.

Record PubSubSource := mkPubSubSource {
  ObjectMeta : metav1.ObjectMeta;
  Spec : PubSubSourceSpec;
  Status : PubSubSourceStatus
}.

#[global] Instance PubSubSourceSpec_eq_dec : EqDecision PubSubSourceSpec.
Proof. solve_decision. Defined.
#[global] Instance PubSubSourceStatus_eq_dec : EqDecision PubSubSourceStatus.
Proof. solve_decision. Defined.
#[global] Instance PubSubSource_eq_dec : EqDecision PubSubSource.
Proof. solve_decision. Defined.

Definition withStatus (f : PubSubSourceStatus -> PubSubSourceStatus)
    (o : PubSubSource) : PubSubSource :=
  mkPubSubSource (ObjectMeta o) (Spec o) (f (Status o)).
Definition withMeta (f : metav1.ObjectMeta -> metav1.ObjectMeta)
    (o : PubSubSource) : PubSubSource :=
  mkPubSubSource (f (ObjectMeta o)) (Spec o) (Status o).

Definition setConditions (cs : list Condition) (s : PubSubSourceStatus) :=
  mkPubSubSourceStatus cs (SinkURI s) (ProjectID s) (ObservedGeneration s).
Definition setSinkURI (u : string) (s : PubSubSourceStatus) :=
  mkPubSubSourceStatus (Conditions s) u (ProjectID s) (ObservedGeneration s).
Definition setProjectID (p : string) (s : PubSubSourceStatus) :=
  mkPubSubSourceStatus (Conditions s) (SinkURI s) p (ObservedGeneration s).
Definition setObservedGeneration (g : Z) (s : PubSubSourceStatus) :=
  mkPubSubSourceStatus (Conditions s) (SinkURI s) (ProjectID s) g.

(** Modelled from the spec: the [Mark...] methods of [PubSubSourceStatus]
    are not under src.  Each is [mark(type, status, reason, message)] of
    spec 4.1 on the condition type it names; [MarkSink] also stores the
    resolved URI (spec 3: "a sink URI resolved from the sink reference"). *)
Definition pubSubSourceConditionSet : list ConditionType :=
  [SinkProvided; Subscribed; Deployed].
Definition InitializeConditions (s : PubSubSourceStatus) : PubSubSourceStatus :=
  setConditions (initConditions pubSubSourceConditionSet (Conditions s)) s.
Definition mark (t : ConditionType) (st : ConditionStatus) (reason message : string)
    (s : PubSubSourceStatus) : PubSubSourceStatus :=
  setConditions (setCondition (mkCondition t st reason message) (Conditions s)) s.
Definition MarkNoSink (reason message : string) :=
  mark SinkProvided ConditionFalse reason message.
Definition MarkSink (uri : string) (s : PubSubSourceStatus) : PubSubSourceStatus :=
  mark SinkProvided ConditionTrue "" "" (setSinkURI uri s).
Definition MarkSubscribed := mark Subscribed ConditionTrue "" "".
Definition MarkDeployed := mark Deployed ConditionTrue "" "".
Definition IsReady (s : PubSubSourceStatus) : bool :=
  allTrue pubSubSourceConditionSet (Conditions s).

(** ** The collaborators *)

(** The part of an [appsv1.Deployment] the reconciler reads: its labels and
    the UID of its controlling owner ([metav1.IsControlledBy]). *)
Record Deployment := mkDeployment {
  dpName : string;
  dpLabels : gmap string string;
  dpController : option string;
  dpImage : string;
  dpSubscriptionID : string;
  dpSinkURI : string;
  dpTransformerURI : string
}.

#[global] Instance Deployment_eq_dec : EqDecision Deployment.
Proof. solve_decision. Defined.

Record ReceiveAdapterArgs := mkReceiveAdapterArgs {
  Image : string;
  Source : PubSubSource;
  Labels : gmap string string;
  SubscriptionID : string;
  ArgSinkURI : string;
  TransformerURI : string
}.

Definition EventTypeNormal : string := "Normal".
Definition EventTypeWarning : string := "Warning".

(** Every call that leaves the process. *)
Inductive Call :=
| MetadataProjectID
| GetSinkURI (sink namespace : string)
| PubSubClientCreator (project : string)
| SubscriptionExists (project id : string)
| CreateSubscription (project id topic : string)
| SubscriptionDelete (project id : string)
| DeploymentsList (namespace : string) (selector : gmap string string)
| DeploymentsCreate (namespace : string) (dp : Deployment)
| Patch (namespace name : string) (finalizers : list string) (resourceVersion : string)
| UpdateStatus (o : PubSubSource)
| RecorderEvent (eventtype reason : string)
| ReportReady (namespace name : string).

#[global] Instance Call_eq_dec : EqDecision Call.
Proof. solve_decision. Defined.

(** The calls that create an external resource and the two calls that write
    to the API server. *)
Definition isCreate (c : Call) : bool :=
  match c with
  | CreateSubscription _ _ _ | DeploymentsCreate _ _ => true
  | _ => false
  end.

Definition isPatch (c : Call) : bool :=
  match c with Patch _ _ _ _ => true | _ => false end.

Definition isUpdateStatus (c : Call) : bool :=
  match c with UpdateStatus _ => true | _ => false end.

(** The world a pass runs against.  [fault] is the failure, if any, that a
    call meets before it has any effect; the other fields are the state of
    the collaborators.  The API server takes a write unless [fault] refuses
    it (a conflict on the resource version is such a refusal). *)
Record World := mkWorld {
  fault : Call -> option error;
  lister : string -> string -> error + PubSubSource;  (* the informer cache:
                                          a read inside the process, not logged *)
  sinks : gmap (string * string) string;            (* (namespace, sink) to URI *)
  metadataProject : string;                         (* the metadata server's answer *)
  subscriptions : gset (string * string);           (* (project, subscription) *)
  deployments : gmap string (list Deployment);      (* per namespace *)
  persisted : gmap (string * string) PubSubSource   (* the API server *)
}.

Definition setSubscriptions (x : gset (string * string)) (w : World) : World :=
  mkWorld (fault w) (lister w) (sinks w) (metadataProject w) x
    (deployments w) (persisted w).
Definition setDeployments (x : gmap string (list Deployment)) (w : World) : World :=
  mkWorld (fault w) (lister w) (sinks w) (metadataProject w) (subscriptions w)
    x (persisted w).
Definition setPersisted (x : gmap (string * string) PubSubSource) (w : World) : World :=
  mkWorld (fault w) (lister w) (sinks w) (metadataProject w) (subscriptions w)
    (deployments w) x.

Definition namespaceDeployments (w : World) (namespace : string) : list Deployment :=
  default [] (deployments w !! namespace).

Abbreviation Pass := (M World PubSubSource Call).
Abbreviation State := (St World PubSubSource Call).

Open Scope pass_scope.

(** [call c k]: log [c]; if the world makes it fail, return the failure,
    else run [k] on the world. *)
Definition call {A} (c : Call) (k : World -> Pass A) : Pass (error + A) :=
  emit c ;;
  w <- getWorld ;;
  match fault w c with
  | Some e => ret (inl e)
  | None => a <- k w ;; ret (inr a)
  end.

Definition errOf {A} (r : error + A) : option error :=
  match r with inl e => Some e | inr _ => None end.

Definition notFound (what : string) : error :=
  APIStatus StatusReasonNotFound (what +:+ " not found").

Definition metadata_ProjectID : Pass (error + string) :=
  call MetadataProjectID (fun w => ret (metadataProject w)).

Definition duck_GetSinkURI (sink namespace : string) : Pass (error + string) :=
  r <- call (GetSinkURI sink namespace)
         (fun w => ret (sinks w !! (namespace, sink))) ;;
  ret (match r with
       | inl e => inl e
       | inr (Some u) => inr u
       | inr None => inl (notFound sink)
       end).

Definition pubSubClientCreator (project : string) : Pass (option error) :=
  r <- call (PubSubClientCreator project) (fun _ => ret tt) ;; ret (errOf r).

Definition sub_Exists (project id : string) : Pass (error + bool) :=
  call (SubscriptionExists project id)
    (fun w => ret (bool_decide ((project, id) ∈ subscriptions w))).

(** [psc.CreateSubscription(ctx, id, topic)]: the subscription created, by
    its identifier. *)
Definition psc_CreateSubscription (project id topic : string) : Pass (error + string) :=
  r <- call (CreateSubscription project id topic) (fun w =>
         if decide ((project, id) ∈ subscriptions w)
         then ret (inl (StatusError codes.AlreadyExists "subscription already exists"))
         else modifyWorld (setSubscriptions (subscriptions w ∪ {[ (project, id) ]})) ;;
              ret (inr id)) ;;
  ret (match r with inl e => inl e | inr r' => r' end).

Definition sub_Delete (project id : string) : Pass (option error) :=
  r <- call (SubscriptionDelete project id) (fun w =>
         if decide ((project, id) ∈ subscriptions w)
         then modifyWorld (setSubscriptions (subscriptions w ∖ {[ (project, id) ]})) ;;
              ret None
         else ret (Some (StatusError codes.NotFound "subscription not found"))) ;;
  ret (match r with inl e => Some e | inr e => e end).

Definition deployments_List (namespace : string) (selector : gmap string string)
    : Pass (error + list Deployment) :=
  call (DeploymentsList namespace selector) (fun w =>
    ret (filter (fun dep => selector ⊆ dpLabels dep) (namespaceDeployments w namespace))).

Definition deployments_Create (namespace : string) (dp : Deployment)
    : Pass (error + Deployment) :=
  call (DeploymentsCreate namespace dp) (fun w =>
    modifyWorld (setDeployments
      (<[namespace := namespaceDeployments w namespace ++ [dp]]> (deployments w))) ;;
    ret dp).

(** The merge patch replaces the finalizers of the stored record. *)
Definition sources_Patch (existing : PubSubSource) (finalizers : list string)
    : Pass (error + PubSubSource) :=
  call (Patch (Namespace (ObjectMeta existing)) (Name (ObjectMeta existing))
          finalizers (ResourceVersion (ObjectMeta existing))) (fun w =>
    let key := (Namespace (ObjectMeta existing), Name (ObjectMeta existing)) in
    let update := withMeta (withFinalizers finalizers)
                    (default existing (persisted w !! key)) in
    modifyWorld (setPersisted (<[key := update]> (persisted w))) ;;
    ret update).

(** [UpdateStatus] writes the status subresource: of the stored record only
    the status changes. *)
Definition sources_UpdateStatus (o : PubSubSource) : Pass (error + PubSubSource) :=
  call (UpdateStatus o) (fun w =>
    let key := (Namespace (ObjectMeta o), Name (ObjectMeta o)) in
    let src := match persisted w !! key with
               | Some cur => withStatus (fun _ => Status o) cur
               | None => o
               end in
    modifyWorld (setPersisted (<[key := src]> (persisted w))) ;;
    ret src).

Definition recorder_Event (eventtype reason : string) : Pass unit :=
  emit (RecorderEvent eventtype reason).

Definition statsReporter_ReportReady (namespace name : string) : Pass (option error) :=
  r <- call (ReportReady namespace name) (fun _ => ret tt) ;; ret (errOf r).

(** ** The reconciler *)
Section Reconciler.

(** [controllerAgentName] is declared in the package's [controller.go];
    [GenerateSubName], [GetLabels], [GetLabelSelector] and
    [MakeReceiveAdapter] in the package [resources].  None is under src, all
    are parameters here, as is the reconciler's [receiveAdapterImage]. *)
Variable controllerAgentName : string.
Variable receiveAdapterImage : string.
Variable GenerateSubName : PubSubSource -> string.
Variable GetLabels : string -> string -> gmap string string.
Variable GetLabelSelector : string -> string -> gmap string string.
Variable MakeReceiveAdapter : ReceiveAdapterArgs -> Deployment.

Definition finalizerName : string := controllerAgentName.

Definition addFinalizer (s : PubSubSource) : PubSubSource :=
  let finalizers := sets.NewString (Finalizers (ObjectMeta s)) in
  let finalizers := sets.Insert finalizers finalizerName in
  withMeta (withFinalizers (sets.List finalizers)) s.

Definition removeFinalizer (s : PubSubSource) : PubSubSource :=
  let finalizers := sets.NewString (Finalizers (ObjectMeta s)) in
  let finalizers := sets.Delete finalizers finalizerName in
  withMeta (withFinalizers (sets.List finalizers)) s.

Definition resolveProjectID : Pass (option error) :=
  source <- getObj ;;
  (* Always use the given project, if present. *)
  if decide (Project (Spec source) <> "") then
    modifyObj (withStatus (setProjectID (Project (Spec source)))) ;;
    ret None
  else
    (* Try from metadata server. *)
    r <- metadata_ProjectID ;;
    match r with
    | inr projectID =>
        modifyObj (withStatus (setProjectID projectID)) ;;
        ret None
    | inl _ =>
        (* Unknown Project ID *)
        ret (Some (errorString "project is required but not set"))
    end.

(** The subscription is returned by its identifier ([sub.ID()]). *)
Definition createSubscription : Pass (error + string) :=
  src <- getObj ;;
  if decide (ProjectID (Status src) = "") then
    ret (inl (errorString "project is required but not set"))
  else if decide (Topic (Spec src) = "") then
    ret (inl (errorString "topic is required but not set"))
  else
    err <- pubSubClientCreator (ProjectID (Status src)) ;;
    match err with
    | Some err => ret (inl err)
    | None =>
        let sub := GenerateSubName src in
        r <- sub_Exists (ProjectID (Status src)) sub ;;
        match r with
        | inl err => ret (inl err)
        | inr true => ret (inr sub)       (* Reusing existing subscription. *)
        | inr false =>
            psc_CreateSubscription (ProjectID (Status src)) sub (Topic (Spec src))
        end
    end.

Definition deleteSubscription : Pass (option error) :=
  src <- getObj ;;
  if decide (ProjectID (Status src) = "") then
    ret (Some (errorString "project is required but not set"))
  else
    err <- pubSubClientCreator (ProjectID (Status src)) ;;
    match err with
    | Some err => ret (Some err)
    | None =>
        let sub := GenerateSubName src in
        r <- sub_Exists (ProjectID (Status src)) sub ;;
        match r with
        | inl err => ret (Some err)
        | inr false => ret None
        | inr true => sub_Delete (ProjectID (Status src)) sub
        end
    end.

Definition IsControlledBy (dep : Deployment) (src : PubSubSource) : bool :=
  bool_decide (dpController dep = Some (UID (ObjectMeta src))).

Definition getReceiveAdapter : Pass (error + Deployment) :=
  src <- getObj ;;
  r <- deployments_List (Namespace (ObjectMeta src))
         (GetLabelSelector controllerAgentName (Name (ObjectMeta src))) ;;
  match r with
  | inl err => ret (inl err)
  | inr items =>
      match List.find (fun dep => IsControlledBy dep src) items with
      | Some dep => ret (inr dep)
      | None => ret (inl (notFound ""))
      end
  end.

Definition createReceiveAdapter (subscriptionID sinkURI transformerURI : string)
    : Pass (error + Deployment) :=
  src <- getObj ;;
  r <- getReceiveAdapter ;;
  match r with
  | inr ra => ret (inr ra)         (* Reusing existing receive adapter *)
  | inl err =>
      if negb (IsNotFound (Some err)) then ret (inl err)
      else
        let dp := MakeReceiveAdapter
          {| Image := receiveAdapterImage;
             Source := src;
             Labels := GetLabels controllerAgentName (Name (ObjectMeta src));
             SubscriptionID := subscriptionID;
             ArgSinkURI := sinkURI;
             TransformerURI := transformerURI |} in
        deployments_Create (Namespace (ObjectMeta src)) dp
  end.

Definition reconcile : Pass (option error) :=
  modifyObj (withStatus InitializeConditions) ;;
  err <- resolveProjectID ;;
  match err with
  | Some err => ret (Some err)
  | None =>
      source <- getObj ;;
      if decide (DeletionTimestamp (ObjectMeta source) <> None) then
        err <- deleteSubscription ;;
        match err with
        | Some err => ret (Some err)
        | None => modifyObj removeFinalizer ;; ret None
        end
      else
        r <- duck_GetSinkURI (Sink (Spec source)) (Namespace (ObjectMeta source)) ;;
        match r with
        | inl err =>
            modifyObj (withStatus (MarkNoSink "NotFound" "")) ;;
            ret (Some err)
        | inr sinkURI =>
            modifyObj (withStatus (MarkSink sinkURI)) ;;
            r <- match Transformer (Spec source) with
                 | None => ret (inr "")
                 | Some transformer =>
                     r <- duck_GetSinkURI transformer (Namespace (ObjectMeta source)) ;;
                     match r with
                     | inl err =>
                         modifyObj (withStatus (MarkNoSink "NotFound" "")) ;;
                         ret (inl err)
                     | inr transformerURI =>
                         modifyObj (withStatus (MarkSink sinkURI)) ;;
                         ret (inr transformerURI)
                     end
                 end ;;
            match r with
            | inl err => ret (Some err)
            | inr transformerURI =>
                r <- createSubscription ;;
                match r with
                | inl err => ret (Some err)
                | inr sub =>
                    modifyObj addFinalizer ;;
                    modifyObj (withStatus MarkSubscribed) ;;
                    r <- createReceiveAdapter sub sinkURI transformerURI ;;
                    match r with
                    | inl err => ret (Some err)
                    | inr _ =>
                        modifyObj (withStatus MarkDeployed) ;;
                        modifyObj (fun source => withStatus
                          (setObservedGeneration (Generation (ObjectMeta source))) source) ;;
                        ret None
                    end
                end
            end
        end
  end.

Definition updateStatus (desired : PubSubSource) : Pass (error + PubSubSource) :=
  w <- getWorld ;;
  match lister w (Namespace (ObjectMeta desired)) (Name (ObjectMeta desired)) with
  | inl err => ret (inl err)
  | inr source =>
      (* If there's nothing to update, just return. *)
      if decide (Status source = Status desired) then ret (inr source)
      else
        let becomesReady := IsReady (Status desired) && negb (IsReady (Status source)) in
        (* Don't modify the informers copy. *)
        let existing := source in
        let existing := withStatus (fun _ => Status desired) existing in
        r <- sources_UpdateStatus existing ;;
        (if isNil (errOf r) && becomesReady then
           _ <- statsReporter_ReportReady (Namespace (ObjectMeta source))
                  (Name (ObjectMeta source)) ;;
           ret tt
         else ret tt) ;;
        ret r
  end.

(** The record returned (if any), whether a patch was sent, the error.
    [json.Marshal] of the merge patch (a map of strings and a list of
    strings) does not fail. *)
Definition updateFinalizers (desired : PubSubSource)
    : Pass (option PubSubSource * bool * option error) :=
  w <- getWorld ;;
  match lister w (Namespace (ObjectMeta desired)) (Name (ObjectMeta desired)) with
  | inl err => ret (None, false, Some err)
  | inr source =>
      (* Don't modify the informers copy. *)
      let existing := source in
      let exisitingFinalizers := sets.NewString (Finalizers (ObjectMeta existing)) in
      let desiredFinalizers := sets.NewString (Finalizers (ObjectMeta desired)) in
      let patch (finalizers : list string) :=
        r <- sources_Patch existing finalizers ;;
        ret (match r with
             | inl err => (None, true, Some err)
             | inr update => (Some update, true, None)
             end) in
      if sets.Has desiredFinalizers finalizerName then
        if sets.Has exisitingFinalizers finalizerName then
          ret (Some desired, false, None)                   (* Nothing to do. *)
        else
          (* Add the finalizer. *)
          patch (Finalizers (ObjectMeta existing) ++ [finalizerName])
      else
        if negb (sets.Has exisitingFinalizers finalizerName) then
          ret (Some desired, false, None)                   (* Nothing to do. *)
        else
          (* Remove the finalizer. *)
          let exisitingFinalizers := sets.Delete exisitingFinalizers finalizerName in
          patch (sets.List exisitingFinalizers)
  end.

(** [Reconcile] once the record is loaded and copied: [original] is the
    informer's copy, the state's record is [source]. *)
Definition reconcileLoaded (original : PubSubSource) : Pass (option error) :=
  (* Reconcile this copy of the source and then write back any status
     updates regardless of whether the reconciliation errored out. *)
  reconcileErr <- reconcile ;;
  source <- getObj ;;
  fErr <- (if decide (Finalizers (ObjectMeta original) = Finalizers (ObjectMeta source))
           then ret None    (* If we didn't change finalizers then don't call updateFinalizers. *)
           else
             r <- updateFinalizers source ;;
             match r with
             | (_, _, Some fErr) =>
                 recorder_Event EventTypeWarning "UpdateFailed" ;;
                 ret (Some fErr)
             | (_, updated, None) =>
                 (if updated then recorder_Event EventTypeNormal "Updated" else ret tt) ;;
                 ret None
             end) ;;
  match fErr with
  | Some fErr => ret (Some fErr)
  | None =>
      uErr <- (if decide (Status original = Status source)
               then ret None    (* If we didn't change anything then don't call updateStatus. *)
               else
                 r <- updateStatus source ;;
                 match r with
                 | inl uErr =>
                     recorder_Event EventTypeWarning "UpdateFailed" ;;
                     ret (Some uErr)
                 | inr _ =>
                     (if isNil reconcileErr
                      then recorder_Event EventTypeNormal "Updated" else ret tt) ;;
                     ret None
                 end) ;;
      match uErr with
      | Some uErr => ret (Some uErr)
      | None =>
          (if isNil reconcileErr then ret tt
           else recorder_Event EventTypeWarning "InternalError") ;;
          ret reconcileErr
      end
  end.

(** The outcome of a whole [Reconcile]: the error returned, the world left
    behind and the calls made. *)
Definition Reconcile (key : string) (w : World)
    : option error * World * list (Call * PubSubSource) :=
  (* Convert the namespace/name string into a distinct namespace and name *)
  match SplitMetaNamespaceKey key with
  | inl _ => (None, w, [])
  | inr (namespace, name) =>
      (* Get the Service resource with this namespace/name *)
      match lister w namespace name with
      | inl err =>
          if IsNotFound (Some err) then
            (* The resource may no longer exist, in which case we stop processing. *)
            (None, w, [])
          else (Some err, w, [])
      | inr original =>
          (* Don't modify the informers copy *)
          let source := original in
          let '(err, s) := reconcileLoaded original (mkSt w source []) in
          (err, world s, trace s)
      end
  end.

End Reconciler.

End PubSubSource.

(** * The storage job: package [operations] (the Go file of
    [test/e2e-wi-tests.sh])

    [NewJobOps] builds the batch job that creates or deletes a notification;
    [toStorageEventTypes] translates the event types of a source into those
    of the storage API. *)
Module operations.

(** Mapping of the storage importer eventTypes to google storage types. *)
Definition storageEventTypes : gmap string string :=
  {[ "finalize" := "OBJECT_FINALIZE";
     "archive" := "OBJECT_ARCHIVE";
     "delete" := "OBJECT_DELETE";
     "metadataUpdate" := "OBJECT_METADATA_UPDATE" ]}.

(** [storageEventTypes[eventType]]: a key that is not in a Go map reads as
    the zero value. *)
Definition toStorageEventTypes (eventTypes : list string) : list string :=
  let storageTypes :=
    foldl (fun storageTypes eventType =>
             storageTypes ++ [default "" (storageEventTypes !! eventType)])
          [] eventTypes in
  if decide (length storageTypes = 0) then storageTypes ++ ["OBJECT_FINALIZE"]
  else storageTypes.

(** [corev1.EnvVar]. *)
Record EnvVar := mkEnvVar { Name : string; Value : string }.

#[global] Instance EnvVar_eq_dec : EqDecision EnvVar.
Proof. solve_decision. Defined.

(** [corev1.SecretKeySelector]: the secret and the key in it. *)
Record SecretKeySelector := mkSecretKeySelector {
  SecretName : string;
  SecretKey : string
}.

(** [kmeta.OwnerRefable]: what [GetObjectMeta] and [GetGroupVersionKind]
    return. *)
Record OwnerRefable := mkOwnerRefable {
  GetObjectMeta : metav1.ObjectMeta;
  GetGroupVersionKind : string
}.

(** JobArgs are the configuration required to make a NewJobOps. *)
Record JobArgs := mkJobArgs {
  UID : string;
  Image : string;
  Action : string;
  ProjectID : string;
  Bucket : string;
  TopicID : string;
  JobId : string;
  EventTypes : list string;
  ObjectNamePrefix : string;
  CustomAttributes : gmap string string;
  Secret : SecretKeySelector;
  Owner : OwnerRefable
}.

(** [batchv1.Job], as far as [NewJobOps] fills it. *)
Record Job {PodTemplateSpec OwnerReference : Type} := mkJob {
  JobName : string;
  JobNamespace : string;
  JobLabels : gmap string string;
  OwnerReferences : list OwnerReference;
  BackoffLimit : Z;
  Parallelism : Z;
  Template : PodTemplateSpec
}.
Arguments Job : clear implicits.

(** The [envconfig] tags of the fields of [JobOps], in the order of the
    struct: the variable each field is read from, and whether the tag says
    [required:"true"]. *)
Definition jobOpsEnvconfig : list (string * bool) :=
  [("ACTION", true); ("PUBSUB_TOPIC_ID", true); ("BUCKET", true);
   ("NOTIFICATION_ID", false); ("EVENT_TYPES", false); ("OBJECT_NAME_PREFIX", false)].

Section Operations.

(** The actions are constants of the package
    [github.com/google/knative-gcp/pkg/operations], and [MakePodTemplate] a
    function of it; [SchedulerJobName] and [SchedulerJobLabels] are declared
    in another file of this package; [kmeta.NewControllerRef] is knative's.
    None is under src, all are parameters here. *)
Variable ActionCreate ActionDelete : string.
Variable PodTemplateSpec OwnerReference : Type.
Variable MakePodTemplate :
  string -> string -> string -> SecretKeySelector -> list EnvVar -> PodTemplateSpec.
Variable SchedulerJobName : OwnerRefable -> string -> string.
Variable SchedulerJobLabels : OwnerRefable -> string -> gmap string string.
Variable NewControllerRef : OwnerRefable -> OwnerReference.

(** The environment [NewJobOps] hands to [MakePodTemplate]. *)
Definition newJobEnv (arg : JobArgs) : list EnvVar :=
  let env := [ mkEnvVar "ACTION" (Action arg);
               mkEnvVar "PROJECT_ID" (ProjectID arg);
               mkEnvVar "BUCKET" (Bucket arg) ] in
  if decide (Action arg = ActionCreate) then
    env ++ [ mkEnvVar "EVENT_TYPES" (String.concat ":" (EventTypes arg));
             mkEnvVar "PUBSUB_TOPIC_ID" (TopicID arg) ]
  else if decide (Action arg = ActionDelete) then
    env ++ [ mkEnvVar "NOTIFICATION_ID" (JobId arg) ]
  else env.

(** NewJobOps returns a new batch Job resource. *)
Definition NewJobOps (arg : JobArgs) : Job PodTemplateSpec OwnerReference :=
  let env := newJobEnv arg in
  let podTemplate := MakePodTemplate (Image arg) (UID arg) (Action arg) (Secret arg) env in
  let backoffLimit := 3%Z in
  let parallelism := 1%Z in
  {| JobName := SchedulerJobName (Owner arg) (Action arg);
     JobNamespace := metav1.Namespace (GetObjectMeta (Owner arg));
     JobLabels := SchedulerJobLabels (Owner arg) (Action arg);
     OwnerReferences := [NewControllerRef (Owner arg)];
     BackoffLimit := backoffLimit;
     Parallelism := parallelism;
     Template := podTemplate |}.

End Operations.

End operations.

(** * Example records and worlds *)
Module Examples.

Import metav1.

Definition controllerAgentName : string := "source-controller".

Definition notFoundError : error := APIStatus StatusReasonNotFound "not found".

(** ** GCS *)

Definition gcsMeta : ObjectMeta :=
  {| Name := "src"; Namespace := "ns"; UID := "uid-1"; ResourceVersion := "7";
     Generation := 1%Z; CreationTimestamp := 100%Z; DeletionTimestamp := None;
     Finalizers := [] |}.

Definition gcsSpec : GCS.GCSSpec :=
  {| GCS.GoogleCloudProject := "proj"; GCS.Bucket := "b"; GCS.EventTypes := ["finalize"];
     GCS.ObjectNamePrefix := ""; 
     GCS.CustomAttributes := {[ "team" := "storage"; "ce-type" := "user.type" ]};
     GCS.Sink := "sink" |}.

(** A record just created: no topic, no notification, no finalizer. *)
Definition gcsNew : GCS.GCS :=
  {| GCS.ObjectMeta := gcsMeta; GCS.Spec := gcsSpec;
     GCS.Status := {| GCS.Conditions := []; GCS.SinkURI := ""; GCS.Topic := "";
                      GCS.NotificationID := "" |} |}.

(** A record being deleted, with the notification ["42"] and the topic
    ["t"] in its status and the controller's finalizer. *)
Definition gcsDeleting : GCS.GCS :=
  {| GCS.ObjectMeta :=
       {| Name := "src"; Namespace := "ns"; UID := "uid-1"; ResourceVersion := "9";
          Generation := 1%Z; CreationTimestamp := 100%Z; DeletionTimestamp := Some 200%Z;
          Finalizers := [controllerAgentName] |};
     GCS.Spec := gcsSpec;
     GCS.Status := {| GCS.Conditions := []; GCS.SinkURI := "http://sink"; GCS.Topic := "t";
                      GCS.NotificationID := "42" |} |}.

(** A record being deleted that owns nothing any more: only the finalizer
    is left to remove. *)
Definition gcsDeletingBare : GCS.GCS :=
  {| GCS.ObjectMeta := GCS.ObjectMeta gcsDeleting; GCS.Spec := gcsSpec;
     GCS.Status := {| GCS.Conditions := []; GCS.SinkURI := ""; GCS.Topic := "";
                      GCS.NotificationID := "" |} |}.

Definition MakePullSubscription (csr : GCS.GCS) (mode : string) : GCS.PullSubscription :=
  {| GCS.psNamespace := Namespace (GCS.ObjectMeta csr);
     GCS.psName := Name (GCS.ObjectMeta csr);
     GCS.psTopic := GCS.Topic (GCS.Status csr);
     GCS.psSink := GCS.Sink (GCS.Spec csr);
     GCS.psReady := false; GCS.psSinkURI := "" |}.

(** A provider with nothing in it, an informer that serves [record] under
    ns/src, and the failures [faults]. *)
Definition gcsWorld (record : GCS.GCS) (faults : GCS.Call -> option error)
    (sinks : gmap (string * string) string) : GCS.World :=
  {| GCS.fault := faults;
     GCS.lister := fun namespace name =>
       if decide ((namespace, name) = ("ns", "src")) then inr record
       else inl notFoundError;
     GCS.sinks := sinks;
     GCS.uuids := fun n => "uuid-" +:+ pretty n;
     GCS.uuidsDrawn := 0;
     GCS.topics := ∅;
     GCS.notifications := ∅;
     GCS.newNotificationID := fun existing => pretty (size existing);
     GCS.pullSubscriptions := ∅;
     GCS.persisted := {[ ("ns", "src") := record ]} |}.

Definition noFault {C} : C -> option error := fun _ => None.

Definition theSink : gmap (string * string) string := {[ ("ns", "sink") := "http://sink" ]}.

Definition gcsStart (record : GCS.GCS) (faults : GCS.Call -> option error)
    (sinks : gmap (string * string) string) : GCS.State :=
  mkSt (gcsWorld record faults sinks) record [].

(** The provider answers NotFound to the delete of the notification. *)
Definition notificationGone (c : GCS.Call) : option error :=
  match c with
  | GCS.DeleteNotification _ _ => Some (StatusError codes.NotFound "notification gone")
  | _ => None
  end.

(** The storage client answers the delete of the notification with a
    not-found error that is not a gRPC status. *)
Definition notificationGoneWithoutStatus (c : GCS.Call) : option error :=
  match c with
  | GCS.DeleteNotification _ _ =>
      Some (errorString "googleapi: Error 404: Not Found, notFound")
  | _ => None
  end.

(** ** PubSubSource *)

Definition pssRecord (topic : string) : PubSubSource.PubSubSource :=
  {| PubSubSource.ObjectMeta := gcsMeta;
     PubSubSource.Spec :=
       {| PubSubSource.Project := "proj"; PubSubSource.Topic := topic;
          PubSubSource.Sink := "sink"; PubSubSource.Transformer := None |};
     PubSubSource.Status :=
       {| PubSubSource.Conditions := []; PubSubSource.SinkURI := "";
          PubSubSource.ProjectID := ""; PubSubSource.ObservedGeneration := 0%Z |} |}.

(** A record being deleted, whose project is known. *)
Definition pssDeleting : PubSubSource.PubSubSource :=
  {| PubSubSource.ObjectMeta := GCS.ObjectMeta gcsDeleting;
     PubSubSource.Spec := PubSubSource.Spec (pssRecord "topic");
     PubSubSource.Status :=
       {| PubSubSource.Conditions := []; PubSubSource.SinkURI := "";
          PubSubSource.ProjectID := "proj"; PubSubSource.ObservedGeneration := 0%Z |} |}.

Definition receiveAdapterImage : string := "adapter:latest".
Definition GenerateSubName (src : PubSubSource.PubSubSource) : string :=
  "sub-" +:+ UID (PubSubSource.ObjectMeta src).
Definition GetLabels (controller source : string) : gmap string string :=
  {[ "controller" := controller; "source" := source ]}.
Definition GetLabelSelector := GetLabels.
Definition MakeReceiveAdapter (args : PubSubSource.ReceiveAdapterArgs)
    : PubSubSource.Deployment :=
  {| PubSubSource.dpName := "adapter";
     PubSubSource.dpLabels := PubSubSource.Labels args;
     PubSubSource.dpController :=
       Some (UID (PubSubSource.ObjectMeta (PubSubSource.Source args)));
     PubSubSource.dpImage := PubSubSource.Image args;
     PubSubSource.dpSubscriptionID := PubSubSource.SubscriptionID args;
     PubSubSource.dpSinkURI := PubSubSource.ArgSinkURI args;
     PubSubSource.dpTransformerURI := PubSubSource.TransformerURI args |}.

Definition pssWorld (record : PubSubSource.PubSubSource)
    (faults : PubSubSource.Call -> option error)
    (subs : gset (string * string)) : PubSubSource.World :=
  {| PubSubSource.fault := faults;
     PubSubSource.lister := fun namespace name =>
       if decide ((namespace, name) = ("ns", "src")) then inr record
       else inl notFoundError;
     PubSubSource.sinks := theSink;
     PubSubSource.metadataProject := "metadata-proj";
     PubSubSource.subscriptions := subs;
     PubSubSource.deployments := ∅;
     PubSubSource.persisted := {[ ("ns", "src") := record ]} |}.

Definition pssStart (record : PubSubSource.PubSubSource)
    (faults : PubSubSource.Call -> option error)
    (subs : gset (string * string)) : PubSubSource.State :=
  mkSt (pssWorld record faults subs) record [].

(** The API server refuses the patch of the finalizers. *)
Definition patchRefused (c : PubSubSource.Call) : option error :=
  match c with
  | PubSubSource.Patch _ _ _ _ => Some (APIStatus StatusReasonConflict "conflict")
  | _ => None
  end.

(** The provider answers NotFound to the delete of the subscription. *)
Definition subscriptionGone (c : PubSubSource.Call) : option error :=
  match c with
  | PubSubSource.SubscriptionDelete _ _ =>
      Some (StatusError codes.NotFound "subscription gone")
  | _ => None
  end.




(** The sink of the record is not there. *)
Definition sinkGone (c : PubSubSource.Call) : option error :=
  match c with
  | PubSubSource.GetSinkURI _ _ => Some notFoundError
  | _ => None
  end.

(** The world once the informer has caught up with the stored records. *)
Definition informerCaughtUp (w : GCS.World) : GCS.World :=
  {| GCS.fault := GCS.fault w;
     GCS.lister := fun namespace name =>
       match GCS.persisted w !! (namespace, name) with
       | Some record => inr record
       | None => inl notFoundError
       end;
     GCS.sinks := GCS.sinks w;
     GCS.uuids := GCS.uuids w;
     GCS.uuidsDrawn := GCS.uuidsDrawn w;
     GCS.topics := GCS.topics w;
     GCS.notifications := GCS.notifications w;
     GCS.newNotificationID := GCS.newNotificationID w;
     GCS.pullSubscriptions := GCS.pullSubscriptions w;
     GCS.persisted := GCS.persisted w |}.

(** The reconcilers of the examples. *)
Abbreviation reconcileGCSSource :=
  (GCS.reconcileGCSSource controllerAgentName MakePullSubscription).
Abbreviation gcsReconcileLoaded :=
  (GCS.reconcileLoaded controllerAgentName MakePullSubscription).
Abbreviation gcsReconcile := (GCS.Reconcile controllerAgentName MakePullSubscription).
Abbreviation reconcile :=
  (PubSubSource.reconcile controllerAgentName receiveAdapterImage GenerateSubName
     GetLabels GetLabelSelector MakeReceiveAdapter).
Abbreviation pubsubReconcileLoaded :=
  (PubSubSource.reconcileLoaded controllerAgentName receiveAdapterImage GenerateSubName
     GetLabels GetLabelSelector MakeReceiveAdapter).
Abbreviation pubsubReconcile :=
  (PubSubSource.Reconcile controllerAgentName receiveAdapterImage GenerateSubName
     GetLabels GetLabelSelector MakeReceiveAdapter).

End Examples.

(** * The statements of the spec that the code does not meet

    Each is written here as the spec words it, to be compared with what the
    code does. *)

(** C1, spec 4.2 and 8: at every call that creates an external resource the
    record in memory has the controller's finalizer. *)
Definition finalizerHeldAtCreates {C R : Type} (isCreate : C -> bool)
    (finalizers : R -> list string) (name : string) (tr : list (C * R)) : Prop :=
  ∀ c record, (c, record) ∈ tr → isCreate c = true → name ∈ finalizers record.

(** C2, spec 4.3, "Delete algorithm": what the provider is asked, in order,
    and what is returned, given the identifier recorded and the answers of
    the provider. *)
Inductive ProviderStep := AskExists | AskDelete.

Definition spec_delete (identifier : string) (existsAnswer : error + bool)
    (deleteAnswer : option error) : list ProviderStep * option error :=
  if decide (identifier = "") then ([], None)          (* no-op success *)
  else
    match existsAnswer with
    | inl e => ([AskExists], Some e)
    | inr false => ([AskExists], None)                 (* no-op success *)
    | inr true =>
        ([AskExists; AskDelete],
         match deleteAnswer with
         | None => None
         | Some e =>
             if decide (gstatus_FromError e = Some codes.NotFound) then None
             else Some e
         end)
    end.

Definition gcsTopicSteps (cs : list GCS.Call) : list ProviderStep :=
  omap (fun c => match c with
                 | GCS.TopicExists _ _ => Some AskExists
                 | GCS.TopicDelete _ _ => Some AskDelete
                 | _ => None
                 end) cs.

Definition subscriptionSteps (cs : list PubSubSource.Call) : list ProviderStep :=
  omap (fun c => match c with
                 | PubSubSource.SubscriptionExists _ _ => Some AskExists
                 | PubSubSource.SubscriptionDelete _ _ => Some AskDelete
                 | _ => None
                 end) cs.

(** C4, spec 4.5 step 5: each of the two persistence steps is taken exactly
    when its part of the clone differs from the record last observed. *)
Definition persistsWhatChanged (original source : PubSubSource.PubSubSource)
    (persist : list PubSubSource.Call) : Prop :=
  (existsb PubSubSource.isPatch persist = true
   ↔ metav1.Finalizers (PubSubSource.ObjectMeta original)
     ≠ metav1.Finalizers (PubSubSource.ObjectMeta source))
  ∧ (existsb PubSubSource.isUpdateStatus persist = true
     ↔ PubSubSource.Status original ≠ PubSubSource.Status source).



(** * What the further properties are stated with *)

(** A warning sent to the event recorder. *)
Definition isWarning (c : PubSubSource.Call) : bool :=
  match c with
  | PubSubSource.RecorderEvent eventtype _ =>
      bool_decide (eventtype = PubSubSource.EventTypeWarning)
  | _ => false
  end.

(** The notification [reconcileNotification] asks the bucket to add. *)
Definition notificationOf (gcs : GCS.GCS) : GCS.Notification :=
  {| GCS.ID := "";
     GCS.TopicProjectID := GCS.GoogleCloudProject (GCS.Spec gcs);
     GCS.TopicID := GCS.Topic (GCS.Status gcs);
     GCS.PayloadFormat := GCS.JSONPayload;
     GCS.NEventTypes := GCS.EventTypes (GCS.Spec gcs);
     GCS.NObjectNamePrefix := GCS.ObjectNamePrefix (GCS.Spec gcs);
     GCS.NCustomAttributes :=
       <["ce-type" := "google.gcs"]> (GCS.CustomAttributes (GCS.Spec gcs)) |}.

Section ReceiveAdapters.
Variable controllerAgentName : string.
Variable receiveAdapterImage : string.
Variable GetLabels : string -> string -> gmap string string.
Variable GetLabelSelector : string -> string -> gmap string string.
Variable MakeReceiveAdapter : PubSubSource.ReceiveAdapterArgs -> PubSubSource.Deployment.
Import metav1 PubSubSource.

(** The deployments [getReceiveAdapter] chooses from: those of the
    namespace of the record that carry the labels of the selector. *)
Definition candidates (w : World) (src : PubSubSource) : list Deployment :=
  filter (fun dep => GetLabelSelector controllerAgentName (Name (ObjectMeta src))
                     ⊆ dpLabels dep)
         (namespaceDeployments w (Namespace (ObjectMeta src))).

(** The deployment [createReceiveAdapter] makes. *)
Definition receiveAdapterOf (src : PubSubSource)
    (subscriptionID sinkURI transformerURI : string) : Deployment :=
  MakeReceiveAdapter
    {| Image := receiveAdapterImage;
       Source := src;
       Labels := GetLabels controllerAgentName (Name (ObjectMeta src));
       SubscriptionID := subscriptionID;
       ArgSinkURI := sinkURI;
       TransformerURI := transformerURI |}.

End ReceiveAdapters.

(** * Properties *)

(** ** [sets.String] *)

Lemma sets_List_Permutation (s : gset string) : sets.List s ≡ₚ elements s.
Proof. apply merge_sort_Permutation. Qed.

Lemma elem_of_sets_List (x : string) (s : gset string) : x ∈ sets.List s ↔ x ∈ s.
Proof. by rewrite sets_List_Permutation, elem_of_elements. Qed.

Lemma NoDup_sets_List (s : gset string) : NoDup (sets.List s).
Proof. rewrite sets_List_Permutation. apply NoDup_elements. Qed.

Lemma sets_NewString_List (s : gset string) : sets.NewString (sets.List s) = s.
Proof.
  apply set_eq. intros x. unfold sets.NewString.
  by rewrite elem_of_list_to_set, elem_of_sets_List.
Qed.

Lemma elem_of_sets_NewString (x : string) (l : list string) :
  x ∈ sets.NewString l ↔ x ∈ l.
Proof. apply elem_of_list_to_set. Qed.

(** Inserting into, or deleting from, the set of a list that [List]
    returned for a set which already has, or lacks, the item gives the same
    list back. *)
Lemma sets_List_Insert_again (s : gset string) (x : string) :
  sets.List (sets.Insert (sets.NewString (sets.List (sets.Insert s x))) x)
  = sets.List (sets.Insert s x).
Proof.
  rewrite sets_NewString_List. f_equal. unfold sets.Insert. set_solver.
Qed.

Lemma sets_List_Delete_again (s : gset string) (x : string) :
  sets.List (sets.Delete (sets.NewString (sets.List (sets.Delete s x))) x)
  = sets.List (sets.Delete s x).
Proof.
  rewrite sets_NewString_List. f_equal. unfold sets.Delete. set_solver.
Qed.

(** C10.  [addFinalizer] and [removeFinalizer], of the GCS reconciler and of
    the PubSubSource reconciler alike, are idempotent set operations on the
    finalizer list of the record: applied twice they give the record they
    give applied once; the list they leave has no duplicates; the
    controller's name is in the list after [addFinalizer] and not in it
    after [removeFinalizer]; every other name is in the list afterwards
    exactly when it was before; nothing else of the record changes. *)
Theorem finalizer_operations_idempotent_sets
    (name : string) (csr : GCS.GCS) (src : PubSubSource.PubSubSource) :
  let fin_gcs := (fun o => metav1.Finalizers (GCS.ObjectMeta o)) in
  let fin_pss := (fun o => metav1.Finalizers (PubSubSource.ObjectMeta o)) in
  (* applying twice is applying once *)
  (GCS.addFinalizer name (GCS.addFinalizer name csr) = GCS.addFinalizer name csr
   ∧ GCS.removeFinalizer name (GCS.removeFinalizer name csr) = GCS.removeFinalizer name csr
   ∧ PubSubSource.addFinalizer name (PubSubSource.addFinalizer name src)
     = PubSubSource.addFinalizer name src
   ∧ PubSubSource.removeFinalizer name (PubSubSource.removeFinalizer name src)
     = PubSubSource.removeFinalizer name src)
  (* no duplicates *)
  ∧ (NoDup (fin_gcs (GCS.addFinalizer name csr))
     ∧ NoDup (fin_gcs (GCS.removeFinalizer name csr))
     ∧ NoDup (fin_pss (PubSubSource.addFinalizer name src))
     ∧ NoDup (fin_pss (PubSubSource.removeFinalizer name src)))
  (* the presence of the controller's own name *)
  ∧ (name ∈ fin_gcs (GCS.addFinalizer name csr)
     ∧ (name ∉ fin_gcs (GCS.removeFinalizer name csr))
     ∧ name ∈ fin_pss (PubSubSource.addFinalizer name src)
     ∧ (name ∉ fin_pss (PubSubSource.removeFinalizer name src)))
  (* every other finalizer is preserved, none is invented *)
  ∧ (∀ other, other ≠ name →
       (other ∈ fin_gcs (GCS.addFinalizer name csr) ↔ other ∈ fin_gcs csr)
       ∧ (other ∈ fin_gcs (GCS.removeFinalizer name csr) ↔ other ∈ fin_gcs csr)
       ∧ (other ∈ fin_pss (PubSubSource.addFinalizer name src) ↔ other ∈ fin_pss src)
       ∧ (other ∈ fin_pss (PubSubSource.removeFinalizer name src) ↔ other ∈ fin_pss src))
  (* the rest of the record is untouched *)
  ∧ (GCS.Spec (GCS.addFinalizer name csr) = GCS.Spec csr
     ∧ GCS.Status (GCS.addFinalizer name csr) = GCS.Status csr
     ∧ GCS.Spec (GCS.removeFinalizer name csr) = GCS.Spec csr
     ∧ GCS.Status (GCS.removeFinalizer name csr) = GCS.Status csr
     ∧ PubSubSource.Spec (PubSubSource.addFinalizer name src) = PubSubSource.Spec src
     ∧ PubSubSource.Status (PubSubSource.addFinalizer name src) = PubSubSource.Status src
     ∧ PubSubSource.Spec (PubSubSource.removeFinalizer name src) = PubSubSource.Spec src
     ∧ PubSubSource.Status (PubSubSource.removeFinalizer name src)
       = PubSubSource.Status src).
Proof.
  intros fin_gcs fin_pss. subst fin_gcs fin_pss.
  unfold GCS.addFinalizer, GCS.removeFinalizer, PubSubSource.addFinalizer,
    PubSubSource.removeFinalizer, GCS.finalizerName, PubSubSource.finalizerName,
    GCS.withMeta, PubSubSource.withMeta, metav1.withFinalizers. simpl.
  split; [|split; [|split; [|split]]].
  - rewrite !sets_List_Insert_again, !sets_List_Delete_again. done.
  - repeat split; apply NoDup_sets_List.
  - rewrite !elem_of_sets_List. unfold sets.Insert, sets.Delete. set_solver.
  - intros other Hne. rewrite !elem_of_sets_List.
    unfold sets.Insert, sets.Delete.
    rewrite !elem_of_union, !elem_of_difference, !elem_of_singleton,
      !elem_of_sets_NewString.
    naive_solver.
  - done.
Qed.

(** ** Running a pass symbolically

    The functions of the reconcilers are opened one at a time. *)

Opaque GCS.addFinalizer GCS.removeFinalizer GCS.finalizerName
  GCS.buildCustomAttributes GCS.reconcileTopic GCS.reconcilePubSub
  GCS.reconcileNotification GCS.deleteTopic GCS.deleteNotification
  GCS.reconcileGCSSource GCS.updateStatus GCS.reconcileLoaded.

Ltac open f := with_strategy transparent [f] unfold f.


Ltac gcs_unfold :=
  unfold GCS.pubsub_NewClient, GCS.topic_Exists, GCS.psc_CreateTopic, GCS.topic_Delete,
    GCS.storage_NewClient, GCS.bucket_Notifications, GCS.bucket_AddNotification,
    GCS.bucket_DeleteNotification, GCS.pullSubscriptions_Get, GCS.pullSubscriptions_Create,
    GCS.gcss_UpdateStatus, GCS.statsReporter_ReportReady, GCS.duck_GetSinkURI,
    GCS.uuid_New, GCS.call, GCS.errOf, bind, ret, emit, getObj, getWorld,
    modifyObj, modifyWorld in *.

(** One case split on what the world answers. *)
Ltac gcs_step :=
  match goal with
  | H : GCS.fault ?w ?c = _ |- context [GCS.fault ?w ?c] => rewrite H
  | |- context [GCS.fault ?w ?c] => destruct (GCS.fault w c) eqn:?
  | |- context [decide ?P] => destruct (decide P)
  | |- context [bool_decide ?P] => case_bool_decide
  | |- context [@lookup ?K ?A ?M ?I ?k ?m] => destruct (@lookup K A M I k m) eqn:?
  | |- context [gstatus_FromError ?e] => destruct (gstatus_FromError e) eqn:?
  | |- context [IsNotFound ?e] => destruct (IsNotFound e) eqn:?
  | |- context [match ?x with _ => _ end] => is_var x; destruct x
  | |- context [if ?b then _ else _] =>
      lazymatch type of b with bool => destruct b eqn:? end
  end; simpl in *.

(** The trace of the goal is the initial trace followed by new events. *)
Ltac trace_extends :=
  rewrite <- ?app_assoc; simpl;
  first [ eexists; split; [reflexivity|]
        | exists []; split; [by rewrite app_nil_r|] ].

Lemma buildCustomAttributes_spec (m : gmap string string) :
  let r := GCS.buildCustomAttributes {[ GCS.specAttributes := m ]} in
  heap_load GCS.specAttributes r.2 = m
  ∧ heap_load r.1 r.2 = <["ce-type" := "google.gcs"]> m.
Proof.
  open GCS.buildCustomAttributes. unfold heap_make. cbv zeta. simpl.
  set (h0 := {[ GCS.specAttributes := m ]} : gmap nat (gmap string string)).
  set (a := fresh (dom h0)).
  assert (Ha : a ≠ GCS.specAttributes).
  { intros Heq. apply (is_fresh (dom h0)). fold a. rewrite Heq.
    subst h0. set_solver. }
  assert (Hload : heap_load GCS.specAttributes (<[a := ∅]> h0) = m).
  { unfold heap_load. rewrite lookup_insert_ne by done. subst h0.
    by rewrite lookup_singleton_eq. }
  rewrite Hload.
  assert (Hfold : map_fold (fun k v h => heap_store a k v h) (<[a := ∅]> h0) m
                  = <[a := m]> h0).
  { apply (map_fold_weak_ind (fun r m' => r = <[a := m']> h0)); [done|].
    intros k v m' r _ ->. unfold heap_store. by rewrite alter_insert_eq. }
  rewrite Hfold. unfold heap_store, heap_load. rewrite alter_insert_eq.
  rewrite lookup_insert_ne by done. rewrite lookup_insert_eq.
  subst h0. by rewrite lookup_singleton_eq.
Qed.

Section GCSProperties.
Variable controllerAgentName : string.
Variable MakePullSubscription : GCS.GCS -> string -> GCS.PullSubscription.
Import metav1 GCS.

Abbreviation reconcilePubSub := (GCS.reconcilePubSub MakePullSubscription).
Abbreviation reconcileGCSSource := (GCS.reconcileGCSSource controllerAgentName MakePullSubscription).
Abbreviation reconcileLoaded := (GCS.reconcileLoaded controllerAgentName MakePullSubscription).
Abbreviation Reconcile := (GCS.Reconcile controllerAgentName MakePullSubscription).

Lemma withSpec_id (o : GCS) : withSpec (setCustomAttributes (CustomAttributes (Spec o))) o = o.
Proof. by destruct o as [? [] ?]. Qed.

Lemma reconcileNotification_run (s : State) :
  let r := reconcileNotification s in
  obj r.2 = obj s
  ∧ topics (world r.2) = topics (world s)
  ∧ pullSubscriptions (world r.2) = pullSubscriptions (world s)
  ∧ (is_Some (errOf r.1) → notifications (world r.2) = notifications (world s))
  ∧ lister (world r.2) = lister (world s)
  ∧ ∃ new, trace r.2 = trace s ++ new
      ∧ Forall (fun e => e.2 = obj s
                  ∧ match e.1 with
                    | StorageNewClient | BucketNotifications _ => True
                    | AddNotification b n =>
                        b = Bucket (Spec (obj s))
                        ∧ NCustomAttributes n
                          = <["ce-type" := "google.gcs"]> (CustomAttributes (Spec (obj s)))
                    | _ => False
                    end) new.
Proof.
  open reconcileNotification. gcs_unfold. simpl.
  pose proof (buildCustomAttributes_spec (CustomAttributes (Spec (obj s)))) as Hb.
  destruct (buildCustomAttributes _) as [a h]. simpl in Hb. destruct Hb as [Hb1 Hb2].
  simpl. rewrite ?Hb1, ?Hb2, ?withSpec_id.
  repeat gcs_step; rewrite ?withSpec_id; split_and!; try done; try (by intros [? [=]]);
    try (trace_extends; repeat constructor; done).
Qed.


Lemma reconcileTopic_run (s : State) :
  let r := reconcileTopic s in
  ObjectMeta (obj r.2) = ObjectMeta (obj s)
  ∧ Spec (obj r.2) = Spec (obj s)
  ∧ Conditions (Status (obj r.2)) = Conditions (Status (obj s))
  ∧ SinkURI (Status (obj r.2)) = SinkURI (Status (obj s))
  ∧ NotificationID (Status (obj r.2)) = NotificationID (Status (obj s))
  ∧ (Topic (Status (obj s)) ≠ "" → obj r.2 = obj s)
  ∧ pullSubscriptions (world r.2) = pullSubscriptions (world s)
  ∧ notifications (world r.2) = notifications (world s)
  ∧ (is_Some r.1 → topics (world r.2) = topics (world s))
  ∧ (r.1 = None →
       (GoogleCloudProject (Spec (obj s)), Topic (Status (obj r.2))) ∈ topics (world r.2))
  ∧ lister (world r.2) = lister (world s)
  ∧ ∃ new, trace r.2 = trace s ++ new
      ∧ Forall (fun e => e.2 = obj r.2
                  ∧ match e.1 with
                    | PubsubNewClient _ | TopicExists _ _ => True
                    | CreateTopic p t =>
                        p = GoogleCloudProject (Spec (obj s))
                        ∧ t = Topic (Status (obj r.2))
                    | _ => False
                    end) new.
Proof.
  destruct s as [w [m sp [cs u t n]] tr].
  open reconcileTopic. gcs_unfold. simpl.
  repeat gcs_step; split_and!; try done; try (by intros [? [=]]);
    try (trace_extends; repeat constructor; done);
    try (intros _; set_solver).
Qed.

Lemma reconcilePubSub_run (s : State) :
  let r := reconcilePubSub s in
  obj r.2 = obj s
  ∧ topics (world r.2) = topics (world s)
  ∧ notifications (world r.2) = notifications (world s)
  ∧ (is_Some (errOf r.1) → pullSubscriptions (world r.2) = pullSubscriptions (world s))
  ∧ lister (world r.2) = lister (world s)
  ∧ ∃ new, trace r.2 = trace s ++ new
      ∧ Forall (fun e => e.2 = obj s
                  ∧ match e.1 with
                    | PullSubscriptionsGet _ _ | PullSubscriptionsCreate _ _ => True
                    | _ => False
                    end) new.
Proof.
  open GCS.reconcilePubSub. gcs_unfold. simpl.
  repeat gcs_step; split_and!; try done; try (by intros [? [=]]);
    try (trace_extends; repeat constructor; done).
Qed.

Lemma deleteNotification_run (s : State) :
  let r := deleteNotification s in
  obj r.2 = obj s
  ∧ topics (world r.2) = topics (world s)
  ∧ pullSubscriptions (world r.2) = pullSubscriptions (world s)
  ∧ lister (world r.2) = lister (world s)
  ∧ ∃ new, trace r.2 = trace s ++ new
      ∧ Forall (fun e => e.2 = obj s
                  ∧ match e.1 with
                    | StorageNewClient | DeleteNotification _ _ => True
                    | _ => False
                    end) new.
Proof.
  open deleteNotification. gcs_unfold. simpl.
  repeat gcs_step; split_and!; try done;
    try (trace_extends; repeat constructor; done).
Qed.

Lemma deleteTopic_run (project topic : string) (s : State) :
  let r := deleteTopic project topic s in
  obj r.2 = obj s
  ∧ pullSubscriptions (world r.2) = pullSubscriptions (world s)
  ∧ notifications (world r.2) = notifications (world s)
  ∧ lister (world r.2) = lister (world s)
  ∧ ∃ new, trace r.2 = trace s ++ new
      ∧ Forall (fun e => e.2 = obj s
                  ∧ match e.1 with
                    | PubsubNewClient _ | TopicDelete _ _ => True
                    | _ => False
                    end) new.
Proof.
  open deleteTopic. gcs_unfold. simpl.
  repeat gcs_step; split_and!; try done;
    try (trace_extends; repeat constructor; done).
Qed.


(** Replace a call of a function by its result, keeping what its lemma
    says of the result. *)
Tactic Notation "gcs_run" constr(f) constr(lem) "as" ident(r) ident(s') :=
  match goal with
  | |- context [f ?s0] =>
      let H := fresh "Hrun" in
      pose proof (lem s0) as H; cbv zeta in H;
      destruct (f s0) as [r s']; simpl in H; destruct_and? H;
      repeat match goal with
             | H' : ∃ new, _ ∧ _ |- _ =>
                 let new := fresh "new" in
                 let Htr := fresh "Htr" in
                 let Hev := fresh "Hev" in
                 destruct H' as (new & Htr & Hev)
             end;
      simpl in *
  end.

Lemma Forall_events_weaken {A} (P Q : A → Prop) (l : list A) :
  Forall P l → (∀ x, P x → Q x) → Forall Q l.
Proof. intros H HPQ. eapply Forall_impl; eauto. Qed.

Lemma addFinalizer_frame (csr : GCS) :
  let csr' := GCS.addFinalizer controllerAgentName csr in
  Spec csr' = Spec csr ∧ Status csr' = Status csr
  ∧ DeletionTimestamp (ObjectMeta csr') = DeletionTimestamp (ObjectMeta csr)
  ∧ GCS.finalizerName controllerAgentName ∈ Finalizers (ObjectMeta csr').
Proof.
  open GCS.addFinalizer. simpl. split_and!; try done.
  rewrite elem_of_sets_List. unfold sets.Insert. set_solver.
Qed.

Lemma removeFinalizer_frame (csr : GCS) :
  let csr' := GCS.removeFinalizer controllerAgentName csr in
  Spec csr' = Spec csr ∧ Status csr' = Status csr
  ∧ DeletionTimestamp (ObjectMeta csr') = DeletionTimestamp (ObjectMeta csr)
  ∧ GCS.finalizerName controllerAgentName ∉ Finalizers (ObjectMeta csr').
Proof.
  open GCS.removeFinalizer. simpl. split_and!; try done.
  rewrite elem_of_sets_List. unfold sets.Delete. set_solver.
Qed.

Lemma Spec_addFinalizer (csr : GCS) :
  Spec (GCS.addFinalizer controllerAgentName csr) = Spec csr.
Proof. apply addFinalizer_frame. Qed.
Lemma Status_addFinalizer (csr : GCS) :
  Status (GCS.addFinalizer controllerAgentName csr) = Status csr.
Proof. apply addFinalizer_frame. Qed.
Lemma DeletionTimestamp_addFinalizer (csr : GCS) :
  DeletionTimestamp (ObjectMeta (GCS.addFinalizer controllerAgentName csr))
  = DeletionTimestamp (ObjectMeta csr).
Proof. apply addFinalizer_frame. Qed.
Lemma Spec_removeFinalizer (csr : GCS) :
  Spec (GCS.removeFinalizer controllerAgentName csr) = Spec csr.
Proof. apply removeFinalizer_frame. Qed.
Lemma Status_removeFinalizer (csr : GCS) :
  Status (GCS.removeFinalizer controllerAgentName csr) = Status csr.
Proof. apply removeFinalizer_frame. Qed.
Lemma DeletionTimestamp_removeFinalizer (csr : GCS) :
  DeletionTimestamp (ObjectMeta (GCS.removeFinalizer controllerAgentName csr))
  = DeletionTimestamp (ObjectMeta csr).
Proof. apply removeFinalizer_frame. Qed.

(** Rewrite with what the runs have left in the context. *)
Ltac gcs_rew :=
  repeat progress
    (rewrite ?Spec_addFinalizer, ?Status_addFinalizer, ?DeletionTimestamp_addFinalizer,
       ?Spec_removeFinalizer, ?Status_removeFinalizer, ?DeletionTimestamp_removeFinalizer;
     repeat match goal with
            | H : _ (obj ?x) = _ |- _ => is_var x; rewrite !H
            | H : obj ?x = _ |- _ => is_var x; rewrite !H
            | H : _ (world ?x) = _ |- _ => is_var x; rewrite !H
            end;
     simpl).

(** What is left of a run: the trace is an extension, and each new event
    is as the goal wants it. *)
Ltac gcs_events :=
  repeat match goal with H : trace _ = _ |- _ => rewrite H; clear H end;
  trace_extends;
  repeat (rewrite Forall_app || rewrite Forall_cons || rewrite Forall_nil);
  split_and?; try done;
  try (eapply Forall_events_weaken; [eassumption|];
       intros [[] ?] [? ?]; simpl in *; destruct_and?; subst; simpl; try done;
       split_and?;
       repeat match goal with
              | H : NCustomAttributes ?n = _ |- context [NCustomAttributes ?n] =>
                  rewrite H
              end;
       gcs_rew; try done; try apply addFinalizer_frame).

Lemma reconcileGCSSource_run (s : State) :
  let r := reconcileGCSSource s in
  Spec (obj r.2) = Spec (obj s)
  ∧ DeletionTimestamp (ObjectMeta (obj r.2)) = DeletionTimestamp (ObjectMeta (obj s))
  ∧ (DeletionTimestamp (ObjectMeta (obj s)) = None →
       topics (world r.2) ≠ topics (world s)
       ∨ pullSubscriptions (world r.2) ≠ pullSubscriptions (world s)
       ∨ notifications (world r.2) ≠ notifications (world s) →
       GCS.finalizerName controllerAgentName ∈ Finalizers (ObjectMeta (obj r.2)))
  ∧ lister (world r.2) = lister (world s)
  ∧ ∃ new, trace r.2 = trace s ++ new
      ∧ Forall (fun e =>
          Spec e.2 = Spec (obj s)
          ∧ match e.1 with
            | CreateTopic _ _ =>
                Finalizers (ObjectMeta e.2) = Finalizers (ObjectMeta (obj s))
            | PullSubscriptionsCreate _ _ =>
                GCS.finalizerName controllerAgentName ∈ Finalizers (ObjectMeta e.2)
            | AddNotification b n =>
                GCS.finalizerName controllerAgentName ∈ Finalizers (ObjectMeta e.2)
                ∧ b = Bucket (Spec (obj s))
                ∧ NCustomAttributes n
                  = <["ce-type" := "google.gcs"]> (CustomAttributes (Spec (obj s)))
            | UpdateStatus _ | ReportReady _ _ => False
            | _ => True
            end) new.
Proof.
  open GCS.reconcileGCSSource. gcs_unfold. simpl.
  destruct (fault (world s) _) as [e|] eqn:Hsink; simpl;
    [|destruct (sinks (world s) !! _) as [uri|] eqn:Huri; simpl];
    destruct (decide (DeletionTimestamp (ObjectMeta (obj s)) = None)) as [Hdel|Hdel];
    simpl; try rewrite decide_False by naive_solver; try rewrite decide_True by done;
    simpl.
  1,5: split_and!; try done; try naive_solver; gcs_events.
  1,3,4: gcs_run deleteNotification deleteNotification_run as err1 s1;
    (destruct err1; simpl;
      [|match goal with |- context [deleteTopic ?p ?t ?s0] =>
          gcs_run (deleteTopic p t) (deleteTopic_run p t) as err2 s2 end;
        destruct err2; simpl]);
    (split_and!; [by gcs_rew|by gcs_rew|done|by gcs_rew|gcs_events]).
  gcs_run reconcileTopic reconcileTopic_run as err1 s1.
  destruct err1; simpl.
  { split_and!; [by gcs_rew|by gcs_rew| |by gcs_rew|gcs_events].
    intros _ [Hne|[Hne|Hne]]; exfalso; apply Hne; gcs_rew; auto. }
  gcs_run (GCS.reconcilePubSub MakePullSubscription) reconcilePubSub_run as r2 s2.
  destruct r2 as [err|pubsub]; simpl.
  { split_and!; [by gcs_rew|by gcs_rew| |by gcs_rew|gcs_events].
    intros _ _. gcs_rew. apply addFinalizer_frame. }
  destruct (psReady pubsub); simpl;
    gcs_run reconcileNotification reconcileNotification_run as r3 s3;
    (destruct r3 as [err|notification]; simpl;
     (split_and!; [by gcs_rew|by gcs_rew| |by gcs_rew|gcs_events];
      [intros _ _; gcs_rew; apply addFinalizer_frame|..])).
Qed.


(** C5, for the pass and its copy of the record.  A record whose deletion
    marker is set and whose status holds a notification identifier: when
    the storage client can be made, the
    provider answers the delete of the notification with success or with
    NotFound, and the delete of the topic (if the status has one) meets no
    other failure either, the pass calls delete on that identifier, under the
    record's bucket, and on no other; it clears the topic of the status,
    removes the controller's finalizer and returns no error. *)
Theorem deletion_removes_notification_and_finalizer (s : State) (id : string) :
  let bucket := Bucket (Spec (obj s)) in
  let project := GoogleCloudProject (Spec (obj s)) in
  let topic := Topic (Status (obj s)) in
  let r := reconcileGCSSource s in
  DeletionTimestamp (ObjectMeta (obj s)) ≠ None →
  NotificationID (Status (obj s)) = id →
  id ≠ "" →
  fault (world s) StorageNewClient = None →
  (∀ e, fault (world s) (DeleteNotification bucket id) = Some e →
        gstatus_FromError e = Some codes.NotFound) →
  (topic = ""
   ∨ (fault (world s) (PubsubNewClient project) = None
      ∧ (∀ e, fault (world s) (TopicDelete project topic) = Some e →
              gstatus_FromError e = Some codes.NotFound))) →
  r.1 = None
  ∧ (∃ new, calls r.2 = calls s ++ new
       ∧ List.filter isDeleteNotification new = [DeleteNotification bucket id])
  ∧ Topic (Status (obj r.2)) = ""
  ∧ (GCS.finalizerName controllerAgentName ∉ Finalizers (ObjectMeta (obj r.2)))
  ∧ NotificationID (Status (obj r.2)) = id.
Proof.
  intros bucket project topic r Hdel Hid Hne Hsc Hdn Hdt.
  subst r bucket project topic.
  destruct s as [w csr tr]. simpl in *.
  open GCS.reconcileGCSSource. open deleteNotification. open deleteTopic.
  unfold calls. gcs_unfold. simpl.
  assert (Hend : ∀ (w' : World) (tr' : list (Call * GCS)),
    Topic (Status (GCS.removeFinalizer controllerAgentName
                     (withStatus (setTopic "") csr))) = ""
    ∧ (GCS.finalizerName controllerAgentName
       ∉ Finalizers (ObjectMeta (GCS.removeFinalizer controllerAgentName
                                   (withStatus (setTopic "") csr))))
    ∧ NotificationID (Status (GCS.removeFinalizer controllerAgentName
                                (withStatus (setTopic "") csr))) = id).
  { intros _ _. rewrite Status_removeFinalizer. simpl.
    split_and!; [done|apply removeFinalizer_frame|done]. }
  destruct (fault w (GetSinkURI _ _)) as [e0|] eqn:Hsink; simpl;
    [|destruct (sinks w !! _) as [uri|] eqn:Huri; simpl];
    (destruct (decide (DeletionTimestamp (ObjectMeta csr) = None)); [done|]);
    (destruct (decide (DeletionTimestamp (ObjectMeta csr) ≠ None)); [|done]);
    simpl; rewrite Hid, (decide_False (P := id = "")) by done; simpl;
    rewrite Hsc; simpl.
  assert (Hnf : ∀ (A : Type) (x y : A),
            (if decide (codes.NotFound ≠ codes.NotFound) then x else y) = y).
  { intros A x y. apply decide_False. intros H. by apply H. }
  all: destruct (fault w (DeleteNotification _ _)) as [e|] eqn:Hfd; simpl;
    [rewrite (Hdn e eq_refl); simpl
    |destruct (bucketNotifications w _ !! id) eqn:Hlook; simpl];
    rewrite ?Hnf; simpl.
  all: destruct (decide (Topic (Status csr) = "")) as [Htopic|Htopic]; simpl;
    [|destruct Hdt as [?|[Hpc Htd]]; [done|];
      rewrite Hpc; simpl;
      destruct (fault w (TopicDelete _ _)) as [e'|] eqn:Hft; simpl;
      [rewrite (Htd e' eq_refl); simpl
      |destruct (decide (_ ∈ topics w)); simpl]];
    rewrite ?Hnf; simpl.
  all: split; [done|]; split; [|by apply (Hend w tr)].
  all: rewrite ?fmap_app, <- ?app_assoc; simpl; eexists; split; [reflexivity|done].
Qed.

(** What the GCS reconciler does when the sink cannot be resolved and the
    record is not being deleted: it returns the error of the resolution and
    leaves the record as it was, status and finalizers included.  (The call of
    [MarkNoSink] is commented out in [reconcileGCSSource], under a TODO.) *)
Lemma gcs_unresolved_sink_leaves_record (s : State) (err : error) :
  let r := reconcileGCSSource s in
  DeletionTimestamp (ObjectMeta (obj s)) = None →
  (duck_GetSinkURI (Sink (Spec (obj s))) (Namespace (ObjectMeta (obj s))) s).1 = inl err →
  r.1 = Some err
  ∧ obj r.2 = obj s
  ∧ world r.2 = world s
  ∧ calls r.2
    = calls s ++ [GetSinkURI (Sink (Spec (obj s))) (Namespace (ObjectMeta (obj s)))].
Proof.
  intros r Hdel. subst r. open GCS.reconcileGCSSource. unfold calls.
  gcs_unfold. simpl.
  destruct (fault (world s) _) as [e|]; simpl;
    [|destruct (sinks (world s) !! _) as [uri|]; simpl];
    intros [= <-] || intros [=];
    rewrite decide_True by done; simpl; by rewrite fmap_app.
Qed.

Lemma updateStatus_run (desired : GCS) (s : State) :
  let r := updateStatus desired s in
  obj r.2 = obj s
  ∧ topics (world r.2) = topics (world s)
  ∧ pullSubscriptions (world r.2) = pullSubscriptions (world s)
  ∧ notifications (world r.2) = notifications (world s)
  ∧ lister (world r.2) = lister (world s)
  ∧ ∃ new, trace r.2 = trace s ++ new
      ∧ Forall (fun e => e.2 = obj s
                  ∧ match e.1 with
                    | UpdateStatus o =>
                        Status o = Status desired
                        ∧ ∃ source,
                            lister (world s) (Namespace (ObjectMeta desired))
                              (Name (ObjectMeta desired)) = inr source
                            ∧ ObjectMeta o = ObjectMeta source
                            ∧ Status source ≠ Status desired
                    | ReportReady _ _ => True
                    | _ => False
                    end) new.
Proof.
  open updateStatus. gcs_unfold. simpl.
  destruct (lister (world s) _ _) as [err|source] eqn:Hl; simpl.
  { split_and!; try done. by trace_extends. }
  destruct (decide (Status source = Status desired)); simpl.
  { split_and!; try done. by trace_extends. }
  repeat gcs_step; split_and!; try done;
    trace_extends; repeat constructor; simpl; eauto.
Qed.

(** Every event of a whole [Reconcile]: the record it is made on has the
    spec of the informer's copy; a notification is created under the
    finalizer, for the record's bucket and with the attributes of the spec
    under which ["ce-type"] is set; a status written is written onto the
    metadata of the informer's copy. *)
Lemma Reconcile_events (key namespace name : string) (w : World) (original : GCS) :
  SplitMetaNamespaceKey key = inr (namespace, name) →
  lister w namespace name = inr original →
  Forall (fun e =>
      Spec e.2 = Spec original
      ∧ match e.1 with
        | CreateTopic _ _ =>
            Finalizers (ObjectMeta e.2) = Finalizers (ObjectMeta original)
        | PullSubscriptionsCreate _ _ =>
            GCS.finalizerName controllerAgentName ∈ Finalizers (ObjectMeta e.2)
        | AddNotification b n =>
            GCS.finalizerName controllerAgentName ∈ Finalizers (ObjectMeta e.2)
            ∧ b = Bucket (Spec original)
            ∧ NCustomAttributes n
              = <["ce-type" := "google.gcs"]> (CustomAttributes (Spec original))
        | UpdateStatus o =>
            Status o = Status e.2
            ∧ ∃ source,
                lister w (Namespace (ObjectMeta e.2)) (Name (ObjectMeta e.2))
                  = inr source
                ∧ ObjectMeta o = ObjectMeta source
                ∧ Status source ≠ Status e.2
        | _ => True
        end) (Reconcile key w).2.
Proof.
  intros Hkey Hget. unfold GCS.Reconcile. rewrite Hkey, Hget.
  open GCS.reconcileLoaded. gcs_unfold. simpl.
  gcs_run reconcileGCSSource reconcileGCSSource_run as err s1.
  assert (Hl : lister (world s1) = lister w) by done.
  destruct (decide _) as [Hsame|Hdiff]; simpl.
  { rewrite Htr. simpl. eapply Forall_impl; [eassumption|].
    intros [[] ?] [? ?]; simpl in *; done. }
  gcs_run (updateStatus (obj s1)) (updateStatus_run (obj s1)) as r2 s2.
  destruct r2; simpl; rewrite Htr0, Htr; simpl.
  all: rewrite Forall_app; split;
    [eapply Forall_impl; [eassumption|];
     intros [[] ?] [? ?]; simpl in *; done
    |eapply Forall_impl; [eassumption|];
     intros [[] snap] [? Hc]; simpl in *; subst snap; try done;
     split; [congruence|by rewrite <- Hl]].
Qed.

(** C9.  Every notification the GCS reconciler creates carries the custom
    attribute ["ce-type"] with the value ["google.gcs"]: the attributes sent
    are those of the record's spec with ["ce-type"] overwritten, so a
    ["ce-type"] of the user's is not sent and every other attribute is; and
    the map of the spec is not written to: at the call, and at every other
    call of the pass, the record in memory has the spec of the record that
    was loaded. *)
Theorem notification_carries_ce_type
    (key namespace name : string) (w : World) (original : GCS) :
  SplitMetaNamespaceKey key = inr (namespace, name) →
  lister w namespace name = inr original →
  ∀ (c : Call) (csr : GCS), (c, csr) ∈ (Reconcile key w).2 →
    Spec csr = Spec original
    ∧ ∀ bucket n, c = AddNotification bucket n →
        NCustomAttributes n !! "ce-type" = Some "google.gcs"
        ∧ (∀ k, k ≠ "ce-type" →
             NCustomAttributes n !! k = CustomAttributes (Spec original) !! k)
        ∧ NCustomAttributes n
          = <["ce-type" := "google.gcs"]> (CustomAttributes (Spec original)).
Proof.
  intros Hkey Hget c csr Hin.
  pose proof (Reconcile_events key namespace name w original Hkey Hget) as Hev.
  rewrite Forall_forall in Hev. specialize (Hev _ Hin). simpl in Hev.
  destruct Hev as [Hspec Hc]. split; [done|].
  intros bucket n ->. destruct Hc as (_ & _ & ->).
  split_and!; [apply lookup_insert_eq| |done].
  intros k Hk. by rewrite lookup_insert_ne.
Qed.

(** C7 for the GCS reconciler: the key names no record any more. *)
Lemma gcs_Reconcile_not_found (key : string) (w : World) :
  (∀ namespace name, SplitMetaNamespaceKey key = inr (namespace, name) →
     ∃ err, lister w namespace name = inl err ∧ IsNotFound (Some err) = true) →
  Reconcile key w = (None, w, []).
Proof.
  intros Hmiss. unfold GCS.Reconcile.
  destruct (SplitMetaNamespaceKey key) as [?|[namespace name]]; [done|].
  destruct (Hmiss namespace name eq_refl) as (err & -> & ->). done.
Qed.

Lemma deleteTopic_behaviour (project topic : string) (s : State) :
  let r := deleteTopic project topic s in
  (topic = "" → r = (None, s))
  ∧ (topic ≠ "" →
     (∀ e, fault (world s) (PubsubNewClient project) = Some e →
           r.1 = Some e ∧ calls r.2 = calls s ++ [PubsubNewClient project])
     ∧ (fault (world s) (PubsubNewClient project) = None →
          calls r.2 = calls s ++ [PubsubNewClient project; TopicDelete project topic]
          ∧ (fault (world s) (TopicDelete project topic) = None → r.1 = None)
          ∧ (∀ e, fault (world s) (TopicDelete project topic) = Some e →
                  r.1 = if decide (gstatus_FromError e = Some codes.NotFound)
                        then None else Some e))).
Proof.
  open deleteTopic. unfold calls. gcs_unfold. simpl. split.
  - intros ->. done.
  - intros Hne. rewrite decide_False by done. simpl.
    repeat gcs_step; rewrite ?fmap_app, <- ?app_assoc; simpl;
      split_and?; intros; split_and?; try done; intros; simplify_eq;
      try done; case_decide; try congruence;
      exfalso; match goal with n : ¬ _ ≠ _ |- _ => apply n end; congruence.
Qed.

Lemma deleteNotification_behaviour (s : State) :
  let r := deleteNotification s in
  let bucket := Bucket (Spec (obj s)) in
  let id := NotificationID (Status (obj s)) in
  (id = "" → r = (None, s))
  ∧ (id ≠ "" →
     (∀ e, fault (world s) StorageNewClient = Some e →
           r.1 = Some e ∧ calls r.2 = calls s ++ [StorageNewClient])
     ∧ (fault (world s) StorageNewClient = None →
          calls r.2 = calls s ++ [StorageNewClient; DeleteNotification bucket id]
          ∧ (fault (world s) (DeleteNotification bucket id) = None → r.1 = None)
          ∧ (∀ e, fault (world s) (DeleteNotification bucket id) = Some e →
                  r.1 = if decide (gstatus_FromError e = Some codes.NotFound)
                        then None else Some e))).
Proof.
  open deleteNotification. unfold calls. gcs_unfold. simpl. split.
  - intros ->. done.
  - intros Hne. rewrite decide_False by done. simpl.
    repeat gcs_step; rewrite ?fmap_app, <- ?app_assoc; simpl;
      split_and?; intros; split_and?; try done; intros; simplify_eq;
      try done; case_decide; try congruence;
      exfalso; match goal with n : ¬ _ ≠ _ |- _ => apply n end; congruence.
Qed.
Lemma getCondition_setCondition (t : ConditionType) (c : Condition) (cs : list Condition) :
  getCondition t (setCondition c cs)
  = if decide (Type_ c = t) then Some c else getCondition t cs.
Proof.
  unfold getCondition. induction cs as [|c' cs IH]; simpl.
  - destruct (decide (Type_ c = t)).
    + by rewrite bool_decide_eq_true_2.
    + by rewrite bool_decide_eq_false_2.
  - destruct (decide (Type_ c' = Type_ c)) as [Heq|Hne]; simpl.
    + destruct (decide (Type_ c = t)).
      * by rewrite bool_decide_eq_true_2.
      * rewrite !bool_decide_eq_false_2 by congruence. done.
    + destruct (decide (Type_ c' = t)).
      * rewrite bool_decide_eq_true_2 by done.
        rewrite decide_False by congruence. done.
      * rewrite bool_decide_eq_false_2 by done. apply IH.
Qed.


(** ** A create that fails ends the pass with its error *)

Lemma app_self_nil {A} (l new : list A) : l = l ++ new → new = [].
Proof.
  intros H. apply (app_inv_head l). by rewrite app_nil_r.
Qed.












End GCSProperties.

(** ** The PubSubSource reconciler, run symbolically *)

Opaque PubSubSource.addFinalizer PubSubSource.removeFinalizer
  PubSubSource.finalizerName PubSubSource.resolveProjectID
  PubSubSource.createSubscription PubSubSource.deleteSubscription
  PubSubSource.getReceiveAdapter PubSubSource.createReceiveAdapter
  PubSubSource.reconcile PubSubSource.updateStatus PubSubSource.updateFinalizers
  PubSubSource.reconcileLoaded.

Ltac pss_unfold :=
  unfold PubSubSource.metadata_ProjectID, PubSubSource.duck_GetSinkURI,
    PubSubSource.pubSubClientCreator, PubSubSource.sub_Exists,
    PubSubSource.psc_CreateSubscription, PubSubSource.sub_Delete,
    PubSubSource.deployments_List, PubSubSource.deployments_Create,
    PubSubSource.sources_Patch, PubSubSource.sources_UpdateStatus,
    PubSubSource.recorder_Event, PubSubSource.statsReporter_ReportReady,
    PubSubSource.call, PubSubSource.errOf, bind, ret, emit, getObj, getWorld,
    modifyObj, modifyWorld in *.

(** One case split on what the world answers. *)
Ltac pss_step :=
  match goal with
  | H : PubSubSource.fault ?w ?c = _ |- context [PubSubSource.fault ?w ?c] => rewrite H
  | |- context [PubSubSource.fault ?w ?c] => destruct (PubSubSource.fault w c) eqn:?
  | |- context [decide ?P] => destruct (decide P)
  | |- context [bool_decide ?P] => case_bool_decide
  | |- context [@lookup ?K ?A ?M ?I ?k ?m] => destruct (@lookup K A M I k m) eqn:?
  | |- context [List.find ?f ?l] => destruct (List.find f l) eqn:?
  | |- context [match ?x with _ => _ end] => is_var x; destruct x
  | |- context [if ?b then _ else _] =>
      lazymatch type of b with bool => destruct b eqn:? end
  end; simpl in *.

Tactic Notation "pss_run" constr(f) constr(lem) "as" ident(r) ident(s') :=
  match goal with
  | |- context [f ?s0] =>
      let H := fresh "Hrun" in
      pose proof (lem s0) as H; cbv zeta in H;
      destruct (f s0) as [r s']; simpl in H; destruct_and? H;
      repeat match goal with
             | H' : ∃ new, _ ∧ _ |- _ =>
                 let new := fresh "new" in
                 let Htr := fresh "Htr" in
                 let Hev := fresh "Hev" in
                 destruct H' as (new & Htr & Hev)
             end;
      simpl in *
  end.

(** Use, or drop, what a run says of its failure. *)
Ltac pss_known :=
  repeat match goal with
         | H' : is_Some _ → _ |- _ =>
             first [specialize (H' ltac:(eexists; reflexivity)) | clear H']
         end.

Section PubSubSourceProperties.
Variable controllerAgentName : string.
Variable receiveAdapterImage : string.
Variable GenerateSubName : PubSubSource.PubSubSource -> string.
Variable GetLabels : string -> string -> gmap string string.
Variable GetLabelSelector : string -> string -> gmap string string.
Variable MakeReceiveAdapter : PubSubSource.ReceiveAdapterArgs -> PubSubSource.Deployment.
Import metav1 PubSubSource.

Abbreviation createSubscription := (PubSubSource.createSubscription GenerateSubName).
Abbreviation deleteSubscription := (PubSubSource.deleteSubscription GenerateSubName).
Abbreviation getReceiveAdapter :=
  (PubSubSource.getReceiveAdapter controllerAgentName GetLabelSelector).
Abbreviation createReceiveAdapter :=
  (PubSubSource.createReceiveAdapter controllerAgentName receiveAdapterImage
     GetLabels GetLabelSelector MakeReceiveAdapter).
Abbreviation reconcile :=
  (PubSubSource.reconcile controllerAgentName receiveAdapterImage GenerateSubName
     GetLabels GetLabelSelector MakeReceiveAdapter).
Abbreviation updateFinalizers := (PubSubSource.updateFinalizers controllerAgentName).
Abbreviation reconcileLoaded :=
  (PubSubSource.reconcileLoaded controllerAgentName receiveAdapterImage GenerateSubName
     GetLabels GetLabelSelector MakeReceiveAdapter).
Abbreviation Reconcile :=
  (PubSubSource.Reconcile controllerAgentName receiveAdapterImage GenerateSubName
     GetLabels GetLabelSelector MakeReceiveAdapter).

Lemma pss_addFinalizer_frame (src : PubSubSource) :
  let src' := PubSubSource.addFinalizer controllerAgentName src in
  Spec src' = Spec src ∧ Status src' = Status src
  ∧ DeletionTimestamp (ObjectMeta src') = DeletionTimestamp (ObjectMeta src)
  ∧ PubSubSource.finalizerName controllerAgentName ∈ Finalizers (ObjectMeta src').
Proof.
  open PubSubSource.addFinalizer. simpl. split_and!; try done.
  rewrite elem_of_sets_List. unfold sets.Insert. set_solver.
Qed.

Lemma pss_removeFinalizer_frame (src : PubSubSource) :
  let src' := PubSubSource.removeFinalizer controllerAgentName src in
  Spec src' = Spec src ∧ Status src' = Status src
  ∧ DeletionTimestamp (ObjectMeta src') = DeletionTimestamp (ObjectMeta src)
  ∧ PubSubSource.finalizerName controllerAgentName ∉ Finalizers (ObjectMeta src').
Proof.
  open PubSubSource.removeFinalizer. simpl. split_and!; try done.
  rewrite elem_of_sets_List. unfold sets.Delete. set_solver.
Qed.

Lemma pss_Spec_addFinalizer (src : PubSubSource) :
  Spec (PubSubSource.addFinalizer controllerAgentName src) = Spec src.
Proof. apply pss_addFinalizer_frame. Qed.
Lemma pss_Status_addFinalizer (src : PubSubSource) :
  Status (PubSubSource.addFinalizer controllerAgentName src) = Status src.
Proof. apply pss_addFinalizer_frame. Qed.
Lemma pss_DeletionTimestamp_addFinalizer (src : PubSubSource) :
  DeletionTimestamp (ObjectMeta (PubSubSource.addFinalizer controllerAgentName src))
  = DeletionTimestamp (ObjectMeta src).
Proof. apply pss_addFinalizer_frame. Qed.
Lemma pss_Spec_removeFinalizer (src : PubSubSource) :
  Spec (PubSubSource.removeFinalizer controllerAgentName src) = Spec src.
Proof. apply pss_removeFinalizer_frame. Qed.
Lemma pss_Status_removeFinalizer (src : PubSubSource) :
  Status (PubSubSource.removeFinalizer controllerAgentName src) = Status src.
Proof. apply pss_removeFinalizer_frame. Qed.
Lemma pss_DeletionTimestamp_removeFinalizer (src : PubSubSource) :
  DeletionTimestamp (ObjectMeta (PubSubSource.removeFinalizer controllerAgentName src))
  = DeletionTimestamp (ObjectMeta src).
Proof. apply pss_removeFinalizer_frame. Qed.

Lemma resolveProjectID_run (s : State) :
  let r := resolveProjectID s in
  ObjectMeta (obj r.2) = ObjectMeta (obj s)
  ∧ Spec (obj r.2) = Spec (obj s)
  ∧ Conditions (Status (obj r.2)) = Conditions (Status (obj s))
  ∧ SinkURI (Status (obj r.2)) = SinkURI (Status (obj s))
  ∧ ObservedGeneration (Status (obj r.2)) = ObservedGeneration (Status (obj s))
  ∧ subscriptions (world r.2) = subscriptions (world s)
  ∧ deployments (world r.2) = deployments (world s)
  ∧ lister (world r.2) = lister (world s)
  ∧ ∃ new, trace r.2 = trace s ++ new
      ∧ Forall (fun e => ObjectMeta e.2 = ObjectMeta (obj s)
                  ∧ Spec e.2 = Spec (obj s)
                  ∧ match e.1 with MetadataProjectID => True | _ => False end) new.
Proof.
  destruct s as [w [m sp [cs u p g]] tr].
  open resolveProjectID. pss_unfold. simpl.
  repeat pss_step; split_and!; try done;
    try (trace_extends; repeat constructor; done).
Qed.

Lemma createSubscription_run (s : State) :
  let r := createSubscription s in
  obj r.2 = obj s
  ∧ deployments (world r.2) = deployments (world s)
  ∧ (is_Some (errOf r.1) → subscriptions (world r.2) = subscriptions (world s))
  ∧ lister (world r.2) = lister (world s)
  ∧ ∃ new, trace r.2 = trace s ++ new
      ∧ Forall (fun e => e.2 = obj s
                  ∧ match e.1 with
                    | PubSubClientCreator _ | SubscriptionExists _ _
                    | CreateSubscription _ _ _ => True
                    | _ => False
                    end) new.
Proof.
  open PubSubSource.createSubscription. pss_unfold. simpl.
  repeat pss_step; split_and!; try done; try (by intros [? [=]]);
    try (trace_extends; repeat constructor; done).
Qed.

Lemma deleteSubscription_run (s : State) :
  let r := deleteSubscription s in
  obj r.2 = obj s
  ∧ deployments (world r.2) = deployments (world s)
  ∧ lister (world r.2) = lister (world s)
  ∧ ∃ new, trace r.2 = trace s ++ new
      ∧ Forall (fun e => e.2 = obj s
                  ∧ match e.1 with
                    | PubSubClientCreator _ | SubscriptionExists _ _
                    | SubscriptionDelete _ _ => True
                    | _ => False
                    end) new.
Proof.
  open PubSubSource.deleteSubscription. pss_unfold. simpl.
  repeat pss_step; split_and!; try done;
    try (trace_extends; repeat constructor; done).
Qed.

Lemma createReceiveAdapter_run (subscriptionID sinkURI transformerURI : string)
    (s : State) :
  let r := createReceiveAdapter subscriptionID sinkURI transformerURI s in
  obj r.2 = obj s
  ∧ subscriptions (world r.2) = subscriptions (world s)
  ∧ lister (world r.2) = lister (world s)
  ∧ ∃ new, trace r.2 = trace s ++ new
      ∧ Forall (fun e => e.2 = obj s
                  ∧ match e.1 with
                    | DeploymentsList _ _ | DeploymentsCreate _ _ => True
                    | _ => False
                    end) new.
Proof.
  open PubSubSource.createReceiveAdapter. open PubSubSource.getReceiveAdapter.
  pss_unfold. simpl.
  repeat pss_step; split_and!; try done;
    try (trace_extends; repeat constructor; done).
Qed.

Lemma find_snoc {A} (f : A → bool) (l : list A) (x : A) :
  List.find f (l ++ [x])
  = match List.find f l with
    | Some y => Some y
    | None => if f x then Some x else None
    end.
Proof. induction l as [|y l IH]; simpl; [done|]. by destruct (f y). Qed.

Lemma getCondition_initCondition (t t' : ConditionType) (cs : list Condition) :
  getCondition t (initCondition t' cs)
  = match getCondition t cs with
    | Some c => Some c
    | None => if decide (t' = t) then Some (mkCondition t' ConditionUnknown "" "")
              else None
    end.
Proof.
  unfold initCondition.
  destruct (getCondition t' cs) as [c'|] eqn:Hc'.
  - destruct (getCondition t cs) as [c|] eqn:Hc; [done|].
    destruct (decide (t' = t)) as [->|]; [congruence|done].
  - unfold getCondition in *. rewrite find_snoc.
    destruct (List.find _ cs) as [c|] eqn:Hc; [done|]. simpl.
    destruct (decide (t' = t)).
    + by rewrite bool_decide_eq_true_2.
    + by rewrite bool_decide_eq_false_2.
Qed.

Lemma markedFalse_setCondition (t : ConditionType) (c : Condition) (cs : list Condition) :
  markedFalse t (setCondition c cs)
  = if decide (Type_ c = t) then bool_decide (Status_ c = ConditionFalse)
    else markedFalse t cs.
Proof.
  unfold markedFalse. rewrite getCondition_setCondition. by destruct (decide _).
Qed.

Lemma markedFalse_initCondition (t t' : ConditionType) (cs : list Condition) :
  markedFalse t (initCondition t' cs) = markedFalse t cs.
Proof.
  unfold markedFalse. rewrite getCondition_initCondition.
  destruct (getCondition t cs); [done|]. by destruct (decide _).
Qed.

(** Rewrite with what the runs have left in the context. *)
Ltac pss_rew :=
  repeat progress
    (rewrite ?pss_Spec_addFinalizer, ?pss_Status_addFinalizer,
       ?pss_DeletionTimestamp_addFinalizer, ?pss_Spec_removeFinalizer,
       ?pss_Status_removeFinalizer, ?pss_DeletionTimestamp_removeFinalizer;
     repeat match goal with
            | H : _ (obj ?x) = _ |- _ => is_var x; rewrite !H
            | H : _ (_ (obj ?x)) = _ |- _ => is_var x; rewrite !H
            | H : obj ?x = _ |- _ => is_var x; rewrite !H
            | H : _ (world ?x) = _ |- _ => is_var x; rewrite !H
            end;
     simpl).

Ltac pss_events :=
  repeat match goal with H : trace _ = _ |- _ => rewrite H; clear H end;
  trace_extends;
  repeat (rewrite Forall_app || rewrite Forall_cons || rewrite Forall_nil);
  split_and?; try done;
  try (eapply Forall_events_weaken; [eassumption|];
       intros [[] ?] ?; simpl in *; destruct_and?; subst; simpl; try done;
       split_and?; pss_rew; try done; try apply pss_addFinalizer_frame).

(** The conditions of the steps are never made False. *)
Ltac pss_conditions :=
  intros t Ht; pss_rew;
  rewrite ?markedFalse_setCondition, ?markedFalse_initCondition; simpl;
  repeat (case_decide; simpl);
  rewrite ?markedFalse_setCondition, ?markedFalse_initCondition; simpl;
  try done; try (destruct Ht; congruence).

Lemma reconcile_run (s : State) :
  let r := reconcile s in
  Spec (obj r.2) = Spec (obj s)
  ∧ DeletionTimestamp (ObjectMeta (obj r.2)) = DeletionTimestamp (ObjectMeta (obj s))
  ∧ (DeletionTimestamp (ObjectMeta (obj s)) = None →
       subscriptions (world r.2) ≠ subscriptions (world s)
       ∨ deployments (world r.2) ≠ deployments (world s) →
       PubSubSource.finalizerName controllerAgentName
       ∈ Finalizers (ObjectMeta (obj r.2)))
  ∧ (∀ t, t = Subscribed ∨ t = Deployed →
       markedFalse t (Conditions (Status (obj r.2))) = true →
       markedFalse t (Conditions (Status (obj s))) = true)
  ∧ lister (world r.2) = lister (world s)
  ∧ ∃ new, trace r.2 = trace s ++ new
      ∧ Forall (fun e =>
          Spec e.2 = Spec (obj s)
          ∧ match e.1 with
            | CreateSubscription _ _ _ =>
                Finalizers (ObjectMeta e.2) = Finalizers (ObjectMeta (obj s))
            | DeploymentsCreate _ _ =>
                PubSubSource.finalizerName controllerAgentName
                ∈ Finalizers (ObjectMeta e.2)
            | Patch _ _ _ _ | UpdateStatus _ | RecorderEvent _ _
            | ReportReady _ _ => False
            | _ => True
            end) new.
Proof.
  open PubSubSource.reconcile. pss_unfold. simpl.
  pss_run resolveProjectID resolveProjectID_run as err0 s0.
  destruct err0 as [err0|]; simpl.
  { split_and!; [by pss_rew|by pss_rew| |pss_conditions|by pss_rew|pss_events].
    intros _ [Hne|Hne]; exfalso; apply Hne; pss_rew; auto. }
  destruct (decide (DeletionTimestamp (ObjectMeta (obj s0)) ≠ None)) as [Hdel|Hdel];
    simpl.
  { pss_run deleteSubscription deleteSubscription_run as err1 s1.
    destruct err1; simpl;
      (split_and!; [by pss_rew|by pss_rew| |pss_conditions|by pss_rew|pss_events]);
      intros Hnd; exfalso; apply Hdel; by rewrite H. }
  apply dec_stable in Hdel.
  destruct (fault (world s0) _) as [e|] eqn:Hsink; simpl;
    [|destruct (sinks (world s0) !! _) as [sinkURI|] eqn:Huri; simpl].
  1,3: split_and!; [by pss_rew|by pss_rew| |pss_conditions|by pss_rew|pss_events];
    intros _ [Hne|Hne]; exfalso; apply Hne; pss_rew; auto.
  all: destruct (Transformer (Spec (obj s0))) as [transformer|]; simpl;
    [destruct (fault (world s0) (GetSinkURI transformer _)) as [e'|] eqn:Htf; simpl;
      [|destruct (sinks (world s0) !! (_, transformer)) as [transformerURI|] eqn:Htu;
        simpl]|].
  1,3: split_and!; [by pss_rew|by pss_rew| |pss_conditions|by pss_rew|pss_events];
    intros _ [Hne|Hne]; exfalso; apply Hne; pss_rew; auto.
  all: pss_run createSubscription createSubscription_run as r1 s1;
    (destruct r1 as [err1|sub]; simpl; pss_known;
     [split_and!; [by pss_rew|by pss_rew| |pss_conditions|by pss_rew|pss_events];
      intros _ [Hne|Hne]; exfalso; apply Hne; pss_rew; auto|]).
  all: match goal with
       | |- context [PubSubSource.createReceiveAdapter _ _ _ _ _ ?a ?b ?c ?st] =>
           pss_run (createReceiveAdapter a b c) (createReceiveAdapter_run a b c) as r2 s2
       end;
    (destruct r2 as [err2|dp]; simpl;
     (split_and!; [by pss_rew|by pss_rew| |pss_conditions|by pss_rew|pss_events];
      intros _ _; pss_rew; apply pss_addFinalizer_frame)).
Qed.
(** C4 for the PubSubSource reconciler: what [Reconcile] persists once the
    pass has run, when the informer still serves the record that was loaded.
    [source] is the record the pass leaves in memory. *)
Lemma reconcileLoaded_persists (original : PubSubSource) (s : State) :
  let pass := reconcile s in
  let source := obj pass.2 in
  let name := PubSubSource.finalizerName controllerAgentName in
  let held := fun o : PubSubSource =>
    sets.Has (sets.NewString (Finalizers (ObjectMeta o))) name in
  let patch :=
    Patch (Namespace (ObjectMeta original)) (Name (ObjectMeta original))
      (if held source then Finalizers (ObjectMeta original) ++ [name]
       else sets.List (sets.Delete (sets.NewString (Finalizers (ObjectMeta original))) name))
      (ResourceVersion (ObjectMeta original)) in
  let r := reconcileLoaded original s in
  lister (world pass.2) (Namespace (ObjectMeta source)) (Name (ObjectMeta source))
  = inr original →
  ∃ persist, calls r.2 = calls pass.2 ++ persist
    ∧ (existsb isPatch persist = true
       ↔ Finalizers (ObjectMeta original) ≠ Finalizers (ObjectMeta source)
         ∧ held original ≠ held source)
    ∧ (∀ c, c ∈ persist → isPatch c = true → c = patch)
    ∧ (existsb isUpdateStatus persist = true
       ↔ Status original ≠ Status source
         ∧ (existsb isPatch persist = true → fault (world pass.2) patch = None))
    ∧ (∀ c, c ∈ persist → isUpdateStatus c = true →
         c = UpdateStatus (withStatus (fun _ => Status source) original)).
Proof.
  intros pass source name held patch r. subst r patch held name source pass.
  open PubSubSource.reconcileLoaded. open PubSubSource.updateFinalizers.
  open PubSubSource.updateStatus. unfold calls. pss_unfold. simpl.
  destruct (PubSubSource.reconcile _ _ _ _ _ _ s) as [reconcileErr s1]. simpl.
  intros Hlister.
  repeat (first [rewrite Hlister; simpl | pss_step]).
  all: repeat match goal with
              | H : negb ?b = _ |- _ =>
                  destruct b eqn:?; simpl in H; try discriminate H; clear H
              end.
  all: rewrite ?fmap_app, <- ?app_assoc; simpl;
    (first [eexists; split; [reflexivity|]
           | exists []; split; [by rewrite app_nil_r|]]);
    simpl; split_and!;
    try (intros c Hc Hp;
         repeat (apply elem_of_cons in Hc; destruct Hc as [->|Hc];
                 [simpl in Hp; try done|]);
         by apply elem_of_nil in Hc);
    try (split; intros Hx;
         [try discriminate Hx; split_and?; intros; first [done | congruence]
         |destruct Hx as [Hx1 Hx2];
          first [done | congruence
                | exfalso; apply Hx1; congruence
                | exfalso; apply Hx2; congruence
                | specialize (Hx2 eq_refl); congruence]]).
Qed.

(** C6 for the PubSubSource reconciler: when the project is known, the
    record is not being deleted and the sink cannot be resolved, the pass
    returns the error, sets the condition of the sink to False with the reason
    "NotFound", and does not touch the finalizers. *)
Lemma pss_unresolved_sink_marks_condition (s : State) (err : error) :
  let r := reconcile s in
  let sink := Sink (Spec (obj s)) in
  let namespace := Namespace (ObjectMeta (obj s)) in
  DeletionTimestamp (ObjectMeta (obj s)) = None →
  Project (Spec (obj s)) ≠ "" →
  (duck_GetSinkURI sink namespace s).1 = inl err →
  r.1 = Some err
  ∧ getCondition SinkProvided (Conditions (Status (obj r.2)))
    = Some (mkCondition SinkProvided ConditionFalse "NotFound" "")
  ∧ ObjectMeta (obj r.2) = ObjectMeta (obj s)
  ∧ calls r.2 = calls s ++ [GetSinkURI sink namespace].
Proof.
  intros r sink namespace Hdel Hproject. subst r sink namespace.
  open PubSubSource.reconcile. open resolveProjectID. unfold calls.
  pss_unfold. simpl.
  rewrite (decide_True (P := Project (Spec (obj s)) ≠ "")) by done. simpl.
  rewrite (decide_False (P := DeletionTimestamp (ObjectMeta (obj s)) ≠ None))
    by (intros H; by apply H). simpl.
  destruct (fault (world s) _) as [e|]; simpl;
    [|destruct (sinks (world s) !! _) as [uri|]; simpl];
    intros [=]; subst; rewrite fmap_app; simpl;
    (split_and!; [done| |done|done]);
    rewrite getCondition_setCondition; by rewrite decide_True.
Qed.

(** C2 for the PubSubSource reconciler: [deleteSubscription] asks first
    whether the subscription exists, and returns whatever the delete
    answers. *)
Lemma deleteSubscription_behaviour (s : State) :
  let r := deleteSubscription s in
  let project := ProjectID (Status (obj s)) in
  let sub := GenerateSubName (obj s) in
  (project = "" →
     r = (Some (errorString "project is required but not set"), s))
  ∧ (project ≠ "" →
     (∀ e, fault (world s) (PubSubClientCreator project) = Some e →
           r.1 = Some e ∧ calls r.2 = calls s ++ [PubSubClientCreator project])
     ∧ (fault (world s) (PubSubClientCreator project) = None →
        (∀ e, fault (world s) (SubscriptionExists project sub) = Some e →
              r.1 = Some e
              ∧ calls r.2 = calls s ++ [PubSubClientCreator project;
                                        SubscriptionExists project sub])
        ∧ (fault (world s) (SubscriptionExists project sub) = None →
           ((project, sub) ∉ subscriptions (world s) →
              r.1 = None
              ∧ calls r.2 = calls s ++ [PubSubClientCreator project;
                                        SubscriptionExists project sub])
           ∧ ((project, sub) ∈ subscriptions (world s) →
              calls r.2 = calls s ++ [PubSubClientCreator project;
                                      SubscriptionExists project sub;
                                      SubscriptionDelete project sub]
              ∧ r.1 = fault (world s) (SubscriptionDelete project sub))))).
Proof.
  open PubSubSource.deleteSubscription. unfold calls. pss_unfold. simpl. split.
  - intros ->. done.
  - intros Hne. rewrite decide_False by done. simpl.
    repeat pss_step; rewrite ?fmap_app, <- ?app_assoc; simpl;
      split_and?; intros; split_and?; try done; intros; simplify_eq;
      split_and?; try done.
Qed.

(** C7 for the PubSubSource reconciler: the key names no record any more. *)
Lemma pss_Reconcile_not_found (key : string) (w : World) :
  (∀ namespace name, SplitMetaNamespaceKey key = inr (namespace, name) →
     ∃ err, lister w namespace name = inl err ∧ IsNotFound (Some err) = true) →
  Reconcile key w = (None, w, []).
Proof.
  intros Hmiss. unfold PubSubSource.Reconcile.
  destruct (SplitMetaNamespaceKey key) as [?|[namespace name]]; [done|].
  destruct (Hmiss namespace name eq_refl) as (err & -> & ->). done.
Qed.

End PubSubSourceProperties.

(** * The claims that concern both reconcilers *)

Section Claims.

Variable gcsAgentName : string.
Variable MakePullSubscription : GCS.GCS -> string -> GCS.PullSubscription.
Variable pubsubAgentName : string.
Variable receiveAdapterImage : string.
Variable GenerateSubName : PubSubSource.PubSubSource -> string.
Variable GetLabels : string -> string -> gmap string string.
Variable GetLabelSelector : string -> string -> gmap string string.
Variable MakeReceiveAdapter : PubSubSource.ReceiveAdapterArgs -> PubSubSource.Deployment.
Import metav1.

Abbreviation reconcileGCSSource :=
  (GCS.reconcileGCSSource gcsAgentName MakePullSubscription).
Abbreviation gcsReconcileLoaded :=
  (GCS.reconcileLoaded gcsAgentName MakePullSubscription).
Abbreviation gcsReconcile := (GCS.Reconcile gcsAgentName MakePullSubscription).
Abbreviation reconcile :=
  (PubSubSource.reconcile pubsubAgentName receiveAdapterImage GenerateSubName
     GetLabels GetLabelSelector MakeReceiveAdapter).
Abbreviation pubsubReconcileLoaded :=
  (PubSubSource.reconcileLoaded pubsubAgentName receiveAdapterImage GenerateSubName
     GetLabels GetLabelSelector MakeReceiveAdapter).
Abbreviation pubsubReconcile :=
  (PubSubSource.Reconcile pubsubAgentName receiveAdapterImage GenerateSubName
     GetLabels GetLabelSelector MakeReceiveAdapter).

(** What the GCS [Reconcile] persists once the pass has run, when the
    informer still serves the record that was loaded: one write at most, of
    the status, sent exactly when the status differs; the metadata of the
    stored records, their finalizers among it, is never written. *)
Lemma gcs_reconcileLoaded_persists (original : GCS.GCS) (s : GCS.State) :
  let pass := reconcileGCSSource s in
  let csr := obj pass.2 in
  let r := gcsReconcileLoaded original s in
  GCS.lister (world pass.2) (Namespace (GCS.ObjectMeta csr)) (Name (GCS.ObjectMeta csr))
  = inr original →
  (∃ persist, calls r.2 = calls pass.2 ++ persist
     ∧ (existsb GCS.isPersist persist = true ↔ GCS.Status original ≠ GCS.Status csr)
     ∧ (∀ c, c ∈ persist → GCS.isPersist c = true →
          c = GCS.UpdateStatus (GCS.withStatus (fun _ => GCS.Status csr) original)))
  ∧ (∀ k cur, GCS.persisted (world pass.2) !! k = Some cur →
       ∃ cur', GCS.persisted (world r.2) !! k = Some cur'
               ∧ GCS.ObjectMeta cur' = GCS.ObjectMeta cur)
  ∧ obj r.2 = csr.
Proof.
  intros pass csr r. subst r csr pass.
  open GCS.reconcileLoaded. open GCS.updateStatus. unfold calls. gcs_unfold. simpl.
  destruct (GCS.reconcileGCSSource _ _ s) as [err s1]. simpl.
  intros Hlister.
  destruct (decide _) as [[Hst Hmeta]|Hdiff]; simpl.
  { split_and!; [|by eauto|done].
    exists []. rewrite app_nil_r. split_and!; [done| |by intros c Hc%elem_of_nil].
    split; [done|]. intros Hne. by destruct Hne. }
  rewrite Hlister. simpl.
  destruct (decide (GCS.Status original = GCS.Status (obj s1))) as [Hst|Hst]; simpl.
  { split_and!; [|by eauto|done].
    exists []. rewrite app_nil_r. split_and!; [done| |by intros c Hc%elem_of_nil].
    split; [done|]. intros Hne. by destruct Hne. }
  repeat gcs_step; rewrite ?fmap_app, <- ?app_assoc; simpl.
  all: split_and!; try done;
    try (eexists; split; [reflexivity|]; simpl; split_and!; [done|];
         intros c Hc Hp;
         repeat (apply elem_of_cons in Hc; destruct Hc as [->|Hc];
                 [simpl in Hp; try done|]);
         by apply elem_of_nil in Hc).
  all: intros k cur Hk; try by eauto.
  all: destruct (decide (k = (Namespace (GCS.ObjectMeta original),
                              Name (GCS.ObjectMeta original)))) as [->|Hk'];
    [rewrite lookup_insert_eq; eexists; split; [reflexivity|]; simpl; congruence
    |rewrite lookup_insert_ne by done; by eauto].
Qed.

(** C1, as the code has it.  In a pass on a record that is not being
    deleted, the first resource (the topic for the GCS reconciler, the
    subscription for the PubSubSource reconciler) is created before the
    finalizer is added: that create call is made on the record with the
    finalizers it came with.  The finalizer is added once that first step has
    succeeded, so every later create (the pull subscription and the
    notification; the deployment of the receive adapter) is made under the
    finalizer, and a pass that has changed the resources of the provider or
    of the cluster leaves the finalizer in the record. *)
Theorem finalizer_added_after_first_resource
    (gs : GCS.State) (ps : PubSubSource.State) :
  let g := reconcileGCSSource gs in
  let p := reconcile ps in
  DeletionTimestamp (GCS.ObjectMeta (obj gs)) = None →
  DeletionTimestamp (PubSubSource.ObjectMeta (obj ps)) = None →
  ((∃ new, trace g.2 = trace gs ++ new
      ∧ ∀ c record, (c, record) ∈ new →
          match c with
          | GCS.CreateTopic _ _ =>
              Finalizers (GCS.ObjectMeta record) = Finalizers (GCS.ObjectMeta (obj gs))
          | GCS.PullSubscriptionsCreate _ _ | GCS.AddNotification _ _ =>
              GCS.finalizerName gcsAgentName ∈ Finalizers (GCS.ObjectMeta record)
          | _ => True
          end)
   ∧ (GCS.topics (world g.2) ≠ GCS.topics (world gs)
      ∨ GCS.pullSubscriptions (world g.2) ≠ GCS.pullSubscriptions (world gs)
      ∨ GCS.notifications (world g.2) ≠ GCS.notifications (world gs) →
      GCS.finalizerName gcsAgentName ∈ Finalizers (GCS.ObjectMeta (obj g.2))))
  ∧ ((∃ new, trace p.2 = trace ps ++ new
        ∧ ∀ c record, (c, record) ∈ new →
            match c with
            | PubSubSource.CreateSubscription _ _ _ =>
                Finalizers (PubSubSource.ObjectMeta record)
                = Finalizers (PubSubSource.ObjectMeta (obj ps))
            | PubSubSource.DeploymentsCreate _ _ =>
                PubSubSource.finalizerName pubsubAgentName
                ∈ Finalizers (PubSubSource.ObjectMeta record)
            | _ => True
            end)
     ∧ (PubSubSource.subscriptions (world p.2) ≠ PubSubSource.subscriptions (world ps)
        ∨ PubSubSource.deployments (world p.2) ≠ PubSubSource.deployments (world ps) →
        PubSubSource.finalizerName pubsubAgentName
        ∈ Finalizers (PubSubSource.ObjectMeta (obj p.2)))).
Proof.
  intros g p Hg Hp. subst g p. split.
  - pose proof (reconcileGCSSource_run gcsAgentName MakePullSubscription gs) as Hrun.
    cbv zeta in Hrun. destruct Hrun as (_ & _ & Hfin & _ & new & Htr & Hev).
    split; [|by apply Hfin].
    exists new. split; [done|]. intros c record Hin.
    rewrite Forall_forall in Hev. specialize (Hev _ Hin). simpl in Hev.
    destruct Hev as [_ Hev]. destruct c; try done. by destruct Hev.
  - pose proof (reconcile_run pubsubAgentName receiveAdapterImage GenerateSubName
                  GetLabels GetLabelSelector MakeReceiveAdapter ps) as Hrun.
    cbv zeta in Hrun. destruct Hrun as (_ & _ & Hfin & _ & _ & new & Htr & Hev).
    split; [|by apply Hfin].
    exists new. split; [done|]. intros c record Hin.
    rewrite Forall_forall in Hev. specialize (Hev _ Hin). simpl in Hev.
    destruct Hev as [_ Hev]. destruct c; done.
Qed.

(** C2, as the code has it.  [deleteTopic] and [deleteNotification] of the
    GCS reconciler: with no identifier recorded they do nothing and succeed;
    otherwise they make a client and call delete at once, without asking
    whether the resource exists, take NotFound from the delete for success
    and return any other error.  [deleteSubscription] of the PubSubSource
    reconciler: with no project in the status it returns the error "project
    is required but not set"; otherwise it makes a client and asks whether
    the subscription exists, returns the error of that question, succeeds
    without a delete when the answer is no, and when the answer is yes calls
    delete: a delete that succeeds is a success, and an error of the delete
    other than NotFound is returned. *)
Theorem delete_steps_of_the_reconcilers
    (project topic : string) (gs : GCS.State) (ps : PubSubSource.State) :
  let dt := GCS.deleteTopic project topic gs in
  let dn := GCS.deleteNotification gs in
  let bucket := GCS.Bucket (GCS.Spec (obj gs)) in
  let id := GCS.NotificationID (GCS.Status (obj gs)) in
  let ds := PubSubSource.deleteSubscription GenerateSubName ps in
  let pid := PubSubSource.ProjectID (PubSubSource.Status (obj ps)) in
  let sub := GenerateSubName (obj ps) in
  let tolerant := fun e : error =>
    if decide (gstatus_FromError e = Some codes.NotFound) then None else Some e in
  (* the topic *)
  ((topic = "" → dt = (None, gs))
   ∧ (topic ≠ "" →
      (∀ e, GCS.fault (world gs) (GCS.PubsubNewClient project) = Some e →
            dt.1 = Some e ∧ calls dt.2 = calls gs ++ [GCS.PubsubNewClient project])
      ∧ (GCS.fault (world gs) (GCS.PubsubNewClient project) = None →
           calls dt.2
           = calls gs ++ [GCS.PubsubNewClient project; GCS.TopicDelete project topic]
           ∧ (GCS.fault (world gs) (GCS.TopicDelete project topic) = None → dt.1 = None)
           ∧ (∀ e, GCS.fault (world gs) (GCS.TopicDelete project topic) = Some e →
                   dt.1 = tolerant e))))
  (* the notification *)
  ∧ ((id = "" → dn = (None, gs))
     ∧ (id ≠ "" →
        (∀ e, GCS.fault (world gs) GCS.StorageNewClient = Some e →
              dn.1 = Some e ∧ calls dn.2 = calls gs ++ [GCS.StorageNewClient])
        ∧ (GCS.fault (world gs) GCS.StorageNewClient = None →
             calls dn.2
             = calls gs ++ [GCS.StorageNewClient; GCS.DeleteNotification bucket id]
             ∧ (GCS.fault (world gs) (GCS.DeleteNotification bucket id) = None →
                dn.1 = None)
             ∧ (∀ e, GCS.fault (world gs) (GCS.DeleteNotification bucket id) = Some e →
                     dn.1 = tolerant e))))
  (* the subscription *)
  ∧ ((pid = "" → ds = (Some (errorString "project is required but not set"), ps))
     ∧ (pid ≠ "" →
        (∀ e, PubSubSource.fault (world ps) (PubSubSource.PubSubClientCreator pid) = Some e →
              ds.1 = Some e
              ∧ calls ds.2 = calls ps ++ [PubSubSource.PubSubClientCreator pid])
        ∧ (PubSubSource.fault (world ps) (PubSubSource.PubSubClientCreator pid) = None →
           (∀ e, PubSubSource.fault (world ps) (PubSubSource.SubscriptionExists pid sub)
                 = Some e →
                 ds.1 = Some e
                 ∧ calls ds.2 = calls ps ++ [PubSubSource.PubSubClientCreator pid;
                                             PubSubSource.SubscriptionExists pid sub])
           ∧ (PubSubSource.fault (world ps) (PubSubSource.SubscriptionExists pid sub)
              = None →
              ((pid, sub) ∉ PubSubSource.subscriptions (world ps) →
                 ds.1 = None
                 ∧ calls ds.2 = calls ps ++ [PubSubSource.PubSubClientCreator pid;
                                             PubSubSource.SubscriptionExists pid sub])
              ∧ ((pid, sub) ∈ PubSubSource.subscriptions (world ps) →
                 calls ds.2 = calls ps ++ [PubSubSource.PubSubClientCreator pid;
                                           PubSubSource.SubscriptionExists pid sub;
                                           PubSubSource.SubscriptionDelete pid sub]
                 ∧ (PubSubSource.fault (world ps)
                      (PubSubSource.SubscriptionDelete pid sub) = None → ds.1 = None)
                 ∧ (∀ e, PubSubSource.fault (world ps)
                           (PubSubSource.SubscriptionDelete pid sub) = Some e →
                         gstatus_FromError e ≠ Some codes.NotFound →
                         ds.1 = Some e)))))).
Proof.
  intros dt dn bucket id ds pid sub tolerant.
  split; [exact (deleteTopic_behaviour project topic gs)|].
  split; [exact (deleteNotification_behaviour gs)|].
  pose proof (deleteSubscription_behaviour GenerateSubName ps) as H. cbv zeta in H.
  destruct H as [Hnone Hsome]. split; [exact Hnone|].
  intros Hpid. destruct (Hsome Hpid) as [Hclient Hrest]. split; [exact Hclient|].
  intros Hc. destruct (Hrest Hc) as [Hexerr Hex]. split; [exact Hexerr|].
  intros He. destruct (Hex He) as [Hno Hyes]. split; [exact Hno|].
  intros Hin. destruct (Hyes Hin) as [Hcalls Hres]. split; [exact Hcalls|].
  subst ds. rewrite Hres. split; [done|]. intros e Hdelete _. exact Hdelete.
Qed.

(** C4, as the code has it, when the informer still serves the record that
    was loaded.  The PubSubSource reconciler has two steps, finalizers first.
    A patch of the finalizers is sent exactly when the finalizer lists differ
    and the controller's own finalizer is in one of them only; it carries the
    stored finalizers with the controller's name appended or removed.  The
    status is written exactly when it differs and the patch, if one was sent,
    was accepted: a refused patch ends [Reconcile] before the status step.
    The status step of the GCS reconciler writes the status exactly when the
    status differs. *)
Theorem persistence_steps_of_the_reconcilers
    (gcsOriginal : GCS.GCS) (gs : GCS.State)
    (pubsubOriginal : PubSubSource.PubSubSource) (ps : PubSubSource.State) :
  let gcsPass := reconcileGCSSource gs in
  let csr := obj gcsPass.2 in
  let g := gcsReconcileLoaded gcsOriginal gs in
  let pass := reconcile ps in
  let source := obj pass.2 in
  let name := PubSubSource.finalizerName pubsubAgentName in
  let held := fun o : PubSubSource.PubSubSource =>
    sets.Has (sets.NewString (Finalizers (PubSubSource.ObjectMeta o))) name in
  let patch :=
    PubSubSource.Patch (Namespace (PubSubSource.ObjectMeta pubsubOriginal))
      (Name (PubSubSource.ObjectMeta pubsubOriginal))
      (if held source then Finalizers (PubSubSource.ObjectMeta pubsubOriginal) ++ [name]
       else sets.List (sets.Delete
              (sets.NewString (Finalizers (PubSubSource.ObjectMeta pubsubOriginal))) name))
      (ResourceVersion (PubSubSource.ObjectMeta pubsubOriginal)) in
  let p := pubsubReconcileLoaded pubsubOriginal ps in
  GCS.lister (world gcsPass.2) (Namespace (GCS.ObjectMeta csr)) (Name (GCS.ObjectMeta csr))
  = inr gcsOriginal →
  PubSubSource.lister (world pass.2) (Namespace (PubSubSource.ObjectMeta source))
    (Name (PubSubSource.ObjectMeta source)) = inr pubsubOriginal →
  (* PubSubSource *)
  (∃ persist, calls p.2 = calls pass.2 ++ persist
     ∧ (existsb PubSubSource.isPatch persist = true
        ↔ Finalizers (PubSubSource.ObjectMeta pubsubOriginal)
          ≠ Finalizers (PubSubSource.ObjectMeta source)
          ∧ held pubsubOriginal ≠ held source)
     ∧ (∀ c, c ∈ persist → PubSubSource.isPatch c = true → c = patch)
     ∧ (existsb PubSubSource.isUpdateStatus persist = true
        ↔ PubSubSource.Status pubsubOriginal ≠ PubSubSource.Status source
          ∧ (existsb PubSubSource.isPatch persist = true →
             PubSubSource.fault (world pass.2) patch = None))
     ∧ (∀ c, c ∈ persist → PubSubSource.isUpdateStatus c = true →
          c = PubSubSource.UpdateStatus
                (PubSubSource.withStatus (fun _ => PubSubSource.Status source)
                   pubsubOriginal)))
  (* GCS *)
  ∧ (∃ persist, calls g.2 = calls gcsPass.2 ++ persist
       ∧ (existsb GCS.isPersist persist = true
          ↔ GCS.Status gcsOriginal ≠ GCS.Status csr)
       ∧ (∀ c, c ∈ persist → GCS.isPersist c = true →
            c = GCS.UpdateStatus (GCS.withStatus (fun _ => GCS.Status csr) gcsOriginal))).
Proof.
  intros gcsPass csr g pass source name held patch p Hg Hp.
  split.
  - exact (reconcileLoaded_persists pubsubAgentName receiveAdapterImage GenerateSubName
             GetLabels GetLabelSelector MakeReceiveAdapter pubsubOriginal ps Hp).
  - by destruct (gcs_reconcileLoaded_persists gcsOriginal gs Hg) as (H1 & _).
Qed.

(** C7.  When the key names a record that the informer no longer has (the
    lookup answers NotFound), [Reconcile] of either reconciler returns nil,
    makes no call, neither to the provider nor to persist anything, and
    leaves everything as it was. *)
Theorem missing_record_is_dropped
    (key namespace name : string) (gcsErr pubsubErr : error)
    (gw : GCS.World) (pw : PubSubSource.World) :
  SplitMetaNamespaceKey key = inr (namespace, name) →
  GCS.lister gw namespace name = inl gcsErr →
  IsNotFound (Some gcsErr) = true →
  PubSubSource.lister pw namespace name = inl pubsubErr →
  IsNotFound (Some pubsubErr) = true →
  gcsReconcile key gw = (None, gw, [])
  ∧ pubsubReconcile key pw = (None, pw, []).
Proof.
  intros Hkey Hg Hgnf Hp Hpnf. split.
  - apply gcs_Reconcile_not_found. intros ns n Hk. exists gcsErr.
    rewrite Hkey in Hk. by simplify_eq.
  - apply pss_Reconcile_not_found. intros ns n Hk. exists pubsubErr.
    rewrite Hkey in Hk. by simplify_eq.
Qed.


End Claims.

(** * The claims on the examples *)

Lemma finalizerHeldAtCreates_forallb {C R : Type} (isCreate : C → bool)
    (finalizers : R → list string) (name : string) (tr : list (C * R)) :
  finalizerHeldAtCreates isCreate finalizers name tr →
  forallb (fun e => negb (isCreate e.1) || bool_decide (name ∈ finalizers e.2)) tr = true.
Proof.
  intros H. apply forallb_forall. intros [c record] Hin. simpl.
  destruct (isCreate c) eqn:Hc; [|done]. simpl.
  apply bool_decide_eq_true_2. apply (H c record); [|done].
  by apply list_elem_of_In.
Qed.

(** C1 as the spec states it fails on a first pass over a new record, for
    either reconciler: the pass succeeds, and its first create call (of the
    topic, of the subscription) is made on a record without the
    finalizer. *)
Lemma finalizer_before_first_create_counterexample :
  let gs := Examples.gcsStart Examples.gcsNew Examples.noFault Examples.theSink in
  let g := Examples.reconcileGCSSource gs in
  let ps := Examples.pssStart (Examples.pssRecord "topic") Examples.noFault ∅ in
  let p := Examples.reconcile ps in
  (metav1.DeletionTimestamp (GCS.ObjectMeta (obj gs)) = None
   ∧ g.1 = None
   ∧ calls g.2 !! 3 = Some (GCS.CreateTopic "proj" "gcs-uuid-0")
   ∧ ¬ finalizerHeldAtCreates GCS.isCreate
         (fun o => metav1.Finalizers (GCS.ObjectMeta o))
         (GCS.finalizerName Examples.controllerAgentName) (trace g.2))
  ∧ (metav1.DeletionTimestamp (PubSubSource.ObjectMeta (obj ps)) = None
     ∧ p.1 = None
     ∧ calls p.2 !! 3
       = Some (PubSubSource.CreateSubscription "proj" "sub-uid-1" "topic")
     ∧ ¬ finalizerHeldAtCreates PubSubSource.isCreate
           (fun o => metav1.Finalizers (PubSubSource.ObjectMeta o))
           (PubSubSource.finalizerName Examples.controllerAgentName) (trace p.2)).
Proof.
  split; (split_and!; [reflexivity|by vm_compute|by vm_compute|]);
    intros H%finalizerHeldAtCreates_forallb; vm_compute in H; discriminate H.
Qed.

Lemma finalizer_added_after_first_resource_witness :
  let gs := Examples.gcsStart Examples.gcsNew Examples.noFault Examples.theSink in
  let ps := Examples.pssStart (Examples.pssRecord "topic") Examples.noFault ∅ in
  (metav1.DeletionTimestamp (GCS.ObjectMeta (obj gs)) = None
   ∧ metav1.DeletionTimestamp (PubSubSource.ObjectMeta (obj ps)) = None)
  ∧ GCS.finalizerName Examples.controllerAgentName
    ∈ metav1.Finalizers (GCS.ObjectMeta (obj (Examples.reconcileGCSSource gs).2))
  ∧ PubSubSource.finalizerName Examples.controllerAgentName
    ∈ metav1.Finalizers (PubSubSource.ObjectMeta (obj (Examples.reconcile ps).2)).
Proof.
  intros gs ps. split; [split; reflexivity|].
  destruct (finalizer_added_after_first_resource
              Examples.controllerAgentName Examples.MakePullSubscription
              Examples.controllerAgentName Examples.receiveAdapterImage
              Examples.GenerateSubName Examples.GetLabels Examples.GetLabelSelector
              Examples.MakeReceiveAdapter gs ps eq_refl eq_refl)
    as [[_ Hg] [_ Hp]].
  split.
  - apply Hg. left. intros E.
    apply (f_equal (fun X => bool_decide (("proj", "gcs-uuid-0") ∈ X))) in E.
    vm_compute in E. discriminate E.
  - apply Hp. left. intros E.
    apply (f_equal (fun X => bool_decide (("proj", "sub-uid-1") ∈ X))) in E.
    vm_compute in E. discriminate E.
Defined.

(** C2 as the spec states it fails on the delete of a topic that exists:
    the spec asks whether the topic exists and then deletes it, the code
    deletes it without having asked. *)
Lemma delete_algorithm_counterexample :
  let gs := mkSt (GCS.setTopics {[ ("proj", "t") ]}
                    (Examples.gcsWorld Examples.gcsDeleting Examples.noFault
                       Examples.theSink))
                 Examples.gcsDeleting [] in
  let dt := GCS.deleteTopic "proj" "t" gs in
  ("proj", "t") ∈ GCS.topics (world gs)
  ∧ spec_delete "t" (inr true) None = ([AskExists; AskDelete], None)
  ∧ (gcsTopicSteps (calls dt.2), dt.1) = ([AskDelete], None)
  ∧ (gcsTopicSteps (calls dt.2), dt.1) ≠ spec_delete "t" (inr true) None.
Proof.
  split_and!; [set_solver|reflexivity|by vm_compute|].
  intros E. vm_compute in E. discriminate E.
Qed.

Lemma delete_steps_of_the_reconcilers_witness :
  let gs := Examples.gcsStart Examples.gcsDeleting Examples.notificationGone
              Examples.theSink in
  let ps := Examples.pssStart Examples.pssDeleting Examples.noFault
              {[ ("proj", "sub-uid-1") ]} in
  (GCS.deleteTopic "proj" "t" gs).1 = None
  ∧ (GCS.deleteNotification gs).1 = None
  ∧ (PubSubSource.deleteSubscription Examples.GenerateSubName ps).1 = None.
Proof.
  intros gs ps.
  destruct (delete_steps_of_the_reconcilers Examples.GenerateSubName "proj" "t" gs ps)
    as ((_ & Ht) & (_ & Hn) & (_ & Hs)).
  split_and!.
  - destruct (Ht ltac:(discriminate)) as [_ Ht'].
    destruct (Ht' eq_refl) as (_ & Hok & _). exact (Hok eq_refl).
  - destruct (Hn ltac:(discriminate)) as [_ Hn'].
    destruct (Hn' eq_refl) as (_ & _ & Hgone). exact (Hgone _ eq_refl).
  - destruct (Hs ltac:(discriminate)) as [_ Hs'].
    destruct (Hs' eq_refl) as [_ Hs''].
    destruct (Hs'' eq_refl) as [_ Hyes].
    destruct (Hyes ltac:(vm_compute; set_solver)) as (_ & Hok & _).
    exact (Hok eq_refl).
Defined.


(** Scenario A of the spec, on the example: the first [Reconcile] of a new
    record generates the name of the topic, creates the topic, the pull
    subscription and the notification, and stores the name in the status; the
    next [Reconcile], once the informer serves what was stored, creates
    nothing and stores nothing. *)
Lemma gcs_second_reconcile_creates_nothing :
  let w := Examples.gcsWorld Examples.gcsNew Examples.noFault Examples.theSink in
  let first := Examples.gcsReconcile "ns/src" w in
  let second := Examples.gcsReconcile "ns/src" (Examples.informerCaughtUp first.1.2) in
  first.1.1 = None
  ∧ List.filter GCS.isCreate first.2.*1
    = [GCS.CreateTopic "proj" "gcs-uuid-0";
       GCS.PullSubscriptionsCreate "ns"
         (Examples.MakePullSubscription
            (GCS.withStatus (GCS.setTopic "gcs-uuid-0") Examples.gcsNew) "testing");
       GCS.AddNotification "b"
         {| GCS.ID := ""; GCS.TopicProjectID := "proj"; GCS.TopicID := "gcs-uuid-0";
            GCS.PayloadFormat := GCS.JSONPayload; GCS.NEventTypes := ["finalize"];
            GCS.NObjectNamePrefix := "";
            GCS.NCustomAttributes := {[ "team" := "storage"; "ce-type" := "google.gcs" ]} |}]
  ∧ GCS.Topic ∘ GCS.Status <$> GCS.persisted first.1.2 !! ("ns", "src")
    = Some "gcs-uuid-0"
  ∧ second.1.1 = None
  ∧ second.2.*1
    = [GCS.GetSinkURI "sink" "ns"; GCS.PubsubNewClient "proj";
       GCS.TopicExists "proj" "gcs-uuid-0"; GCS.PullSubscriptionsGet "ns" "src";
       GCS.StorageNewClient; GCS.BucketNotifications "b"]
  ∧ GCS.persisted second.1.2 = GCS.persisted first.1.2.
Proof.
  split_and!; vm_compute; reflexivity.
Qed.

(** C4 as the spec states it fails when the API server refuses the patch of
    the finalizers: the status of the clone differs from the status of the
    record that was loaded, and no status is written. *)
Lemma independent_persistence_counterexample :
  let original := Examples.pssRecord "topic" in
  let ps := Examples.pssStart original Examples.patchRefused ∅ in
  let pass := Examples.reconcile ps in
  let r := Examples.pubsubReconcileLoaded original ps in
  let persist := drop (length (calls pass.2)) (calls r.2) in
  calls r.2 = calls pass.2 ++ persist
  ∧ PubSubSource.Status original ≠ PubSubSource.Status (obj pass.2)
  ∧ existsb PubSubSource.isUpdateStatus persist = false
  ∧ ¬ persistsWhatChanged original (obj pass.2) persist.
Proof.
  intros original ps pass r persist.
  assert (Hstatus : PubSubSource.Status original ≠ PubSubSource.Status (obj pass.2)).
  { intros E. apply (f_equal (fun st => length (PubSubSource.Conditions st))) in E.
    vm_compute in E. discriminate E. }
  assert (Hnone : existsb PubSubSource.isUpdateStatus persist = false)
    by (vm_compute; reflexivity).
  split_and!; [vm_compute; reflexivity|exact Hstatus|exact Hnone|].
  intros [_ [_ H]]. rewrite (H Hstatus) in Hnone. discriminate Hnone.
Qed.

Lemma persistence_steps_of_the_reconcilers_witness :
  let gcsOriginal := Examples.gcsNew in
  let gs := Examples.gcsStart gcsOriginal Examples.noFault Examples.theSink in
  let csr := obj (Examples.reconcileGCSSource gs).2 in
  let original := Examples.pssRecord "topic" in
  let ps := Examples.pssStart original Examples.noFault ∅ in
  let pass := Examples.reconcile ps in
  let source := obj pass.2 in
  (GCS.lister (world (Examples.reconcileGCSSource gs).2)
     (metav1.Namespace (GCS.ObjectMeta csr)) (metav1.Name (GCS.ObjectMeta csr))
   = inr gcsOriginal
   ∧ PubSubSource.lister (world pass.2)
       (metav1.Namespace (PubSubSource.ObjectMeta source))
       (metav1.Name (PubSubSource.ObjectMeta source)) = inr original)
  ∧ ∃ persist,
      calls (Examples.pubsubReconcileLoaded original ps).2 = calls pass.2 ++ persist
      ∧ existsb PubSubSource.isPatch persist = true.
Proof.
  intros gcsOriginal gs csr original ps pass source.
  assert (Hg : GCS.lister (world (Examples.reconcileGCSSource gs).2)
                 (metav1.Namespace (GCS.ObjectMeta csr))
                 (metav1.Name (GCS.ObjectMeta csr)) = inr gcsOriginal)
    by (vm_compute; reflexivity).
  assert (Hp : PubSubSource.lister (world pass.2)
                 (metav1.Namespace (PubSubSource.ObjectMeta source))
                 (metav1.Name (PubSubSource.ObjectMeta source)) = inr original)
    by (vm_compute; reflexivity).
  split; [by split|].
  destruct (persistence_steps_of_the_reconcilers
              Examples.controllerAgentName Examples.MakePullSubscription
              Examples.controllerAgentName Examples.receiveAdapterImage
              Examples.GenerateSubName Examples.GetLabels Examples.GetLabelSelector
              Examples.MakeReceiveAdapter gcsOriginal gs original ps Hg Hp)
    as [(persist & Hcalls & Hpatch & _) _].
  exists persist. split; [exact Hcalls|].
  apply Hpatch. split.
  - intros E. apply (f_equal length) in E. vm_compute in E. discriminate E.
  - intros E. vm_compute in E. discriminate E.
Defined.

Lemma deletion_removes_notification_and_finalizer_witness :
  let s := Examples.gcsStart Examples.gcsDeleting Examples.notificationGone
             Examples.theSink in
  let r := Examples.reconcileGCSSource s in
  (metav1.DeletionTimestamp (GCS.ObjectMeta (obj s)) ≠ None
   ∧ GCS.NotificationID (GCS.Status (obj s)) = "42")
  ∧ r.1 = None
  ∧ (∃ new, calls r.2 = calls s ++ new
       ∧ List.filter GCS.isDeleteNotification new = [GCS.DeleteNotification "b" "42"])
  ∧ GCS.Topic (GCS.Status (obj r.2)) = ""
  ∧ (GCS.finalizerName Examples.controllerAgentName
     ∉ metav1.Finalizers (GCS.ObjectMeta (obj r.2))).
Proof.
  intros s r. split; [split; [discriminate|reflexivity]|].
  assert (Hgone : ∀ e, GCS.fault (world s) (GCS.DeleteNotification "b" "42") = Some e →
                       gstatus_FromError e = Some codes.NotFound).
  { intros e [= <-]. reflexivity. }
  assert (Htopic : GCS.Topic (GCS.Status (obj s)) = ""
            ∨ (GCS.fault (world s) (GCS.PubsubNewClient "proj") = None
               ∧ ∀ e, GCS.fault (world s) (GCS.TopicDelete "proj" "t") = Some e →
                      gstatus_FromError e = Some codes.NotFound)).
  { right. split; [reflexivity|]. intros e [=]. }
  destruct (deletion_removes_notification_and_finalizer
              Examples.controllerAgentName Examples.MakePullSubscription s "42"
              ltac:(discriminate) eq_refl ltac:(discriminate) eq_refl Hgone Htopic)
    as (Hok & Hcalls & Hcleared & Hfin & _).
  by split_and!.
Defined.

(** C5 at its failing input.  A GCS record that is being deleted, with the
    notification "42" in its status and the controller's finalizer, while
    the provider answers the delete with NotFound.  [Reconcile] calls delete
    on "42" and on nothing else, takes the NotFound for success, clears the
    topic and returns nil, as the claim says; the pass removes the finalizer
    from its copy of the record.  But the one write [Reconcile] sends is the
    status of the informer's copy: the stored record has the cleared topic
    and keeps the finalizer, and the next [Reconcile], on what was stored,
    writes nothing and leaves the finalizer where it is.  The comment in
    [Reconcile] speaks of a change of "status or finalizers", and the
    PubSubSource [Reconcile], given a record that is being deleted, patches
    the finalizers: its stored record has none left.  Also, a not-found
    answer of the storage client that is not a gRPC status is not taken for
    success: [Reconcile] returns it and the record stays as it was. *)
Theorem gcs_deletion_leaves_the_stored_finalizer :
  let w := Examples.gcsWorld Examples.gcsDeleting Examples.notificationGone
             Examples.theSink in
  let pass := Examples.reconcileGCSSource (mkSt w Examples.gcsDeleting []) in
  let R := Examples.gcsReconcile "ns/src" w in
  let stored := GCS.persisted R.1.2 !! ("ns", "src") in
  let again := Examples.gcsReconcile "ns/src" (Examples.informerCaughtUp R.1.2) in
  let P := Examples.pubsubReconcile "ns/src"
             (Examples.pssWorld Examples.pssDeleting Examples.noFault
                {[ ("proj", "sub-uid-1") ]}) in
  let R' := Examples.gcsReconcile "ns/src"
              (Examples.gcsWorld Examples.gcsDeleting
                 Examples.notificationGoneWithoutStatus Examples.theSink) in
  (* the record *)
  (metav1.DeletionTimestamp (GCS.ObjectMeta Examples.gcsDeleting) ≠ None
   ∧ GCS.NotificationID (GCS.Status Examples.gcsDeleting) = "42"
   ∧ metav1.Finalizers (GCS.ObjectMeta Examples.gcsDeleting) = ["source-controller"])
  (* what the claim says and the code does *)
  ∧ (List.filter GCS.isDeleteNotification R.2.*1 = [GCS.DeleteNotification "b" "42"]
     ∧ R.1.1 = None
     ∧ GCS.Topic (GCS.Status (obj pass.2)) = ""
     ∧ metav1.Finalizers (GCS.ObjectMeta (obj pass.2)) = [])
  (* what is stored *)
  ∧ (List.filter GCS.isPersist R.2.*1
     = [GCS.UpdateStatus (GCS.withStatus (GCS.setTopic "") Examples.gcsDeleting)]
     ∧ GCS.Topic ∘ GCS.Status <$> stored = Some ""
     ∧ metav1.Finalizers ∘ GCS.ObjectMeta <$> stored = Some ["source-controller"])
  (* the next Reconcile, on what was stored *)
  ∧ (again.1.1 = None
     ∧ List.filter GCS.isPersist again.2.*1 = []
     ∧ metav1.Finalizers ∘ GCS.ObjectMeta <$> GCS.persisted again.1.2 !! ("ns", "src")
       = Some ["source-controller"])
  (* the PubSubSource reconciler, on a record that is being deleted *)
  ∧ (P.1.1 = None
     ∧ List.filter PubSubSource.isPatch P.2.*1 = [PubSubSource.Patch "ns" "src" [] "9"]
     ∧ metav1.Finalizers ∘ PubSubSource.ObjectMeta
         <$> PubSubSource.persisted P.1.2 !! ("ns", "src") = Some [])
  (* a not-found answer that is not a gRPC status *)
  ∧ (R'.1.1 = Some (errorString "googleapi: Error 404: Not Found, notFound")
     ∧ List.filter GCS.isPersist R'.2.*1 = []
     ∧ GCS.persisted R'.1.2 !! ("ns", "src") = Some Examples.gcsDeleting).
Proof.
  split_and!; try discriminate; vm_compute; reflexivity.
Qed.

(** C6 at its failing input.  A new GCS record whose sink does not exist:
    [Reconcile] returns the error of the resolution and adds no finalizer,
    but sets no condition, neither in memory nor in what is stored ([MarkNoSink]
    is commented out in [reconcileGCSSource], under a TODO).  The
    PubSubSource reconciler, given the same, sets the condition of the sink
    to False with the reason "NotFound". *)
Theorem gcs_unresolved_sink_sets_no_condition :
  let w := Examples.gcsWorld Examples.gcsNew Examples.noFault ∅ in
  let g := Examples.reconcileGCSSource (mkSt w Examples.gcsNew []) in
  let R := Examples.gcsReconcile "ns/src" w in
  let p := Examples.reconcile
             (Examples.pssStart (Examples.pssRecord "topic") Examples.sinkGone ∅) in
  (metav1.DeletionTimestamp (GCS.ObjectMeta Examples.gcsNew) = None
   ∧ g.1 = Some (APIStatus metav1.StatusReasonNotFound "sink not found")
   ∧ getCondition SinkProvided (GCS.Conditions (GCS.Status (obj g.2))) = None
   ∧ GCS.Status (obj g.2) = GCS.Status Examples.gcsNew
   ∧ metav1.Finalizers (GCS.ObjectMeta (obj g.2)) = []
   ∧ R.1.1 = g.1
   ∧ R.2.*1 = [GCS.GetSinkURI "sink" "ns"]
   ∧ GCS.Conditions ∘ GCS.Status <$> GCS.persisted R.1.2 !! ("ns", "src") = Some [])
  ∧ (p.1 = Some Examples.notFoundError
     ∧ getCondition SinkProvided
         (PubSubSource.Conditions (PubSubSource.Status (obj p.2)))
       = Some (mkCondition SinkProvided ConditionFalse "NotFound" "")
     ∧ metav1.Finalizers (PubSubSource.ObjectMeta (obj p.2)) = []).
Proof.
  split; split_and!; vm_compute; reflexivity.
Qed.

Lemma missing_record_is_dropped_witness :
  let gw := Examples.gcsWorld Examples.gcsNew Examples.noFault Examples.theSink in
  let pw := Examples.pssWorld (Examples.pssRecord "topic") Examples.noFault ∅ in
  (SplitMetaNamespaceKey "ns/gone" = inr ("ns", "gone")
   ∧ GCS.lister gw "ns" "gone" = inl Examples.notFoundError
   ∧ PubSubSource.lister pw "ns" "gone" = inl Examples.notFoundError
   ∧ IsNotFound (Some Examples.notFoundError) = true)
  ∧ Examples.gcsReconcile "ns/gone" gw = (None, gw, [])
  ∧ Examples.pubsubReconcile "ns/gone" pw = (None, pw, []).
Proof.
  intros gw pw.
  assert (Hkey : SplitMetaNamespaceKey "ns/gone" = inr ("ns", "gone"))
    by (vm_compute; reflexivity).
  assert (Hnf : IsNotFound (Some Examples.notFoundError) = true)
    by (vm_compute; reflexivity).
  split; [by split_and!|].
  exact (missing_record_is_dropped
           Examples.controllerAgentName Examples.MakePullSubscription
           Examples.controllerAgentName Examples.receiveAdapterImage
           Examples.GenerateSubName Examples.GetLabels Examples.GetLabelSelector
           Examples.MakeReceiveAdapter "ns/gone" "ns" "gone"
           Examples.notFoundError Examples.notFoundError gw pw
           Hkey eq_refl Hnf eq_refl Hnf).
Defined.



Lemma notification_carries_ce_type_witness :
  let w := Examples.gcsWorld Examples.gcsNew Examples.noFault Examples.theSink in
  (SplitMetaNamespaceKey "ns/src" = inr ("ns", "src")
   ∧ GCS.lister w "ns" "src" = inr Examples.gcsNew
   ∧ GCS.CustomAttributes (GCS.Spec Examples.gcsNew) !! "ce-type" = Some "user.type")
  ∧ ∃ bucket n csr,
      (GCS.AddNotification bucket n, csr) ∈ (Examples.gcsReconcile "ns/src" w).2
      ∧ GCS.NCustomAttributes n !! "ce-type" = Some "google.gcs"
      ∧ GCS.NCustomAttributes n !! "team" = Some "storage"
      ∧ GCS.Spec csr = GCS.Spec Examples.gcsNew.
Proof.
  intros w.
  assert (Hkey : SplitMetaNamespaceKey "ns/src" = inr ("ns", "src"))
    by (vm_compute; reflexivity).
  split; [split_and!; [exact Hkey|reflexivity|vm_compute; reflexivity]|].
  assert (Hev : ∃ bucket n csr,
            (Examples.gcsReconcile "ns/src" w).2 !! 8
            = Some (GCS.AddNotification bucket n, csr)).
  { vm_compute. eexists _, _, _. reflexivity. }
  destruct Hev as (bucket & n & csr & Hev). apply list_elem_of_lookup_2 in Hev.
  destruct (notification_carries_ce_type
              Examples.controllerAgentName Examples.MakePullSubscription
              "ns/src" "ns" "src" w Examples.gcsNew Hkey eq_refl _ _ Hev)
    as [Hspec Hattrs].
  destruct (Hattrs bucket n eq_refl) as (Htype & Hothers & _).
  exists bucket, n, csr. split_and!; [exact Hev|exact Htype| |exact Hspec].
  rewrite Hothers by discriminate. vm_compute. reflexivity.
Defined.

Lemma finalizer_operations_idempotent_sets_witness :
  GCS.addFinalizer "source-controller"
    (GCS.addFinalizer "source-controller" Examples.gcsDeleting)
  = GCS.addFinalizer "source-controller" Examples.gcsDeleting
  ∧ "source-controller"
    ∉ metav1.Finalizers (PubSubSource.ObjectMeta
        (PubSubSource.removeFinalizer "source-controller" Examples.pssDeleting)).
Proof.
  destruct (finalizer_operations_idempotent_sets "source-controller"
              Examples.gcsDeleting Examples.pssDeleting)
    as ((Hadd & _) & _ & (_ & _ & _ & Hremoved) & _).
  by split.
Defined.

(** What the GCS [Reconcile] leaves of a record that is being deleted and
    owns nothing any more: the pass removes the finalizer from the record in
    memory, nothing is written, and the stored record keeps the finalizer. *)
Lemma gcs_finalizer_removal_is_not_persisted :
  let w := Examples.gcsWorld Examples.gcsDeletingBare Examples.noFault Examples.theSink in
  let pass := Examples.reconcileGCSSource (mkSt w Examples.gcsDeletingBare []) in
  let R := Examples.gcsReconcile "ns/src" w in
  metav1.Finalizers (GCS.ObjectMeta Examples.gcsDeletingBare) = ["source-controller"]
  ∧ metav1.Finalizers (GCS.ObjectMeta (obj pass.2)) = []
  ∧ R.1.1 = None
  ∧ List.filter GCS.isPersist R.2.*1 = []
  ∧ metav1.Finalizers ∘ GCS.ObjectMeta <$> GCS.persisted R.1.2 !! ("ns", "src")
    = Some ["source-controller"].
Proof.
  split_and!; vm_compute; reflexivity.
Qed.

(** * Further properties of the code *)

(** ** The storage job *)

Section OperationsProperties.
Import operations.

Lemma foldl_snoc_fmap {A B} (f : A → B) (l : list A) (acc : list B) :
  foldl (fun acc x => acc ++ [f x]) acc l = acc ++ (f <$> l).
Proof.
  revert acc. induction l as [|x l IH]; intros acc; simpl.
  - by rewrite app_nil_r.
  - rewrite IH. by rewrite <- app_assoc.
Qed.

Lemma toStorageEventTypes_fmap (eventTypes : list string) :
  toStorageEventTypes eventTypes
  = match eventTypes with
    | [] => ["OBJECT_FINALIZE"]
    | _ => (fun eventType => default "" (storageEventTypes !! eventType)) <$> eventTypes
    end.
Proof.
  unfold toStorageEventTypes. rewrite foldl_snoc_fmap. simpl.
  destruct eventTypes; simpl; [done|]. done.
Qed.

(** The event types of the table, and no other, have a storage type. *)
Lemma storageEventTypes_known (eventType : string) :
  is_Some (storageEventTypes !! eventType)
  ↔ eventType ∈ ["finalize"; "archive"; "delete"; "metadataUpdate"].
Proof.
  unfold storageEventTypes. rewrite !elem_of_cons, elem_of_nil.
  split.
  - intros [v Hv].
    repeat (apply lookup_insert_Some in Hv; destruct Hv as [[<- _]|[_ Hv]]; [tauto|]).
    apply lookup_singleton_Some in Hv. destruct Hv as [<- _]. tauto.
  - intros [->|[->|[->|[->|[]]]]]; vm_compute; eauto.
Qed.

(** X1.  [toStorageEventTypes] never returns an empty list: no event type
    at all gives ["OBJECT_FINALIZE"] alone; otherwise the result has one
    storage type for each event type, in the order given, which is the entry
    of the table, or the empty string when the table has none. *)
Theorem toStorageEventTypes_shape (eventTypes : list string) :
  toStorageEventTypes eventTypes ≠ []
  ∧ length (toStorageEventTypes eventTypes) = max 1 (length eventTypes)
  ∧ (eventTypes = [] → toStorageEventTypes eventTypes = ["OBJECT_FINALIZE"])
  ∧ (∀ i eventType, eventTypes !! i = Some eventType →
       toStorageEventTypes eventTypes !! i
       = Some (default "" (storageEventTypes !! eventType))).
Proof.
  rewrite toStorageEventTypes_fmap.
  destruct eventTypes as [|t l]; [by split_and!|].
  split_and!; [done|by rewrite length_fmap|done|].
  intros i eventType Hi. by rewrite list_lookup_fmap, Hi.
Qed.

(** X2.  An event type that the table does not have is neither refused nor
    dropped: it becomes an empty storage type.  The result holds an empty
    string exactly when some event type given is not one of "finalize",
    "archive", "delete" and "metadataUpdate". *)
Theorem toStorageEventTypes_unknown (eventTypes : list string) :
  "" ∈ toStorageEventTypes eventTypes
  ↔ ∃ eventType, eventType ∈ eventTypes
      ∧ eventType ∉ ["finalize"; "archive"; "delete"; "metadataUpdate"].
Proof.
  rewrite toStorageEventTypes_fmap.
  destruct eventTypes as [|t l].
  { split; [|by intros (? & ?%elem_of_nil & _)].
    intros H. apply list_elem_of_singleton in H. discriminate H. }
  rewrite list_elem_of_fmap. split.
  - intros (eventType & Hempty & Hin). exists eventType. split; [done|].
    intros Hknown. apply storageEventTypes_known in Hknown.
    destruct Hknown as [v Hv]. rewrite Hv in Hempty. simpl in Hempty. subst v.
    unfold storageEventTypes in Hv.
    repeat (apply lookup_insert_Some in Hv; destruct Hv as [[_ [=]]|[_ Hv]]).
    apply lookup_singleton_Some in Hv. by destruct Hv as [_ [=]].
  - intros (eventType & Hin & Hunknown). exists eventType. split; [|done].
    destruct (storageEventTypes !! eventType) as [v|] eqn:Hv; [|done].
    exfalso. apply Hunknown. apply storageEventTypes_known. eauto.
Qed.

Lemma storageEventTypes_inj (t1 t2 : string) (v : string) :
  storageEventTypes !! t1 = Some v → storageEventTypes !! t2 = Some v → t1 = t2.
Proof.
  intros H1 H2.
  assert (Hcases : ∀ t w, storageEventTypes !! t = Some w →
            (t, w) ∈ [("finalize", "OBJECT_FINALIZE"); ("archive", "OBJECT_ARCHIVE");
                      ("delete", "OBJECT_DELETE");
                      ("metadataUpdate", "OBJECT_METADATA_UPDATE")]).
  { intros t w Hw. unfold storageEventTypes in Hw.
    repeat (apply lookup_insert_Some in Hw; destruct Hw as [[<- <-]|[_ Hw]];
            [set_solver|]).
    apply lookup_singleton_Some in Hw. destruct Hw as [<- <-]. set_solver. }
  apply Hcases in H1, H2. clear Hcases.
  rewrite !elem_of_cons, elem_of_nil in H1, H2.
  destruct H1 as [H1|[H1|[H1|[H1|[]]]]], H2 as [H2|[H2|[H2|[H2|[]]]]];
    simplify_eq; done.
Qed.

(** X3.  On event types of the table the translation loses nothing but one
    distinction: two lists have the same storage types only if they are the
    same list, or one is empty and the other is "finalize" alone. *)
Theorem toStorageEventTypes_inj (l1 l2 : list string) :
  Forall (fun t => is_Some (storageEventTypes !! t)) l1 →
  Forall (fun t => is_Some (storageEventTypes !! t)) l2 →
  toStorageEventTypes l1 = toStorageEventTypes l2 →
  l1 = l2 ∨ (l1 = [] ∧ l2 = ["finalize"]) ∨ (l1 = ["finalize"] ∧ l2 = []).
Proof.
  assert (Hmap : ∀ la lb : list string,
    Forall (fun t => is_Some (storageEventTypes !! t)) la →
    Forall (fun t => is_Some (storageEventTypes !! t)) lb →
    (fun t => default "" (storageEventTypes !! t)) <$> la
    = (fun t => default "" (storageEventTypes !! t)) <$> lb → la = lb).
  { induction la as [|a la' IH]; intros [|b lb'] H1 H2 E; simpl in E; try done.
    apply Forall_cons in H1, H2.
    destruct H1 as [[va Ha] H1'], H2 as [[vb Hb] H2'].
    injection E as Eh Et. rewrite Ha, Hb in Eh. simpl in Eh. subst vb.
    f_equal; [by eapply storageEventTypes_inj|by apply IH]. }
  assert (Hfin : ∀ l : list string,
    Forall (fun t => is_Some (storageEventTypes !! t)) l →
    ["OBJECT_FINALIZE"] = (fun t => default "" (storageEventTypes !! t)) <$> l →
    l = ["finalize"]).
  { intros l Hl E. symmetry. apply (Hmap ["finalize"] l); [|done|done].
    constructor; [|done]. vm_compute. eauto. }
  intros H1 H2. rewrite !toStorageEventTypes_fmap.
  destruct l1 as [|a l1'], l2 as [|b l2']; intros E.
  - by left.
  - right. left. split; [done|]. by apply Hfin.
  - right. right. split; [|done]. by apply Hfin.
  - left. by apply Hmap.
Qed.

End OperationsProperties.

Section NewJobOpsProperties.
Import operations.
Variable ActionCreate ActionDelete : string.
Variable PodTemplateSpec OwnerReference : Type.
Variable MakePodTemplate :
  string -> string -> string -> SecretKeySelector -> list EnvVar -> PodTemplateSpec.
Variable SchedulerJobName : OwnerRefable -> string -> string.
Variable SchedulerJobLabels : OwnerRefable -> string -> gmap string string.
Variable NewControllerRef : OwnerRefable -> OwnerReference.

(** X4.  The environment [NewJobOps] gives to the job.  The pod template
    is made of the image, the UID, the action and the secret of the
    arguments and of that environment.  No variable is set twice; ACTION,
    PROJECT_ID and BUCKET come first, with the values of the arguments; the
    prefix of object names is never handed over.  The variables that the
    tags of [JobOps] require are all set exactly when the action is
    [ActionCreate]: a job for any other action, delete among them, is
    started without PUBSUB_TOPIC_ID. *)
Theorem NewJobOps_environment (arg : JobArgs) :
  let env := newJobEnv ActionCreate ActionDelete arg in
  let job := NewJobOps ActionCreate ActionDelete PodTemplateSpec OwnerReference
               MakePodTemplate SchedulerJobName SchedulerJobLabels NewControllerRef arg in
  Template job = MakePodTemplate (Image arg) (UID arg) (Action arg) (Secret arg) env
  ∧ NoDup (Name <$> env)
  ∧ take 3 env = [mkEnvVar "ACTION" (Action arg);
                  mkEnvVar "PROJECT_ID" (ProjectID arg);
                  mkEnvVar "BUCKET" (Bucket arg)]
  ∧ "OBJECT_NAME_PREFIX" ∉ Name <$> env
  ∧ ((∀ variable, (variable, true) ∈ jobOpsEnvconfig → variable ∈ Name <$> env)
     ↔ Action arg = ActionCreate).
Proof.
  intros env job. subst env job. unfold NewJobOps, newJobEnv. simpl.
  assert (Hrequired : ("PUBSUB_TOPIC_ID", true) ∈ jobOpsEnvconfig)
    by (by apply (bool_decide_unpack _)).
  destruct (decide (Action arg = ActionCreate)) as [Hc|Hc];
    [|destruct (decide (Action arg = ActionDelete)) as [Hd|Hd]]; simpl.
  all: split_and!; [done
                   |by apply (bool_decide_unpack _)
                   |done
                   |by apply (bool_decide_unpack _)
                   |].
  - split; [done|]. intros _ variable Hv.
    unfold jobOpsEnvconfig in Hv.
    repeat (apply elem_of_cons in Hv; destruct Hv as [Heq|Hv];
            [simplify_eq; by apply (bool_decide_unpack _)|]).
    by apply elem_of_nil in Hv.
  - split; [|done]. intros Hall. specialize (Hall _ Hrequired).
    by apply (bool_decide_pack _) in Hall.
  - split; [|done]. intros Hall. specialize (Hall _ Hrequired).
    by apply (bool_decide_pack _) in Hall.
Qed.

End NewJobOpsProperties.

(** ** The GCS reconciler, further *)

Section GCSFurther.
Variable controllerAgentName : string.
Variable MakePullSubscription : GCS.GCS -> string -> GCS.PullSubscription.
Import metav1 GCS.

Abbreviation reconcilePubSub := (GCS.reconcilePubSub MakePullSubscription).
Abbreviation reconcileGCSSource :=
  (GCS.reconcileGCSSource controllerAgentName MakePullSubscription).
Abbreviation reconcileLoaded :=
  (GCS.reconcileLoaded controllerAgentName MakePullSubscription).
Abbreviation Reconcile := (GCS.Reconcile controllerAgentName MakePullSubscription).

(** X14.  [reconcilePubSub] gets or creates, and never updates.  A pull
    subscription that exists under the name of the record is returned as it
    is, whatever its topic and its sink, after the one call that gets it.
    When the get answers NotFound, the pull subscription that
    [MakePullSubscription] makes of the record, in mode "testing", is
    created, and the outcome of the create is returned.  Any other error of
    the get is returned and nothing is created. *)
Theorem reconcilePubSub_get_or_create (s : State) :
  let csr := obj s in
  let namespace := Namespace (ObjectMeta csr) in
  let get := PullSubscriptionsGet namespace (Name (ObjectMeta csr)) in
  let pubsub := MakePullSubscription csr "testing" in
  let r := reconcilePubSub s in
  (∀ existing,
     fault (world s) get = None →
     pullSubscriptions (world s) !! (namespace, Name (ObjectMeta csr)) = Some existing →
     r = (inr existing, mkSt (world s) csr (trace s ++ [(get, csr)])))
  ∧ (∀ e, fault (world s) get = Some e → IsNotFound (Some e) = false →
       r = (inl e, mkSt (world s) csr (trace s ++ [(get, csr)])))
  ∧ ((fault (world s) get = None
      ∧ pullSubscriptions (world s) !! (namespace, Name (ObjectMeta csr)) = None)
     ∨ (∃ e, fault (world s) get = Some e ∧ IsNotFound (Some e) = true) →
     calls r.2 = calls s ++ [get; PullSubscriptionsCreate namespace pubsub]
     ∧ obj r.2 = csr
     ∧ (∀ e, fault (world s) (PullSubscriptionsCreate namespace pubsub) = Some e →
             r.1 = inl e ∧ world r.2 = world s)
     ∧ (fault (world s) (PullSubscriptionsCreate namespace pubsub) = None →
        pullSubscriptions (world s) !! (namespace, psName pubsub) = None →
        r.1 = inr pubsub
        ∧ pullSubscriptions (world r.2)
          = <[(namespace, psName pubsub) := pubsub]> (pullSubscriptions (world s)))).
Proof.
  intros csr namespace get pubsub r. subst csr namespace get pubsub r.
  open GCS.reconcilePubSub. unfold calls. gcs_unfold. simpl.
  destruct s as [w csr tr]. simpl.
  repeat gcs_step; rewrite ?fmap_app, <- ?app_assoc; simpl.
  all: repeat (first [progress split_and! | progress intros]);
    destruct_or?; destruct_and?; simplify_eq; try done.
  all: try (match goal with H : ∃ _, _ |- _ => destruct H as (? & ? & ?) end;
            simplify_eq; done).
Qed.

(** X15.  When [MakePullSubscription] names the pull subscription after
    the record, [reconcilePubSub] creates it once: after a call that has
    returned a pull subscription, a second call on the same record, against
    an API server that has the same pull subscriptions and answers the get,
    returns the same pull subscription after that one get and creates
    nothing. *)
Theorem reconcilePubSub_creates_once (s : State) (ps : PullSubscription) :
  let csr := obj s in
  let namespace := Namespace (ObjectMeta csr) in
  let get := PullSubscriptionsGet namespace (Name (ObjectMeta csr)) in
  let r := reconcilePubSub s in
  psName (MakePullSubscription csr "testing") = Name (ObjectMeta csr) →
  r.1 = inr ps →
  ∀ s2 : State,
    obj s2 = csr →
    pullSubscriptions (world s2) = pullSubscriptions (world r.2) →
    fault (world s2) get = None →
    reconcilePubSub s2 = (inr ps, mkSt (world s2) csr (trace s2 ++ [(get, csr)])).
Proof.
  intros csr namespace get r Hname Hr. subst csr namespace get r.
  assert (Hhas : pullSubscriptions (world (reconcilePubSub s).2)
                 !! (Namespace (ObjectMeta (obj s)), Name (ObjectMeta (obj s)))
                 = Some ps).
  { revert Hr. open GCS.reconcilePubSub. gcs_unfold. simpl.
    repeat gcs_step; intros [=]; subst; try done;
      match goal with
      | H : <[_ := _]> _ !! _ = _ |- _ =>
          rewrite Hname, lookup_insert_eq in H; congruence
      end. }
  intros s2 Hobj Hsame Hget. destruct s2 as [w2 o2 t2]. simpl in *. subst o2.
  rewrite <- Hsame in Hhas.
  open GCS.reconcilePubSub. gcs_unfold. simpl. rewrite Hget. simpl.
  by rewrite Hhas.
Qed.

(** X16.  [reconcileNotification] gets or creates.  When the status has
    the identifier of a notification that the bucket has, that notification
    is returned after the client is made and the notifications are listed,
    and nothing is added.  When the status has no identifier, or one that
    the bucket does not have any more, a notification is added for the
    record's project and topic, with the event types and the prefix of the
    spec, and the one the bucket answers with is returned; the bucket then
    has it under its identifier. *)
Theorem reconcileNotification_get_or_create (s : State) :
  let gcs := obj s in
  let bucket := Bucket (Spec gcs) in
  let id := NotificationID (Status gcs) in
  let existing := bucketNotifications (world s) bucket in
  let add := AddNotification bucket (notificationOf gcs) in
  let r := reconcileNotification s in
  fault (world s) StorageNewClient = None →
  fault (world s) (BucketNotifications bucket) = None →
  (∀ n, id ≠ "" → existing !! id = Some n →
        r = (inr n, mkSt (world s) gcs
                      (trace s ++ [(StorageNewClient, gcs);
                                   (BucketNotifications bucket, gcs)])))
  ∧ (id = "" ∨ existing !! id = None →
     calls r.2 = calls s ++ [StorageNewClient; BucketNotifications bucket; add]
     ∧ obj r.2 = gcs
     ∧ (∀ e, fault (world s) add = Some e → r.1 = inl e ∧ world r.2 = world s)
     ∧ (fault (world s) add = None →
        ∃ created,
          r.1 = inr created
          ∧ created = withID (newNotificationID (world s) existing) (notificationOf gcs)
          ∧ bucketNotifications (world r.2) bucket !! ID created = Some created)).
Proof.
  intros gcs bucket id existing add r Hclient Hlist.
  subst gcs bucket id existing add r. unfold notificationOf.
  open GCS.reconcileNotification. unfold calls. gcs_unfold. simpl.
  pose proof (buildCustomAttributes_spec (CustomAttributes (Spec (obj s)))) as Hb.
  destruct (buildCustomAttributes _) as [a h]. simpl in Hb. destruct Hb as [Hb1 Hb2].
  rewrite Hclient. simpl. rewrite Hlist. simpl. rewrite ?Hb1, ?Hb2, ?withSpec_id.
  destruct s as [w gcs tr]. simpl in *.
  split.
  - intros n Hid Hn. rewrite decide_True by done. rewrite Hn. simpl.
    by rewrite <- !app_assoc.
  - intros Hnone.
    assert (Hlook : (if decide (NotificationID (Status gcs) ≠ "")
                     then bucketNotifications w (Bucket (Spec gcs))
                          !! NotificationID (Status gcs)
                     else None) = None).
    { destruct Hnone as [Hempty|Hnone]; [|by destruct (decide _)].
      rewrite decide_False; [done|]. intros H. by apply H. }
    rewrite Hlook. simpl. rewrite ?Hb1, ?Hb2, ?withSpec_id. simpl.
    destruct (fault w (AddNotification _ _)) as [e|] eqn:Hadd; simpl;
      rewrite !fmap_app, <- ?app_assoc; simpl; rewrite ?withSpec_id.
    + split_and!; [done|done| |done]. by intros e' [= <-].
    + split_and!; [done|done|done|]. intros _. eexists. split_and!; [done|done|].
      unfold bucketNotifications. simpl. rewrite lookup_insert_eq. simpl.
      by rewrite lookup_insert_eq.
Qed.

(** X17.  [updateStatus] writes the status on the informer's copy of the
    record.  An error of the informer is returned and nothing is written.
    When the informer's copy has the desired status already, that copy is
    returned and no call is made.  Otherwise one write is sent, of the
    informer's copy with the desired status in place of its own: a refused
    write is returned as the error and nothing is stored; an accepted write
    returns a record with the desired status, and is followed by one report
    of readiness exactly when the desired status is ready and the
    informer's was not.  What the report answers is not returned.  The
    record of the pass is not touched. *)
Theorem gcs_updateStatus_writes (desired : GCS) (s : State) :
  let read := lister (world s) (Namespace (ObjectMeta desired)) (Name (ObjectMeta desired)) in
  let r := GCS.updateStatus desired s in
  (∀ e, read = inl e → r = (inl e, s))
  ∧ (∀ source, read = inr source →
       let update := UpdateStatus (withStatus (fun _ => Status desired) source) in
       let report := ReportReady (Namespace (ObjectMeta source)) (Name (ObjectMeta source)) in
       let becomesReady := IsReady (Status desired) && negb (IsReady (Status source)) in
       (Status source = Status desired → r = (inr source, s))
       ∧ (Status source ≠ Status desired →
          obj r.2 = obj s
          ∧ (∀ e, fault (world s) update = Some e →
                  r.1 = inl e ∧ calls r.2 = calls s ++ [update] ∧ world r.2 = world s)
          ∧ (fault (world s) update = None →
             (∃ src, r.1 = inr src ∧ Status src = Status desired)
             ∧ calls r.2
               = calls s ++ (if becomesReady then [update; report] else [update])))).
Proof.
  intros read r. subst read r.
  open GCS.updateStatus. unfold calls. gcs_unfold. simpl.
  split.
  { intros e0 ->. by destruct s. }
  intros source ->. simpl. split.
  - intros Heq. rewrite decide_True by done. by destruct s.
  - intros Hne. rewrite decide_False by done. simpl.
    destruct (fault (world s) (UpdateStatus _)) as [e0|] eqn:Hu; simpl.
    + split_and!; [done| |done]. intros e' [= <-]. by rewrite fmap_app.
    + destruct (IsReady (Status desired) && negb (IsReady (Status source))); simpl;
        repeat gcs_step; rewrite ?fmap_app, <- ?app_assoc; simpl;
        (split_and!; [done|done|]); intros _; (split; [|done]);
        eexists; (split; [reflexivity|done]).
Qed.

(** X18.  A pass over a record that is being deleted deletes the
    notification, then the topic, and only then clears the topic of the
    status and removes the finalizer.  Whether the sink resolves does not
    matter, and nothing is created: its calls are the resolution of the sink
    and those of the two deletes.  When it returns an error the record is as
    it was.  When it returns no error and the provider has answered no call
    with NotFound of its own accord, the bucket no longer has the
    notification of the status and the project no longer has its topic. *)
Theorem gcs_deleting_pass_removes_finalizer_last (s : State) :
  let r := reconcileGCSSource s in
  let bucket := Bucket (Spec (obj s)) in
  let id := NotificationID (Status (obj s)) in
  let project := GoogleCloudProject (Spec (obj s)) in
  let topic := Topic (Status (obj s)) in
  DeletionTimestamp (ObjectMeta (obj s)) ≠ None →
  (∃ new, calls r.2 = calls s ++ new
     ∧ Forall (fun c => match c with
                        | GetSinkURI _ _ | StorageNewClient | DeleteNotification _ _
                        | PubsubNewClient _ | TopicDelete _ _ => True
                        | _ => False
                        end) new)
  ∧ (is_Some r.1 → obj r.2 = obj s)
  ∧ (r.1 = None →
     obj r.2 = GCS.removeFinalizer controllerAgentName (withStatus (setTopic "") (obj s))
     ∧ ((∀ c e, fault (world s) c = Some e →
                gstatus_FromError e ≠ Some codes.NotFound) →
        (id ≠ "" → bucketNotifications (world r.2) bucket !! id = None)
        ∧ (topic ≠ "" → (project, topic) ∉ topics (world r.2)))).
Proof.
  intros r bucket id project topic Hdel. subst r bucket id project topic.
  destruct s as [w csr tr]. simpl in *.
  open GCS.reconcileGCSSource. open GCS.deleteNotification. open GCS.deleteTopic.
  unfold calls. gcs_unfold. simpl.
  destruct (fault w (GetSinkURI _ _)) as [e0|] eqn:Hsink; simpl;
    [|destruct (sinks w !! _) as [uri|] eqn:Huri; simpl];
    (destruct (decide (DeletionTimestamp (ObjectMeta csr) = None)); [done|]);
    (destruct (decide (DeletionTimestamp (ObjectMeta csr) ≠ None)); [|done]);
    simpl.
  all: repeat gcs_step; rewrite ?fmap_app, <- ?app_assoc; simpl.
  all: split_and!;
    [eexists; split; [reflexivity|]; by repeat constructor
    |first [by intros [? [=]] | by intros _]
    |first [by intros [=] | intros _; split; [done|]]].
  all: intros Hhonest; split; intros Hne; try done; simpl.
  all: try (exfalso;
            match goal with
            | Hf : fault _ _ = Some ?e1, Hc : gstatus_FromError ?e1 = Some ?c,
              Hn : ¬ ?c ≠ codes.NotFound |- _ =>
                apply (Hhonest _ _ Hf); rewrite Hc; f_equal;
                by destruct (decide (c = codes.NotFound))
            end).
  all: try (by rewrite lookup_delete_eq).
  all: try (apply not_elem_of_difference; right; by apply elem_of_singleton).
  all: exfalso; unfold bucketNotifications in *; simpl in *.
  all: rewrite ?lookup_insert_eq in *; simpl in *.
  all: rewrite ?lookup_delete_eq in *; congruence.
Qed.

(** What the three steps of a pass leave when they succeed. *)
Lemma reconcileTopic_post (s : State) :
  let r := reconcileTopic s in
  r.1 = None →
  ObjectMeta (obj r.2) = ObjectMeta (obj s)
  ∧ Spec (obj r.2) = Spec (obj s)
  ∧ SinkURI (Status (obj r.2)) = SinkURI (Status (obj s))
  ∧ NotificationID (Status (obj r.2)) = NotificationID (Status (obj s))
  ∧ Topic (Status (obj r.2)) ≠ ""
  ∧ (Topic (Status (obj s)) ≠ "" → Topic (Status (obj r.2)) = Topic (Status (obj s)))
  ∧ (GoogleCloudProject (Spec (obj s)), Topic (Status (obj r.2))) ∈ topics (world r.2)
  ∧ pullSubscriptions (world r.2) = pullSubscriptions (world s)
  ∧ notifications (world r.2) = notifications (world s)
  ∧ sinks (world r.2) = sinks (world s).
Proof.
  destruct s as [w [m sp [cs u t n]] tr].
  open reconcileTopic. gcs_unfold. simpl.
  repeat gcs_step; try done; intros _; split_and!; try done.
  all: apply elem_of_union; right; by apply elem_of_singleton.
Qed.

Lemma reconcilePubSub_post (s : State) (ps : PullSubscription) :
  let r := reconcilePubSub s in
  r.1 = inr ps →
  obj r.2 = obj s
  ∧ topics (world r.2) = topics (world s)
  ∧ notifications (world r.2) = notifications (world s)
  ∧ ∃ name, pullSubscriptions (world r.2) !! (Namespace (ObjectMeta (obj s)), name)
            = Some ps.
Proof.
  open GCS.reconcilePubSub. gcs_unfold. simpl.
  repeat gcs_step; try done; intros [= <-]; split_and!; try done.
  all: eexists; first [eassumption | apply lookup_insert_eq].
Qed.

Lemma reconcileNotification_post (s : State) (n : Notification) :
  let r := reconcileNotification s in
  r.1 = inr n →
  obj r.2 = obj s
  ∧ topics (world r.2) = topics (world s)
  ∧ pullSubscriptions (world r.2) = pullSubscriptions (world s)
  ∧ ∃ key, bucketNotifications (world r.2) (Bucket (Spec (obj s))) !! key = Some n
           ∧ (key = NotificationID (Status (obj s)) ∨ key = ID n).
Proof.
  open reconcileNotification. gcs_unfold. simpl.
  pose proof (buildCustomAttributes_spec (CustomAttributes (Spec (obj s)))) as Hb.
  destruct (buildCustomAttributes _) as [a h]. simpl in Hb. destruct Hb as [Hb1 Hb2].
  simpl. rewrite ?Hb1, ?Hb2, ?withSpec_id.
  repeat gcs_step; rewrite ?withSpec_id; try done; intros [= <-]; split_and!; try done.
  all: eexists; split;
    [first [eassumption
           |unfold bucketNotifications; simpl; rewrite lookup_insert_eq; simpl;
            apply lookup_insert_eq]
    |first [by left | by right]].
Qed.

(** Replace a call of a step by its result, with what is known of it. *)
Tactic Notation "gcs_then" constr(f) constr(lem) "as" ident(r) ident(s') ident(H) :=
  match goal with
  | |- context [f ?s0] =>
      pose proof (lem s0) as H; cbv zeta in H;
      destruct (f s0) as [r s']; simpl in H
  end.

(** X19.  What a pass that is not a deletion and returns no error leaves
    behind.  The sink has resolved and its address is in the status; the
    status names a topic, the one it named before if it named one, and the
    project has that topic; the controller's finalizer is on the record; a
    pull subscription exists in the namespace of the record; and the bucket
    has a notification whose identifier is the one in the status. *)
Theorem gcs_successful_pass_holds_its_resources (s : State) :
  let r := reconcileGCSSource s in
  let before := obj s in
  let after := obj r.2 in
  let w := world r.2 in
  DeletionTimestamp (ObjectMeta before) = None →
  r.1 = None →
  sinks (world s) !! (Namespace (ObjectMeta before), Sink (Spec before))
  = Some (SinkURI (Status after))
  ∧ Topic (Status after) ≠ ""
  ∧ (Topic (Status before) ≠ "" → Topic (Status after) = Topic (Status before))
  ∧ (GoogleCloudProject (Spec after), Topic (Status after)) ∈ topics w
  ∧ GCS.finalizerName controllerAgentName ∈ Finalizers (ObjectMeta after)
  ∧ (∃ name ps, pullSubscriptions w !! (Namespace (ObjectMeta after), name) = Some ps)
  ∧ (∃ key n, bucketNotifications w (Bucket (Spec after)) !! key = Some n
              ∧ ID n = NotificationID (Status after)).
Proof.
  intros r before after w Hlive. subst r before after w.
  assert (Hheld : ∀ (l : list string) (name : string),
            name ∈ sets.List (sets.Insert (sets.NewString l) name)).
  { intros l name. rewrite elem_of_sets_List. unfold sets.Insert. set_solver. }
  destruct s as [w csr tr]. simpl in *.
  open GCS.reconcileGCSSource. open GCS.addFinalizer.
  gcs_unfold. simpl.
  destruct (fault w (GetSinkURI _ _)) as [e0|] eqn:Hsink; simpl;
    [|destruct (sinks w !! _) as [uri|] eqn:Huri; simpl];
    (destruct (decide (DeletionTimestamp (ObjectMeta csr) = None)); [|done]);
    try done;
    (destruct (decide (DeletionTimestamp (ObjectMeta csr) ≠ None)); [done|]);
    simpl.
  gcs_then reconcileTopic reconcileTopic_post as err1 s1 H1.
  destruct err1 as [err1|]; simpl; [done|].
  destruct (H1 eq_refl) as (Hm1 & Hsp1 & _ & Hid1 & Hne1 & Hsame1 & Hin1 & Hps1 & Hn1 & _).
  gcs_then (GCS.reconcilePubSub MakePullSubscription) reconcilePubSub_post as r2 s2 H2.
  destruct r2 as [err2|pubsub]; simpl; [done|].
  destruct (H2 pubsub eq_refl) as (Ho2 & Ht2 & Hn2 & name & Hps2).
  clear H1 H2.
  destruct (psReady pubsub); simpl;
    gcs_then reconcileNotification reconcileNotification_post as r3 s3 H3;
    (destruct r3 as [err3|notification]; simpl; [done|]);
    destruct (H3 notification eq_refl) as (Ho3 & Ht3 & Hps3 & key & Hkey & _);
    clear H3; intros _; rewrite Ho3 in *; rewrite Ho2 in *; simpl in *;
    rewrite ?Hsp1, ?Hm1 in *; rewrite ?Ht3, ?Ht2, ?Hps3;
    (split_and!; [done|done|done|done|by apply Hheld|by eauto|by eauto]).
Qed.

(** X20.  The error [Reconcile] returns once the pass has run.  When the
    pass has changed neither the status nor the metadata, it is the error of
    the pass and nothing more is done.  Otherwise the record is read from
    the informer again: an error of that read is returned in place of the
    error of the pass; when the status read equals the one of the pass
    nothing is written and the error of the pass is returned; when it
    differs, an error of the write is returned in place of the error of the
    pass, and after an accepted write the error of the pass is returned,
    whatever the report of readiness has answered. *)
Theorem gcs_error_of_the_write_comes_first (original : GCS) (s : State) :
  let pass := reconcileGCSSource s in
  let csr := obj pass.2 in
  let r := reconcileLoaded original s in
  let changed := Status original ≠ Status csr ∨ ObjectMeta original ≠ ObjectMeta csr in
  let read := lister (world pass.2) (Namespace (ObjectMeta csr)) (Name (ObjectMeta csr)) in
  (¬ changed → r = pass)
  ∧ (changed →
     (∀ e, read = inl e → r = (Some e, pass.2))
     ∧ (∀ source, read = inr source →
          let update := UpdateStatus (withStatus (fun _ => Status csr) source) in
          (Status source = Status csr → r = pass)
          ∧ (Status source ≠ Status csr →
             (∀ e, fault (world pass.2) update = Some e → r.1 = Some e)
             ∧ (fault (world pass.2) update = None → r.1 = pass.1)))).
Proof.
  intros pass csr r changed read. subst r changed read csr pass.
  open GCS.reconcileLoaded. open GCS.updateStatus. gcs_unfold. simpl.
  destruct (GCS.reconcileGCSSource _ _ s) as [err s1]. simpl.
  destruct (decide (Status original = Status (obj s1)
                    ∧ ObjectMeta original = ObjectMeta (obj s1))) as [[Hs Hm]|Hdiff]; simpl.
  { split; [by destruct s1|]. intros [H|H]; by destruct H. }
  split.
  { intros Hsame. exfalso. apply Hsame.
    destruct (decide (Status original = Status (obj s1))); [|by left].
    destruct (decide (ObjectMeta original = ObjectMeta (obj s1))); [|by right].
    by destruct Hdiff. }
  intros _. split.
  - intros e0 ->. simpl. by destruct s1.
  - intros source ->. simpl. split.
    + intros Heq. rewrite decide_True by done. simpl. by destruct s1.
    + intros Hne. rewrite decide_False by done. simpl.
      split.
      * intros e0 He0. rewrite He0. by simpl.
      * intros Hok. rewrite Hok. simpl.
        by repeat gcs_step.
Qed.

(** X21.  Of the record it is given, a pass changes the status and the
    presence of the controller's own finalizer, and nothing else: the spec
    and every other field of the metadata are as they were, and every other
    finalizer is on the record afterwards exactly when it was before. *)
Theorem gcs_pass_keeps_the_rest_of_the_record (s : State) :
  let r := reconcileGCSSource s in
  let before := ObjectMeta (obj s) in
  let after := ObjectMeta (obj r.2) in
  Spec (obj r.2) = Spec (obj s)
  ∧ after = withFinalizers (Finalizers after) before
  ∧ ∀ other, other ≠ GCS.finalizerName controllerAgentName →
      (other ∈ Finalizers after ↔ other ∈ Finalizers before).
Proof.
  intros r before after. subst r before after.
  assert (Hadd : ∀ (l : list string) (name other : string), other ≠ name →
            (other ∈ sets.List (sets.Insert (sets.NewString l) name) ↔ other ∈ l)).
  { intros l name other Hne. rewrite elem_of_sets_List. unfold sets.Insert.
    rewrite elem_of_union, elem_of_sets_NewString. set_solver. }
  assert (Hremove : ∀ (l : list string) (name other : string), other ≠ name →
            (other ∈ sets.List (sets.Delete (sets.NewString l) name) ↔ other ∈ l)).
  { intros l name other Hne. rewrite elem_of_sets_List. unfold sets.Delete.
    rewrite elem_of_difference, elem_of_sets_NewString. set_solver. }
  assert (Hmeta : ∀ m : metav1.ObjectMeta, m = withFinalizers (Finalizers m) m)
    by (by intros []).
  destruct s as [w csr tr]. simpl.
  open GCS.reconcileGCSSource. open GCS.addFinalizer. open GCS.removeFinalizer.
  gcs_unfold. simpl.
  destruct (fault w (GetSinkURI _ _)) as [e0|] eqn:Hsink; simpl;
    [|destruct (sinks w !! _) as [uri|] eqn:Huri; simpl];
    destruct (decide (DeletionTimestamp (ObjectMeta csr) = None)) as [Hdel|Hdel];
    simpl;
    try (destruct (decide (DeletionTimestamp (ObjectMeta csr) ≠ None)) as [Hdel'|Hdel'];
         [try (by destruct Hdel')|try (by destruct Hdel')]);
    simpl.
  1,5: by split_and!.
  1,3,4: gcs_then deleteNotification deleteNotification_run as err1 s1 H1;
    destruct H1 as (Ho1 & _);
    (destruct err1; simpl;
      [|match goal with |- context [deleteTopic ?p ?t ?s0] =>
          gcs_then (deleteTopic p t) (deleteTopic_run p t) as err2 s2 H2 end;
        destruct H2 as (Ho2 & _); destruct err2; simpl]);
    rewrite ?Ho2, ?Ho1; simpl;
    (split_and!; [done|first [apply Hmeta|done]|]);
    intros other Hother; first [done | by apply Hremove].
  gcs_then reconcileTopic reconcileTopic_run as err1 s1 H1.
  destruct H1 as (Hm1 & Hsp1 & _).
  destruct err1; simpl.
  { rewrite Hm1, Hsp1. by split_and!. }
  gcs_then (GCS.reconcilePubSub MakePullSubscription)
    (reconcilePubSub_run MakePullSubscription) as r2 s2 H2.
  destruct H2 as (Ho2 & _).
  destruct r2 as [err|pubsub]; simpl.
  { rewrite Ho2. simpl. rewrite Hm1, Hsp1.
    split_and!; [done|done|]. intros other Hother. by apply Hadd. }
  destruct (psReady pubsub); simpl;
    gcs_then reconcileNotification reconcileNotification_run as r3 s3 H3;
    destruct H3 as (Ho3 & _);
    (destruct r3 as [err|notification]; simpl;
     rewrite Ho3; simpl; rewrite Ho2; simpl; rewrite Hm1, Hsp1;
     (split_and!; [done|done|]); intros other Hother; by apply Hadd).
Qed.

End GCSFurther.

(** ** The PubSubSource reconciler, further *)

Section PubSubSourceFurther.
Variable controllerAgentName : string.
Variable receiveAdapterImage : string.
Variable GenerateSubName : PubSubSource.PubSubSource -> string.
Variable GetLabels : string -> string -> gmap string string.
Variable GetLabelSelector : string -> string -> gmap string string.
Variable MakeReceiveAdapter : PubSubSource.ReceiveAdapterArgs -> PubSubSource.Deployment.
Import metav1 PubSubSource.

Abbreviation createSubscription := (PubSubSource.createSubscription GenerateSubName).
Abbreviation deleteSubscription := (PubSubSource.deleteSubscription GenerateSubName).
Abbreviation getReceiveAdapter :=
  (PubSubSource.getReceiveAdapter controllerAgentName GetLabelSelector).
Abbreviation createReceiveAdapter :=
  (PubSubSource.createReceiveAdapter controllerAgentName receiveAdapterImage
     GetLabels GetLabelSelector MakeReceiveAdapter).
Abbreviation reconcile :=
  (PubSubSource.reconcile controllerAgentName receiveAdapterImage GenerateSubName
     GetLabels GetLabelSelector MakeReceiveAdapter).
Abbreviation reconcileLoaded :=
  (PubSubSource.reconcileLoaded controllerAgentName receiveAdapterImage GenerateSubName
     GetLabels GetLabelSelector MakeReceiveAdapter).
Abbreviation Reconcile :=
  (PubSubSource.Reconcile controllerAgentName receiveAdapterImage GenerateSubName
     GetLabels GetLabelSelector MakeReceiveAdapter).
Abbreviation candidates := (candidates controllerAgentName GetLabelSelector).
Abbreviation receiveAdapterOf :=
  (receiveAdapterOf controllerAgentName receiveAdapterImage GetLabels MakeReceiveAdapter).

(** One case split, also on the transformer of the spec and on what the
    informer has. *)
Ltac pss_split :=
  first [pss_step
        |match goal with
         | |- context [Transformer ?x] => destruct (Transformer x) eqn:?
         | |- context [lister ?w ?a ?b] => destruct (lister w a b) eqn:?
         end; simpl in *].

(** X5.  [createSubscription] gets or creates.  When it returns a
    subscription, that is the one [GenerateSubName] names for the record, and
    the project has it; called again on the same record against a provider
    that has the same subscriptions and answers the client creation and the
    existence check, it asks those two questions, creates nothing, changes
    nothing and returns the same subscription. *)
Theorem createSubscription_get_or_create (s : State) (id : string) :
  let project := ProjectID (Status (obj s)) in
  let r := createSubscription s in
  r.1 = inr id →
  id = GenerateSubName (obj s)
  ∧ (project, id) ∈ subscriptions (world r.2)
  ∧ obj r.2 = obj s
  ∧ ∀ s2 : State,
      obj s2 = obj s →
      subscriptions (world s2) = subscriptions (world r.2) →
      fault (world s2) (PubSubClientCreator project) = None →
      fault (world s2) (SubscriptionExists project id) = None →
      createSubscription s2
      = (inr id,
         mkSt (world s2) (obj s2)
           (trace s2 ++ [(PubSubClientCreator project, obj s2);
                         (SubscriptionExists project id, obj s2)])).
Proof.
  clear controllerAgentName receiveAdapterImage GetLabels GetLabelSelector
    MakeReceiveAdapter.
  intros project r Hr. subst project r.
  assert (Hfirst : id = GenerateSubName (obj s)
            ∧ (ProjectID (Status (obj s)), id)
              ∈ subscriptions (world (createSubscription s).2)
            ∧ obj (createSubscription s).2 = obj s
            ∧ ProjectID (Status (obj s)) ≠ ""
            ∧ Topic (Spec (obj s)) ≠ "").
  { revert Hr. open PubSubSource.createSubscription. pss_unfold. simpl.
    repeat pss_step; intros [=]; subst; split_and!; try done; set_solver. }
  destruct Hfirst as (-> & Hin & Hobj & Hproject & Htopic).
  split_and!; [done|done|done|].
  intros s2 Hobj2 Hsubs Hclient Hexists.
  destruct s2 as [w2 o2 t2]. simpl in *. subst o2.
  open PubSubSource.createSubscription. pss_unfold. simpl.
  rewrite !decide_False by done. simpl. rewrite Hclient. simpl.
  rewrite Hexists. simpl. rewrite bool_decide_eq_true_2 by (by rewrite Hsubs).
  simpl. by rewrite <- !app_assoc.
Qed.

(** X6.  [resolveProjectID]: a project in the spec is used as it is and the
    metadata server is not asked; with no project in the spec the metadata
    server is asked once, and its answer is used; when it fails, its error
    is dropped, the error returned is "project is required but not set" and
    the record is as it was. *)
Theorem resolveProjectID_sources (s : State) :
  let r := PubSubSource.resolveProjectID s in
  (Project (Spec (obj s)) ≠ "" →
     r = (None, mkSt (world s)
                  (withStatus (setProjectID (Project (Spec (obj s)))) (obj s))
                  (trace s)))
  ∧ (Project (Spec (obj s)) = "" →
     calls r.2 = calls s ++ [MetadataProjectID]
     ∧ world r.2 = world s
     ∧ (fault (world s) MetadataProjectID = None →
          r.1 = None
          ∧ obj r.2 = withStatus (setProjectID (metadataProject (world s))) (obj s))
     ∧ (is_Some (fault (world s) MetadataProjectID) →
          r.1 = Some (errorString "project is required but not set")
          ∧ obj r.2 = obj s)).
Proof.
  open PubSubSource.resolveProjectID. unfold calls. pss_unfold. simpl. split.
  - intros Hp. by rewrite decide_True.
  - intros Hp. rewrite decide_False by (intros H; by apply H). simpl.
    destruct (fault (world s) MetadataProjectID) eqn:Hf; simpl;
      rewrite fmap_app; split_and!; try done; try (by intros [? [=]]).
Qed.

(** X7.  An existing receive adapter is reused as it is.  When one of the
    deployments of the namespace that carry the labels of the selector is
    controlled by the record, [createReceiveAdapter] lists the deployments,
    returns the first such deployment and creates nothing, whatever the
    subscription, the sink and the transformer it is called with.  When the
    list fails with an error other than NotFound, that error is returned and
    nothing is created either. *)
Theorem createReceiveAdapter_reuses
    (subscriptionID sinkURI transformerURI : string) (s : State) :
  let src := obj s in
  let list := DeploymentsList (Namespace (ObjectMeta src))
                (GetLabelSelector controllerAgentName (Name (ObjectMeta src))) in
  let r := createReceiveAdapter subscriptionID sinkURI transformerURI s in
  (∀ ra, fault (world s) list = None →
         List.find (fun dep => IsControlledBy dep src) (candidates (world s) src)
         = Some ra →
         r = (inr ra, mkSt (world s) src (trace s ++ [(list, src)])))
  ∧ (∀ e, fault (world s) list = Some e → IsNotFound (Some e) = false →
          r = (inl e, mkSt (world s) src (trace s ++ [(list, src)]))).
Proof.
  intros src list r. subst src list r.
  open PubSubSource.createReceiveAdapter. open PubSubSource.getReceiveAdapter.
  unfold candidates. pss_unfold. simpl. split.
  - intros ra Hf Hfind. rewrite Hf. simpl. rewrite Hfind. simpl. by destruct s.
  - intros e Hf Hnf. rewrite Hf. simpl. rewrite Hnf. simpl. by destruct s.
Qed.

(** X8.  With no receive adapter to reuse, [createReceiveAdapter] creates
    the deployment [MakeReceiveAdapter] makes of the image, the record, the
    labels, the subscription, the sink and the transformer, and returns it,
    or the error of the create.  If the deployment so made is controlled by
    the record and carries the labels of the selector, a second call, with
    any arguments, finds it: it lists the deployments and creates
    nothing. *)
Theorem createReceiveAdapter_creates_once
    (subscriptionID sinkURI transformerURI : string) (s : State) :
  let src := obj s in
  let namespace := Namespace (ObjectMeta src) in
  let list := DeploymentsList namespace
                (GetLabelSelector controllerAgentName (Name (ObjectMeta src))) in
  let dp := receiveAdapterOf src subscriptionID sinkURI transformerURI in
  let r := createReceiveAdapter subscriptionID sinkURI transformerURI s in
  fault (world s) list = None →
  List.find (fun dep => IsControlledBy dep src) (candidates (world s) src) = None →
  calls r.2 = calls s ++ [list; DeploymentsCreate namespace dp]
  ∧ obj r.2 = src
  ∧ (∀ e, fault (world s) (DeploymentsCreate namespace dp) = Some e →
          r.1 = inl e ∧ world r.2 = world s)
  ∧ (fault (world s) (DeploymentsCreate namespace dp) = None →
     r.1 = inr dp
     ∧ namespaceDeployments (world r.2) namespace
       = namespaceDeployments (world s) namespace ++ [dp]
     ∧ (IsControlledBy dp src = true →
        GetLabelSelector controllerAgentName (Name (ObjectMeta src)) ⊆ dpLabels dp →
        ∀ subscriptionID' sinkURI' transformerURI' (s2 : State),
          obj s2 = src →
          deployments (world s2) = deployments (world r.2) →
          fault (world s2) list = None →
          createReceiveAdapter subscriptionID' sinkURI' transformerURI' s2
          = (inr dp, mkSt (world s2) src (trace s2 ++ [(list, src)])))).
Proof.
  intros src namespace list dp r Hf Hnone. subst src namespace list dp r.
  unfold receiveAdapterOf.
  open PubSubSource.createReceiveAdapter. open PubSubSource.getReceiveAdapter.
  unfold candidates, calls in *. pss_unfold. simpl.
  rewrite Hf. simpl. rewrite Hnone. simpl.
  destruct (fault (world s) (DeploymentsCreate _ _)) as [e|] eqn:Hc; simpl;
    rewrite !fmap_app, <- ?app_assoc; simpl.
  { split_and!; [done|done| |done]. by intros e' [= <-]. }
  split_and!; [done|done|done|]. intros _. split_and!; [done| |].
  { unfold namespaceDeployments. simpl. by rewrite lookup_insert_eq. }
  intros Hctl Hlabels subscriptionID' sinkURI' transformerURI' s2 Hobj Hdeps Hlist.
  destruct s2 as [w2 o2 t2]. simpl in *. subst o2.
  rewrite Hlist. simpl.
  assert (Hns : namespaceDeployments w2 (Namespace (ObjectMeta (obj s)))
                = namespaceDeployments (world s) (Namespace (ObjectMeta (obj s)))
                  ++ [MakeReceiveAdapter
                        {| Image := receiveAdapterImage; Source := obj s;
                           Labels := GetLabels controllerAgentName
                                       (Name (ObjectMeta (obj s)));
                           SubscriptionID := subscriptionID;
                           ArgSinkURI := sinkURI;
                           TransformerURI := transformerURI |}]).
  { unfold namespaceDeployments. rewrite Hdeps. simpl. by rewrite lookup_insert_eq. }
  rewrite Hns, filter_app. rewrite filter_cons_True by done. rewrite filter_nil.
  rewrite find_snoc, Hnone, Hctl. done.
Qed.

(** X9.  A pass over a record that is being deleted resolves the project,
    deletes the subscription and only then removes the finalizer.  It never
    resolves the sink and never creates or lists anything: its calls are
    those of the metadata server and of the subscription.  When it returns
    no error the controller's finalizer is off the record and the project no
    longer has the subscription; when it returns an error the metadata of
    the record, finalizers included, are as they were. *)
Theorem deleting_pass_removes_finalizer_last (s : State) :
  let r := reconcile s in
  DeletionTimestamp (ObjectMeta (obj s)) ≠ None →
  (∃ new, calls r.2 = calls s ++ new
     ∧ Forall (fun c => match c with
                        | MetadataProjectID | PubSubClientCreator _
                        | SubscriptionExists _ _ | SubscriptionDelete _ _ => True
                        | _ => False
                        end) new)
  ∧ (r.1 = None →
       (PubSubSource.finalizerName controllerAgentName
        ∉ Finalizers (ObjectMeta (obj r.2)))
       ∧ ∃ src, obj r.2 = PubSubSource.removeFinalizer controllerAgentName src
           ∧ ObjectMeta src = ObjectMeta (obj s)
           ∧ Spec src = Spec (obj s)
           ∧ ((ProjectID (Status src), GenerateSubName src)
              ∉ subscriptions (world r.2)))
  ∧ (is_Some r.1 → ObjectMeta (obj r.2) = ObjectMeta (obj s)).
Proof.
  intros r Hdel. subst r.
  open PubSubSource.reconcile. open PubSubSource.resolveProjectID.
  unfold calls. pss_unfold. simpl.
  assert (Hgone : ∀ src : PubSubSource,
            PubSubSource.finalizerName controllerAgentName
            ∉ Finalizers (ObjectMeta (PubSubSource.removeFinalizer controllerAgentName src))).
  { intros src. open PubSubSource.removeFinalizer. simpl.
    rewrite elem_of_sets_List. unfold sets.Delete. set_solver. }
  destruct (decide (Project (Spec (obj s)) ≠ "")) as [Hp|Hp]; simpl;
    [|destruct (fault (world s) MetadataProjectID) eqn:Hm; simpl];
    try (rewrite decide_True by exact Hdel);
    simpl.
  2: { rewrite fmap_app. simpl. split_and!; [|done|done].
       eexists; split; [reflexivity|]. by repeat constructor. }
  all: open PubSubSource.deleteSubscription; pss_unfold; simpl;
    repeat pss_step; rewrite ?fmap_app, <- ?app_assoc; simpl;
    (split_and!;
     [first [eexists; split; [reflexivity|]; by repeat constructor
            |exists []; split; [by rewrite app_nil_r|constructor]]
     |first [by intros [=]
            |intros _; split; [apply Hgone|];
             eexists; split; [reflexivity|]; split_and!; [done|done|]; simpl;
             set_solver]
     |first [by intros [? [=]] | by intros _]]).
Qed.

(** X10.  What [Reconcile] returns once the pass has run, and the events it
    records.  A write to the API server that is refused, the patch of the
    finalizers or the update of the status, ends [Reconcile] with the error
    of the refusal, whatever the pass returned; when the informer has the
    record and every write is accepted, [Reconcile] returns what the pass
    returned.  It records exactly one event of type Warning when it returns
    an error, and none when it returns nil. *)
Theorem reconcileLoaded_error_and_warning (original : PubSubSource) (s : State) :
  let pass := reconcile s in
  let source := obj pass.2 in
  let r := reconcileLoaded original s in
  ∃ persist, calls r.2 = calls pass.2 ++ persist
    ∧ length (List.filter isWarning persist) = match r.1 with Some _ => 1 | None => 0 end
    ∧ (∀ c e, c ∈ persist → isPatch c = true ∨ isUpdateStatus c = true →
         fault (world pass.2) c = Some e → r.1 = Some e)
    ∧ ((∃ x, lister (world pass.2) (Namespace (ObjectMeta source))
               (Name (ObjectMeta source)) = inr x) →
       (∀ c, c ∈ persist → isPatch c = true ∨ isUpdateStatus c = true →
             fault (world pass.2) c = None) →
       r.1 = pass.1).
Proof.
  intros pass source r. subst r source pass.
  open PubSubSource.reconcileLoaded. open PubSubSource.updateFinalizers.
  open PubSubSource.updateStatus. unfold calls. pss_unfold. simpl.
  destruct (PubSubSource.reconcile _ _ _ _ _ _ s) as [reconcileErr s1]. simpl.
  repeat pss_split.
  all: rewrite ?fmap_app, <- ?app_assoc; simpl;
    (first [eexists; split; [reflexivity|]
           | exists []; split; [by rewrite app_nil_r|]]);
    simpl; split_and!.
  all: try done.
  all: try (intros c e' Hc Hk Hf';
            repeat (apply elem_of_cons in Hc; destruct Hc as [->|Hc];
                    [simpl in Hk; first [by destruct Hk | congruence]|]);
            by apply elem_of_nil in Hc).
  all: intros [x Hx] Hall; try discriminate Hx; exfalso;
    match goal with
    | Hf : fault _ ?c = Some _ |- _ =>
        rewrite (Hall c) in Hf;
        [discriminate Hf
        |rewrite !elem_of_cons; tauto
        |simpl; tauto]
    end.
Qed.

(** X11.  What a pass that succeeds leaves, and what only such a pass
    does.  When a pass over a record that is not being deleted returns no
    error, the status has the generation of the record as observed
    generation, the record has the controller's finalizer, the project of the
    status has the subscription named for the record and the namespace has a
    deployment.  A pass that returns an error, and a pass over a record that
    is being deleted, leave the observed generation as it was. *)
Theorem successful_pass_observes_generation (s : State) :
  let r := reconcile s in
  let namespace := Namespace (ObjectMeta (obj s)) in
  (r.1 = None → DeletionTimestamp (ObjectMeta (obj s)) = None →
     ObservedGeneration (Status (obj r.2)) = Generation (ObjectMeta (obj s))
     ∧ PubSubSource.finalizerName controllerAgentName
       ∈ Finalizers (ObjectMeta (obj r.2))
     ∧ (∃ src, ObjectMeta src = ObjectMeta (obj s) ∧ Spec src = Spec (obj s)
          ∧ (ProjectID (Status (obj r.2)), GenerateSubName src)
            ∈ subscriptions (world r.2))
     ∧ namespaceDeployments (world r.2) namespace ≠ [])
  ∧ (is_Some r.1 ∨ DeletionTimestamp (ObjectMeta (obj s)) ≠ None →
     ObservedGeneration (Status (obj r.2)) = ObservedGeneration (Status (obj s))).
Proof.
  intros r namespace. subst r namespace.
  assert (Hheld : ∀ (l : list string) (name : string),
            name ∈ sets.List (sets.Insert (sets.NewString l) name)).
  { intros l name. rewrite elem_of_sets_List. unfold sets.Insert. set_solver. }
  open PubSubSource.reconcile. open PubSubSource.resolveProjectID.
  open PubSubSource.deleteSubscription. open PubSubSource.createSubscription.
  open PubSubSource.createReceiveAdapter. open PubSubSource.getReceiveAdapter.
  open PubSubSource.addFinalizer. open PubSubSource.removeFinalizer.
  pss_unfold. simpl.
  repeat pss_split.
  all: (split; [|try (intros [[? [=]]|Hd]; done)]).
  all: try (by intros [=]).
  all: intros _ Hnd; try done.
  all: split_and!; try done; try apply Hheld.
  all: try (match goal with
            | |- context [{[ (_, GenerateSubName ?x) ]}] => exists x
            | H : (_, GenerateSubName ?x) ∈ _ |- ∃ _, _ => exists x
            end; split_and!; [done|done|set_solver]).
  all: unfold namespaceDeployments in *; simpl; rewrite ?lookup_insert_eq; simpl;
    try intros E. all: try done.
  all: try (
    first [by apply app_nil in E as [_ [=]]
          |match goal with
           | Hfind : List.find _ (filter _ _) = Some _ |- _ =>
               simpl in Hfind; rewrite E in Hfind; discriminate Hfind
           end]).
Qed.

(** X12.  What the receive adapter is deployed with.  Every deployment a
    pass creates is the one [MakeReceiveAdapter] makes of the reconciler's
    image, of the record as it is then (with the spec it came with and
    under the controller's finalizer), of the labels of the controller and
    the record's name, of a subscription that the project has by then, of the
    URI the sink of the spec resolves to and of the URI the transformer of
    the spec resolves to, empty when the spec has no transformer; it is
    created in the namespace of the record. *)
Theorem receive_adapter_is_made_of (s : State) :
  let r := reconcile s in
  let namespace := Namespace (ObjectMeta (obj s)) in
  ∀ new ns dp, calls r.2 = calls s ++ new → DeploymentsCreate ns dp ∈ new →
    ns = namespace
    ∧ ∃ args,
        dp = MakeReceiveAdapter args
        ∧ Image args = receiveAdapterImage
        ∧ Spec (Source args) = Spec (obj s)
        ∧ PubSubSource.finalizerName controllerAgentName
          ∈ Finalizers (ObjectMeta (Source args))
        ∧ Labels args = GetLabels controllerAgentName (Name (ObjectMeta (obj s)))
        ∧ (ProjectID (Status (obj r.2)), SubscriptionID args)
          ∈ subscriptions (world r.2)
        ∧ sinks (world s) !! (namespace, Sink (Spec (obj s))) = Some (ArgSinkURI args)
        ∧ match Transformer (Spec (obj s)) with
          | Some transformer =>
              sinks (world s) !! (namespace, transformer) = Some (TransformerURI args)
          | None => TransformerURI args = ""
          end.
Proof.
  intros r namespace. subst r namespace.
  assert (Hheld : ∀ (l : list string) (name : string),
            name ∈ sets.List (sets.Insert (sets.NewString l) name)).
  { intros l name. rewrite elem_of_sets_List. unfold sets.Insert. set_solver. }
  open PubSubSource.reconcile. open PubSubSource.resolveProjectID.
  open PubSubSource.deleteSubscription. open PubSubSource.createSubscription.
  open PubSubSource.createReceiveAdapter. open PubSubSource.getReceiveAdapter.
  open PubSubSource.addFinalizer. open PubSubSource.removeFinalizer.
  unfold calls. pss_unfold. simpl.
  repeat pss_split.
  all: intros new ns dp Hnew Hin;
    rewrite ?fmap_app, <- ?app_assoc in Hnew; simpl in Hnew;
    (first [apply app_inv_head in Hnew | apply app_self_nil in Hnew]);
    subst new;
    repeat (apply elem_of_cons in Hin; destruct Hin as [Hin|Hin];
            [try discriminate Hin|]);
    try (by apply elem_of_nil in Hin).
  all: injection Hin as -> ->; split; [done|];
    eexists; split; [reflexivity|]; simpl;
    match goal with
    | H : Transformer _ = _ |- _ => rewrite ?H
    end;
    split_and!; try done; try apply Hheld; set_solver.
Qed.

(** X13.  Of the record it is given, a pass changes the status and the
    presence of the controller's own finalizer, and nothing else: the spec
    and every other field of the metadata are as they were, and every other
    finalizer is on the record afterwards exactly when it was before. *)
Theorem pass_keeps_the_rest_of_the_record (s : State) :
  let r := reconcile s in
  let before := ObjectMeta (obj s) in
  let after := ObjectMeta (obj r.2) in
  Spec (obj r.2) = Spec (obj s)
  ∧ after = withFinalizers (Finalizers after) before
  ∧ ∀ other, other ≠ PubSubSource.finalizerName controllerAgentName →
      (other ∈ Finalizers after ↔ other ∈ Finalizers before).
Proof.
  intros r before after. subst r before after.
  assert (Hadd : ∀ (l : list string) (name other : string), other ≠ name →
            (other ∈ sets.List (sets.Insert (sets.NewString l) name) ↔ other ∈ l)).
  { intros l name other Hne. rewrite elem_of_sets_List. unfold sets.Insert.
    rewrite elem_of_union, elem_of_sets_NewString. set_solver. }
  assert (Hremove : ∀ (l : list string) (name other : string), other ≠ name →
            (other ∈ sets.List (sets.Delete (sets.NewString l) name) ↔ other ∈ l)).
  { intros l name other Hne. rewrite elem_of_sets_List. unfold sets.Delete.
    rewrite elem_of_difference, elem_of_sets_NewString. set_solver. }
  assert (Hmeta : ∀ m : metav1.ObjectMeta, m = withFinalizers (Finalizers m) m)
    by (by intros []).
  open PubSubSource.reconcile. open PubSubSource.resolveProjectID.
  open PubSubSource.deleteSubscription. open PubSubSource.createSubscription.
  open PubSubSource.createReceiveAdapter. open PubSubSource.getReceiveAdapter.
  open PubSubSource.addFinalizer. open PubSubSource.removeFinalizer.
  pss_unfold. simpl.
  repeat pss_split.
  all: split_and!; [done|first [apply Hmeta | done]|];
    intros other Hother; first [done | by apply Hadd | by apply Hremove].
Qed.

(** X22.  [updateStatus] writes the status on the informer's copy of the
    record.  An error of the informer is returned and nothing is written.
    When the informer's copy has the desired status already, that copy is
    returned and no call is made.  Otherwise one write is sent, of the
    informer's copy with the desired status in place of its own: a refused
    write is returned as the error and nothing is stored; an accepted write
    returns a record with the desired status, and is followed by one report
    of readiness exactly when the desired status is ready and the
    informer's was not.  What the report answers is not returned.  The
    record of the pass is not touched. *)
Theorem pubsub_updateStatus_writes (desired : PubSubSource) (s : State) :
  let read := lister (world s) (Namespace (ObjectMeta desired)) (Name (ObjectMeta desired)) in
  let r := PubSubSource.updateStatus desired s in
  (∀ e, read = inl e → r = (inl e, s))
  ∧ (∀ source, read = inr source →
       let update := UpdateStatus (withStatus (fun _ => Status desired) source) in
       let report := ReportReady (Namespace (ObjectMeta source)) (Name (ObjectMeta source)) in
       let becomesReady := IsReady (Status desired) && negb (IsReady (Status source)) in
       (Status source = Status desired → r = (inr source, s))
       ∧ (Status source ≠ Status desired →
          obj r.2 = obj s
          ∧ (∀ e, fault (world s) update = Some e →
                  r.1 = inl e ∧ calls r.2 = calls s ++ [update] ∧ world r.2 = world s)
          ∧ (fault (world s) update = None →
             (∃ src, r.1 = inr src ∧ Status src = Status desired)
             ∧ calls r.2
               = calls s ++ (if becomesReady then [update; report] else [update])))).
Proof.
  intros read r. subst read r.
  open PubSubSource.updateStatus. unfold calls. pss_unfold. simpl.
  split.
  { intros e0 ->. by destruct s. }
  intros source ->. simpl. split.
  - intros Heq. rewrite decide_True by done. by destruct s.
  - intros Hne. rewrite decide_False by done. simpl.
    destruct (fault (world s) (UpdateStatus _)) as [e0|] eqn:Hu; simpl.
    + split_and!; [done| |done]. intros e' [= <-]. by rewrite fmap_app.
    + destruct (IsReady (Status desired) && negb (IsReady (Status source))); simpl;
        repeat pss_step; rewrite ?fmap_app, <- ?app_assoc; simpl;
        (split_and!; [done|done|]); intros _; (split; [|done]);
        eexists; (split; [reflexivity|done]).
Qed.

End PubSubSourceFurther.

(** ** The further properties on the examples *)

Lemma toStorageEventTypes_inj_witness :
  let l1 : list string := [] in
  let l2 := ["finalize"] in
  operations.toStorageEventTypes l1 = operations.toStorageEventTypes l2
  ∧ (l1 = l2 ∨ (l1 = [] ∧ l2 = ["finalize"]) ∨ (l1 = ["finalize"] ∧ l2 = [])).
Proof.
  intros l1 l2. split; [reflexivity|].
  apply (toStorageEventTypes_inj l1 l2).
  - constructor.
  - repeat constructor. exists "OBJECT_FINALIZE". vm_compute. reflexivity.
  - reflexivity.
Defined.

Lemma createSubscription_get_or_create_witness :
  let s := Examples.pssStart Examples.pssDeleting Examples.noFault ∅ in
  let r := PubSubSource.createSubscription Examples.GenerateSubName s in
  r.1 = inr "sub-uid-1"
  ∧ ("proj", "sub-uid-1") ∈ PubSubSource.subscriptions (world r.2).
Proof.
  intros s r.
  assert (Hr : r.1 = inr "sub-uid-1") by (vm_compute; reflexivity).
  split; [exact Hr|].
  destruct (createSubscription_get_or_create Examples.GenerateSubName s "sub-uid-1" Hr)
    as (_ & Hin & _).
  exact Hin.
Defined.

Lemma createReceiveAdapter_creates_once_witness :
  let s := Examples.pssStart (Examples.pssRecord "topic") Examples.noFault ∅ in
  let r := PubSubSource.createReceiveAdapter Examples.controllerAgentName
             Examples.receiveAdapterImage Examples.GetLabels Examples.GetLabelSelector
             Examples.MakeReceiveAdapter "sub-uid-1" "http://sink" "" s in
  calls r.2
  = calls s ++ [PubSubSource.DeploymentsList "ns"
                  (Examples.GetLabelSelector Examples.controllerAgentName "src");
                PubSubSource.DeploymentsCreate "ns"
                  (receiveAdapterOf Examples.controllerAgentName
                     Examples.receiveAdapterImage Examples.GetLabels
                     Examples.MakeReceiveAdapter (obj s) "sub-uid-1" "http://sink" "")].
Proof.
  intros s r.
  destruct (createReceiveAdapter_creates_once Examples.controllerAgentName
              Examples.receiveAdapterImage Examples.GetLabels Examples.GetLabelSelector
              Examples.MakeReceiveAdapter "sub-uid-1" "http://sink" "" s)
    as (Hcalls & _).
  - vm_compute. reflexivity.
  - vm_compute. reflexivity.
  - exact Hcalls.
Defined.

Lemma deleting_pass_removes_finalizer_last_witness :
  let s := Examples.pssStart Examples.pssDeleting Examples.noFault
             {[ ("proj", "sub-uid-1") ]} in
  let r := Examples.reconcile s in
  metav1.DeletionTimestamp (PubSubSource.ObjectMeta (obj s)) ≠ None
  ∧ (r.1 = None →
     PubSubSource.finalizerName Examples.controllerAgentName
     ∉ metav1.Finalizers (PubSubSource.ObjectMeta (obj r.2))).
Proof.
  intros s r.
  assert (Hdel : metav1.DeletionTimestamp (PubSubSource.ObjectMeta (obj s)) ≠ None)
    by discriminate.
  split; [exact Hdel|].
  destruct (deleting_pass_removes_finalizer_last Examples.controllerAgentName
              Examples.receiveAdapterImage Examples.GenerateSubName Examples.GetLabels
              Examples.GetLabelSelector Examples.MakeReceiveAdapter s Hdel)
    as (_ & Hok & _).
  intros Hnone. destruct (Hok Hnone) as [Hoff _]. exact Hoff.
Defined.

Lemma reconcilePubSub_creates_once_witness :
  let s := Examples.gcsStart Examples.gcsNew Examples.noFault Examples.theSink in
  let ps := Examples.MakePullSubscription Examples.gcsNew "testing" in
  let r := GCS.reconcilePubSub Examples.MakePullSubscription s in
  r.1 = inr ps
  ∧ GCS.reconcilePubSub Examples.MakePullSubscription r.2
    = (inr ps, mkSt (world r.2) Examples.gcsNew
                 (trace r.2 ++ [(GCS.PullSubscriptionsGet "ns" "src", Examples.gcsNew)])).
Proof.
  intros s ps r.
  assert (Hr : r.1 = inr ps) by (vm_compute; reflexivity).
  split; [exact Hr|].
  apply (reconcilePubSub_creates_once Examples.MakePullSubscription s ps eq_refl Hr r.2).
  - vm_compute. reflexivity.
  - reflexivity.
  - vm_compute. reflexivity.
Defined.

Lemma reconcileNotification_get_or_create_witness :
  let s := Examples.gcsStart Examples.gcsNew Examples.noFault Examples.theSink in
  let r := GCS.reconcileNotification s in
  calls r.2
  = calls s ++ [GCS.StorageNewClient; GCS.BucketNotifications "b";
                GCS.AddNotification "b" (notificationOf Examples.gcsNew)].
Proof.
  intros s r.
  destruct (reconcileNotification_get_or_create s) as [_ Hcreate].
  - vm_compute. reflexivity.
  - vm_compute. reflexivity.
  - destruct (Hcreate (or_introl eq_refl)) as (Hcalls & _). exact Hcalls.
Defined.

Lemma gcs_deleting_pass_removes_finalizer_last_witness :
  let s := Examples.gcsStart Examples.gcsDeleting Examples.noFault Examples.theSink in
  let r := Examples.reconcileGCSSource s in
  metav1.DeletionTimestamp (GCS.ObjectMeta (obj s)) ≠ None
  ∧ (r.1 = None →
     obj r.2
     = GCS.removeFinalizer Examples.controllerAgentName
         (GCS.withStatus (GCS.setTopic "") (obj s))).
Proof.
  intros s r.
  assert (Hdel : metav1.DeletionTimestamp (GCS.ObjectMeta (obj s)) ≠ None)
    by discriminate.
  split; [exact Hdel|].
  destruct (gcs_deleting_pass_removes_finalizer_last Examples.controllerAgentName
              Examples.MakePullSubscription s Hdel) as (_ & _ & Hok).
  intros Hnone. destruct (Hok Hnone) as [Hobj _]. exact Hobj.
Defined.

Lemma gcs_successful_pass_holds_its_resources_witness :
  let s := Examples.gcsStart Examples.gcsNew Examples.noFault Examples.theSink in
  let r := Examples.reconcileGCSSource s in
  r.1 = None
  ∧ GCS.Topic (GCS.Status (obj r.2)) ≠ ""
  ∧ (GCS.GoogleCloudProject (GCS.Spec (obj r.2)), GCS.Topic (GCS.Status (obj r.2)))
    ∈ GCS.topics (world r.2)
  ∧ GCS.finalizerName Examples.controllerAgentName
    ∈ metav1.Finalizers (GCS.ObjectMeta (obj r.2)).
Proof.
  intros s r.
  assert (Hr : r.1 = None) by (vm_compute; reflexivity).
  split; [exact Hr|].
  destruct (gcs_successful_pass_holds_its_resources Examples.controllerAgentName
              Examples.MakePullSubscription s eq_refl Hr)
    as (_ & Htopic & _ & Hin & Hheld & _).
  split_and!; [exact Htopic|exact Hin|exact Hheld].
Defined.

Lemma receive_adapter_is_made_of_witness :
  let s := Examples.pssStart (Examples.pssRecord "topic") Examples.noFault ∅ in
  let r := Examples.reconcile s in
  ∃ dp, calls r.2 !! 5 = Some (PubSubSource.DeploymentsCreate "ns" dp)
        ∧ ∃ args, dp = Examples.MakeReceiveAdapter args
                  ∧ PubSubSource.Image args = Examples.receiveAdapterImage
                  ∧ PubSubSource.ArgSinkURI args = "http://sink".
Proof.
  intros s r.
  assert (Hnew : ∃ dp, calls r.2 !! 5 = Some (PubSubSource.DeploymentsCreate "ns" dp))
    by (eexists; vm_compute; reflexivity).
  destruct Hnew as [dp Hdp]. exists dp. split; [exact Hdp|].
  destruct (receive_adapter_is_made_of Examples.controllerAgentName
              Examples.receiveAdapterImage Examples.GenerateSubName Examples.GetLabels
              Examples.GetLabelSelector Examples.MakeReceiveAdapter s
              (calls r.2) "ns" dp eq_refl (list_elem_of_lookup_2 _ _ _ Hdp))
    as (_ & args & Hmade & Himage & _ & _ & _ & _ & Hsink & _).
  exists args. split_and!; [exact Hmade|exact Himage|].
  assert (Huri : PubSubSource.sinks (world s) !! ("ns", "sink") = Some "http://sink")
    by (vm_compute; reflexivity).
  change (PubSubSource.sinks (world s) !! ("ns", "sink")
          = Some (PubSubSource.ArgSinkURI args)) in Hsink.
  congruence.
Defined.
